(** * mne/filter.py: FIR and IIR filtering, resampling and multitaper
      line-noise removal

    A shallow embedding of [mne/filter.py].  Integers of the program are [Z],
    array samples, gains and frequencies are real numbers [R] (rounding is
    idealised), complex spectra are pairs of reals.  Exceptions and warnings
    are explicit: a fallible computation returns a [result], and a function
    that writes into the array it was given returns the array as its caller
    sees it afterwards. *)

From Stdlib Require Import Ascii String ZArith List Bool Reals Lra Lia.
Import ListNotations.

Open Scope Z_scope.

(** ** Python values and control effects *)

Inductive exn : Type :=
| ValueError (msg : string)
| IndexError
| OverflowError
| ZeroDivisionError.

Inductive result (A : Type) : Type :=
| Ok (a : A)
| Raise (e : exn).
Arguments Ok {A} a.
Arguments Raise {A} e.

Definition bind {A B : Type} (r : result A) (k : A -> result B) : result B :=
  match r with
  | Ok a => k a
  | Raise e => Raise e
  end.

Notation "x <- r ;; k" := (bind r (fun x => k))
  (at level 61, r at next level, right associativity).

(** [a == b] on floats whose values are the reals [a] and [b]. *)
Definition Req_bool (a b : R) : bool :=
  if Req_dec_T a b then true else false.

Definition Rgt_bool (a b : R) : bool :=
  if Rlt_dec b a then true else false.

Definition Rlt_bool (a b : R) : bool :=
  if Rlt_dec a b then true else false.

(** ** Kernel length and the gain at the Nyquist frequency ([_filter]) *)

Module KernelLength.

(** The test guarding both adjustments in [_filter]:
    [(gain[-1] == 0.0 and N % 2 == 1) or (gain[-1] == 1.0 and N % 2 != 1)]. *)
Definition needs_extra_sample (gain_last : R) (n : Z) : bool :=
  (Req_bool gain_last 0 && (n mod 2 =? 1))
  || (Req_bool gain_last 1 && negb (n mod 2 =? 1)).

(** The length the kernel would have without the adjustment: the signal
    length in the direct branch, [filter_length] in the overlap-add branch. *)
Definition natural_length (filter_length : option Z) (n_times : Z) : Z :=
  match filter_length with
  | None => n_times
  | Some fl => if n_times <=? fl then n_times else fl
  end.

(** Direct branch, lines 277-285: [N = x.shape[1] + (extend_x is True)]. *)
Definition direct_extend_x (gain_last : R) (Norig : Z) : bool :=
  needs_extra_sample gain_last Norig.

Definition direct_N (gain_last : R) (Norig : Z) : Z :=
  Norig + (if direct_extend_x gain_last Norig then 1 else 0).

(** Overlap-add branch, lines 314-319: [N = filter_length], then [N += 1]
    under the same test. *)
Definition overlap_N (gain_last : R) (filter_length : Z) : Z :=
  if needs_extra_sample gain_last filter_length then filter_length + 1
  else filter_length.

(** The [N] handed to [firwin2] by [_filter]. *)
Definition kernel_length (filter_length : option Z) (n_times : Z)
    (gain_last : R) : Z :=
  match filter_length with
  | None => direct_N gain_last n_times
  | Some fl =>
      if n_times <=? fl then direct_N gain_last n_times
      else overlap_N gain_last fl
  end.

End KernelLength.

(** ** Arrays, indices and slices as numpy has them *)

Inductive warning : Type :=
| FFTLengthNotPower2
| LowAttenuation (att_freq att_db : R)
| ZeroLengthAlongAxis (axis : Z).

(** A two-dimensional array of shape [(len rows, shape1)]. *)
Record array2d : Type := Array2d { shape1 : nat; rows : list (list R) }.

Definition shape0 (x : array2d) : nat := length (rows x).

Definition len {A : Type} (l : list A) : Z := Z.of_nat (length l).

(** An index [i] into a sequence of length [n]: negative indices count from
    the end, anything outside [-n, n) is an [IndexError]. *)
Definition norm_index (n i : Z) : option nat :=
  if (0 <=? i) && (i <? n) then Some (Z.to_nat i)
  else if (- n <=? i) && (i <? 0) then Some (Z.to_nat (i + n))
  else None.

Definition getitem {A : Type} (l : list A) (i : Z) : result A :=
  match norm_index (len l) i with
  | Some k => match nth_error l k with
              | Some a => Ok a
              | None => Raise IndexError
              end
  | None => Raise IndexError
  end.

(** [l[i]] for an index [0 <= i < len(l)] of an array of floats. *)
Definition item (l : list R) (i : Z) : R := nth (Z.to_nat i) l 0%R.

(** Bounds of [l[start:stop]] (step 1), and of [l[start:stop:-1]]. *)
Definition clamp_fwd (n i : Z) : Z :=
  if i <? 0 then Z.max 0 (i + n) else Z.min i n.

Definition clamp_bwd (n i : Z) : Z :=
  if i <? 0 then Z.max (-1) (i + n) else Z.min i (n - 1).

Definition slice {A : Type} (l : list A) (start stop : Z) : list A :=
  let a := clamp_fwd (len l) start in
  let b := clamp_fwd (len l) stop in
  firstn (Z.to_nat (b - a)) (skipn (Z.to_nat a) l).

(** [l[start:stop:-1]]: the items at [start, start-1, ..., stop+1]. *)
Definition slice_rev {A : Type} (l : list A) (start stop : Z) : list A :=
  let a := clamp_bwd (len l) start in
  let b := clamp_bwd (len l) stop in
  rev (firstn (Z.to_nat (a - b)) (skipn (Z.to_nat (b + 1)) l)).

(** [np.zeros(n)]. *)
Definition np_zeros (n : Z) : result (list R) :=
  if n <? 0 then Raise (ValueError "negative dimensions are not allowed")
  else Ok (repeat 0%R (Z.to_nat n)).

(** A value of shape [(length v,)] broadcast to shape [(n,)]. *)
Definition broadcast_to (n : nat) (v : list R) : result (list R) :=
  if (length v =? n)%nat then Ok v
  else match v with
       | [a] => Ok (repeat a n)
       | _ => Raise (ValueError "could not broadcast input array")
       end.

Fixpoint zip_with {A B D : Type} (f : A -> B -> D) (l : list A) (m : list B)
    : list D :=
  match l, m with
  | a :: l', b :: m' => f a b :: zip_with f l' m'
  | _, _ => []
  end.

(** [acc[start:stop] += v]. *)
Definition iadd_slice (acc : list R) (start stop : Z) (v : list R)
    : result (list R) :=
  let a := Z.to_nat (clamp_fwd (len acc) start) in
  let b := Z.to_nat (clamp_fwd (len acc) stop) in
  let tgt := firstn (b - a) (skipn a acc) in
  v' <- broadcast_to (length tgt) v ;;
  Ok (firstn a acc ++ zip_with Rplus tgt v' ++ skipn (a + length tgt) acc).

(** [x[p]] and [x[p] = v] for a row index [p]. *)
Definition getrow (x : array2d) (p : Z) : result (list R) :=
  getitem (rows x) p.

Fixpoint replace_nth {A : Type} (l : list A) (k : nat) (a : A) : list A :=
  match l, k with
  | [], _ => []
  | _ :: l', O => a :: l'
  | b :: l', S k' => b :: replace_nth l' k' a
  end.

Definition setrow (x : array2d) (p : Z) (v : list R) : result array2d :=
  match norm_index (len (rows x)) p with
  | None => Raise IndexError
  | Some k =>
      v' <- broadcast_to (shape1 x) v ;;
      Ok (Array2d (shape1 x) (replace_nth (rows x) k v'))
  end.

(** Row [i] of an array of [n] rows is addressed by [picks] when [picks]
    holds [i] or its negative form [i - n]. *)
Definition addressed (n : nat) (picks : list Z) (i : nat) : Prop :=
  In (Z.of_nat i) picks \/ In (Z.of_nat i - Z.of_nat n) picks.

(** Every row of [x] has [x.shape[1]] items, and every index of [picks] is
    an index of a row of [x]. *)
Definition wf_array (x : array2d) : Prop :=
  Forall (fun r => length r = shape1 x) (rows x).

Definition valid_picks (x : array2d) (picks : list Z) : Prop :=
  Forall (fun p => - Z.of_nat (shape0 x) <= p < Z.of_nat (shape0 x)) picks.

(** [picks] as the filtering functions take it: [None] for all rows. *)
Definition picks_fit (x : array2d) (picks : option (list Z)) : Prop :=
  match picks with
  | Some ps => valid_picks x ps
  | None => True
  end.

(** [np.arange(n)] as a list of indices. *)
Definition arange (n : nat) : list Z := map Z.of_nat (seq 0 n).

(** What a call leaves behind: the array its caller passed, as the caller
    sees it after the call, the warnings issued, and the value returned or
    the exception raised. *)
Record run (A : Type) : Type :=
  Run { mem : array2d; warned : list warning; ret : result A }.
Arguments Run {A} mem warned ret.
Arguments mem {A} r.
Arguments warned {A} r.
Arguments ret {A} r.

(** [x'] has the rows of [x] wherever [picks] does not address them. *)
Definition same_off (picks : list Z) (x x' : array2d) : Prop :=
  shape0 x' = shape0 x
  /\ forall i, ~ addressed (shape0 x) picks i ->
       nth_error (rows x') i = nth_error (rows x) i.

(** A run keeps the rows off [picks], in the caller's array and in the
    array it returns. *)
Definition keeps_rows_off {A : Type} (picks : list Z) (x : array2d)
    (array_of : A -> array2d) (r : run A) : Prop :=
  same_off picks x (mem r)
  /\ forall y, ret r = Ok y -> same_off picks x (array_of y).

(** [_prep_for_filtering]: the array a function works on is [x] itself or,
    with [copy=True], a copy of it; [caller] gives back what the caller's
    array holds once the work is done. *)
Definition caller (copy : bool) (x worked : array2d) : array2d :=
  if copy then x else worked.

(** [for p in picks: x[p] = f(x[p])]: rows are written one at a time, an
    exception leaves the rows already written in place. *)
Fixpoint assign_serial (f : list R -> result (list R)) (picks : list Z)
    (x : array2d) : array2d * result unit :=
  match picks with
  | [] => (x, Ok tt)
  | p :: ps =>
      match (r <- getrow x p ;; v <- f r ;; setrow x p v) with
      | Ok x' => assign_serial f ps x'
      | Raise e => (x, Raise e)
      end
  end.

(** [data_new = parallel(p_fun(x[p], ...) for p in picks)]. *)
Fixpoint map_rows (f : list R -> result (list R)) (picks : list Z)
    (x : array2d) : result (list (list R)) :=
  match picks with
  | [] => Ok []
  | p :: ps =>
      r <- getrow x p ;; v <- f r ;; vs <- map_rows f ps x ;; Ok (v :: vs)
  end.

(** [for pp, p in enumerate(picks): x[p] = data_new[pp]]. *)
Fixpoint assign_each (picks : list Z) (data_new : list (list R))
    (x : array2d) : array2d * result unit :=
  match picks, data_new with
  | p :: ps, v :: vs =>
      match setrow x p v with
      | Ok x' => assign_each ps vs x'
      | Raise e => (x, Raise e)
      end
  | _, _ => (x, Ok tt)
  end.

Definition assign_parallel (f : list R -> result (list R)) (picks : list Z)
    (x : array2d) : array2d * result unit :=
  match map_rows f picks x with
  | Ok data_new => assign_each picks data_new x
  | Raise e => (x, Raise e)
  end.

(** [if n_jobs == 1: ... else: ...] around the two loops above. *)
Definition assign_rows (n_jobs : Z) (f : list R -> result (list R))
    (picks : list Z) (x : array2d) : array2d * result unit :=
  if n_jobs =? 1 then assign_serial f picks x
  else assign_parallel f picks x.

(** Complex numbers, as far as the filter needs them. *)
Definition C : Type := (R * R)%type.

Definition Cabs (z : C) : R := sqrt (fst z * fst z + snd z * snd z).

Definition Cdiv_real (z : C) (r : R) : C := (fst z / r, snd z / r)%R.

(** ** [is_power2] *)

(** [num != 0 and ((num & (num - 1)) == 0)]. *)
Definition is_power2 (num : Z) : bool :=
  negb (num =? 0) && (Z.land num (num - 1) =? 0).

(** ** Overlap-add filtering ([_overlap_add_filter], [_1d_overlap_filter]) *)

Module OverlapAdd.

(** The file has no [from __future__ import division]: [n_tot / (N - n_h + 1)]
    divides two integers, which floors under Python 2 and is the true
    quotient under Python 3. *)
Inductive interpreter : Type := Python2 | Python3.

Definition ceil_div (a b : Z) : Z := - ((- a) / b).

(** [np.ceil(n_tot / d)] for integers [n_tot] and [d]. *)
Definition ceil_of_quotient (py : interpreter) (n_tot d : Z) : Z :=
  match py with
  | Python2 => n_tot / d
  | Python3 => ceil_div n_tot d
  end.

(** [np.arange(np.ceil(np.log2(n_h)), np.floor(np.log2(n_tot)), dtype=int)]
    for positive [n_h] and [n_tot]: the stop value is not included. *)
Definition exponents (n_h n_tot : Z) : list Z :=
  let lo := Z.log2_up n_h in
  let hi := Z.log2 n_tot in
  map (fun i => lo + Z.of_nat i) (seq 0 (Z.to_nat (hi - lo))).

(** One entry of [cost], for [N = 2 ** k]:
    [np.ceil(n_tot / (N - n_h + 1)) * N * (np.log2(N) + 1)]. *)
Definition cost (py : interpreter) (n_tot n_h k : Z) : Z :=
  ceil_of_quotient py n_tot (2 ^ k - n_h + 1) * 2 ^ k * (k + 1).

(** [np.argmin]: the first position of the least value. *)
Fixpoint first_min (f : Z -> Z) (best : Z) (l : list Z) : Z :=
  match l with
  | [] => best
  | k :: l' => first_min f (if f k <? f best then k else best) l'
  end.

Definition argmin (f : Z -> Z) (l : list Z) : option Z :=
  match l with
  | [] => None
  | k :: l' => Some (first_min f k l')
  end.

(** The [if n_fft is None:] block, lines 88-98. *)
Definition choose_n_fft (py : interpreter) (n_h n_x : Z) (zero_phase : bool)
    : result Z :=
  if n_h <? n_x then
    let n_tot := if zero_phase then 2 * n_x else n_x in
    if n_h <=? 0 then
      (* np.log2(0) is -inf, which arange refuses *)
      Raise (ValueError "arange: cannot compute length")
    else
      match argmin (cost py n_tot n_h) (exponents n_h n_tot) with
      | None => Raise (ValueError "attempt to get argmin of an empty sequence")
      | Some k => Ok (2 ^ k)
      end
  else
    let m := n_x + n_h - 1 in
    if m <? 0 then Raise (ValueError "cannot convert float NaN to integer")
    else if m =? 0 then Raise OverflowError
    else Ok (2 ^ Z.log2_up m).

(** Zero-phase scaling of one bin of the kernel spectrum, lines 115-116:
    [h_fft[idx] = h_fft[idx] / np.sqrt(np.abs(h_fft[idx]))] where
    [np.abs(h_fft) > 1e-6]. *)
Definition scale_bin (H : C) : C :=
  if Rgt_bool (Cabs H) (1 / 1000000) then Cdiv_real H (sqrt (Cabs H)) else H.

Definition zero_phase_scale (h_fft : list C) : list C := map scale_bin h_fft.

(** The padded channel of [_1d_overlap_filter], lines 149-150:
    [np.r_[2 * x[0] - x[n_edge - 1:0:-1], x, 2 * x[-1] - x[-2:-n_edge - 1:-1]]]. *)
Definition x_ext (x : list R) (n_edge : Z) : result (list R) :=
  x_first <- getitem x 0 ;;
  x_last <- getitem x (-1) ;;
  Ok (map (fun v => 2 * x_first - v)%R (slice_rev x (n_edge - 1) 0)
      ++ x
      ++ map (fun v => 2 * x_last - v)%R (slice_rev x (-2) (- n_edge - 1))).

Section Engine.

(** [scipy.fftpack.fft] of a real array, and [fft_multiply_repeated] with the
    portable implementation ([cuda_dict] says not to use CUDA). *)
Variable fft : list R -> list C.
Variable fft_multiply_repeated : list C -> list R -> list R.

(** The body of [for seg_idx in range(n_segments):]. *)
Definition one_segment (h_fft : list C) (n_fft n_seg n_x : Z)
    (filter_input x_filtered : list R) (seg_idx : Z) : result (list R) :=
  let seg := slice filter_input (seg_idx * n_seg) ((seg_idx + 1) * n_seg) in
  pad <- np_zeros (n_fft - len seg) ;;
  let prod := fft_multiply_repeated h_fft (seg ++ pad) in
  if seg_idx * n_seg + n_fft <? n_x then
    iadd_slice x_filtered (seg_idx * n_seg) (seg_idx * n_seg + n_fft) prod
  else
    iadd_slice x_filtered (seg_idx * n_seg) (len x_filtered)
      (slice prod 0 (n_x - seg_idx * n_seg)).

Fixpoint segments (h_fft : list C) (n_fft n_seg n_x : Z)
    (filter_input x_filtered : list R) (seg_idxs : list Z)
    : result (list R) :=
  match seg_idxs with
  | [] => Ok x_filtered
  | seg_idx :: rest =>
      x_filtered' <- one_segment h_fft n_fft n_seg n_x filter_input
                       x_filtered seg_idx ;;
      segments h_fft n_fft n_seg n_x filter_input x_filtered' rest
  end.

(** One pass over [filter_input], starting from [np.zeros_like(x_ext)]. *)
Definition one_pass (h_fft : list C) (n_fft n_seg n_segments n_x : Z)
    (filter_input : list R) : result (list R) :=
  segments h_fft n_fft n_seg n_x filter_input
    (repeat 0%R (Z.to_nat n_x)) (arange (Z.to_nat n_segments)).

Definition _1d_overlap_filter (x : list R) (h_fft : list C)
    (n_edge n_fft : Z) (zero_phase : bool) (n_segments n_seg : Z)
    : result (list R) :=
  xe <- x_ext x n_edge ;;
  let n_x := len xe in
  pass0 <- one_pass h_fft n_fft n_seg n_segments n_x xe ;;
  x_filtered <-
    (if zero_phase
     then one_pass h_fft n_fft n_seg n_segments n_x (rev pass0)
     else Ok pass0) ;;
  let x_filtered := slice x_filtered (n_edge - 1) (- n_edge + 1) in
  Ok (if zero_phase then rev x_filtered else x_filtered).

(** Everything [_overlap_add_filter] settles before it touches a row:
    the lengths, the FFT size with its two checks, the kernel spectrum. *)
Record plan : Type :=
  Plan { plan_n_edge : Z; plan_n_fft : Z; plan_n_seg : Z;
         plan_n_segments : Z; plan_h_fft : list C }.

Definition prepare (py : interpreter) (x : array2d) (h : list R)
    (n_fft : option Z) (zero_phase : bool) : list warning * result plan :=
  let n_h := len h in
  let n_edge := Z.min n_h (Z.of_nat (shape1 x)) in
  let n_x := Z.of_nat (shape1 x) + 2 * n_edge - 2 in
  match (match n_fft with
         | None => choose_n_fft py n_h n_x zero_phase
         | Some n => Ok n
         end) with
  | Raise e => ([], Raise e)
  | Ok n_fft =>
      if n_fft <=? 0 then
        ([], Raise (ValueError "n_fft is too short, has to be at least len(h)"))
      else
        let w := if is_power2 n_fft then [] else [FFTLengthNotPower2] in
        match np_zeros (n_fft - n_h) with
        | Raise e => (w, Raise e)
        | Ok pad =>
            let h_fft := fft (h ++ pad) in
            let h_fft := if zero_phase then zero_phase_scale h_fft else h_fft in
            let n_seg := n_fft - n_h + 1 in
            let n_segments := ceil_div n_x n_seg in
            (w, Ok (Plan n_edge n_fft n_seg n_segments h_fft))
        end
  end.

(** [_overlap_add_filter(x, h, n_fft, zero_phase, picks, n_jobs)] for an
    integer [n_jobs].  It works on [x] in place and returns it. *)
Definition _overlap_add_filter (py : interpreter) (x : array2d) (h : list R)
    (n_fft : option Z) (zero_phase : bool) (picks : option (list Z))
    (n_jobs : Z) : run array2d :=
  let picks := match picks with
               | None => arange (shape0 x)
               | Some ps => ps
               end in
  match prepare py x h n_fft zero_phase with
  | (w, Raise e) => Run x w (Raise e)
  | (w, Ok pl) =>
      let f := fun row =>
        _1d_overlap_filter row (plan_h_fft pl) (plan_n_edge pl)
          (plan_n_fft pl) zero_phase (plan_n_segments pl) (plan_n_seg pl) in
      match assign_rows n_jobs f picks x with
      | (x', Ok _) => Run x' w (Ok x')
      | (x', Raise e) => Run x' w (Raise e)
      end
  end.

End Engine.

End OverlapAdd.

(** ** Filtering from gain control points ([_filter], [_1d_fftmult_ext]) *)

Module Filter.

Import KernelLength.

Section Filter.

Variable fft : list R -> list C.
Variable fft_multiply_repeated : list C -> list R -> list R.

(** [firwin2(N, freq, gain)] of [mne.fixes], which may refuse its arguments,
    and the pair [(att_db, att_freq)] of [_filter_attenuation(h, freq, gain)],
    which rests on [scipy.signal.freqz]. *)
Variable firwin2 : Z -> list R -> list R -> result (list R).
Variable _filter_attenuation : list R -> list R -> list R -> R * R.

Definition _1d_fftmult_ext (x : list R) (B : list C) (extend_x : bool)
    : result (list R) :=
  x <- (if extend_x
        then x_last <- getitem x (-1) ;; Ok (x ++ [x_last])
        else Ok x) ;;
  let xf := fft_multiply_repeated B x in
  Ok (if extend_x then slice xf 0 (-1) else xf).

(** [min_att_db = 20]; the overlap-add branch adds 6 dB before the test. *)
Definition attenuation_warning (Fs : R) (att : R * R) (headroom : R)
    : list warning :=
  let att_db := (fst att + headroom)%R in
  if Rlt_bool att_db 20 then [LowAttenuation (snd att * (Fs / 2)) att_db]
  else [].

(** Lines 275-311: direct FFT filtering for short signals. *)
Definition direct_branch (x : array2d) (Fs : R) (freq gain : list R)
    (gain_last : R) (picks : list Z) (n_jobs : Z) (copy : bool)
    : run array2d :=
  let Norig := Z.of_nat (shape1 x) in
  let extend_x := direct_extend_x gain_last Norig in
  match firwin2 (direct_N gain_last Norig) freq gain with
  | Raise e => Run x [] (Raise e)
  | Ok H =>
      let w := attenuation_warning Fs (_filter_attenuation H freq gain) 0 in
      let B := map (fun z => (Cabs z, 0%R)) (fft H) in
      match assign_rows n_jobs (fun r => _1d_fftmult_ext r B extend_x)
              picks x with
      | (x', Ok _) => Run (caller copy x x') w (Ok x')
      | (x', Raise e) => Run (caller copy x x') w (Raise e)
      end
  end.

(** Lines 313-332: overlap-add filtering with a kernel of fixed length. *)
Definition overlap_branch (py : OverlapAdd.interpreter) (x : array2d)
    (Fs : R) (freq gain : list R) (gain_last : R) (filter_length : Z)
    (picks : list Z) (n_jobs : Z) (copy : bool) : run array2d :=
  match firwin2 (overlap_N gain_last filter_length) freq gain with
  | Raise e => Run x [] (Raise e)
  | Ok H =>
      let w := attenuation_warning Fs (_filter_attenuation H freq gain) 6 in
      let r := OverlapAdd._overlap_add_filter fft fft_multiply_repeated
                 py x H None true (Some picks) n_jobs in
      Run (caller copy x (mem r)) (w ++ warned r) (ret r)
  end.

(** Line 271: [freq = np.array([f / (Fs / 2) for f in freq])] for Python
    numbers, where dividing by a zero [Fs / 2] is a [ZeroDivisionError]. *)
Definition normalize_freq (Fs : R) (freq : list R) : result (list R) :=
  match freq with
  | [] => Ok []
  | _ :: _ =>
      if Req_bool (Fs / 2) 0 then Raise ZeroDivisionError
      else Ok (map (fun f => f / (Fs / 2))%R freq)
  end.

Definition _filter (py : OverlapAdd.interpreter) (x : array2d) (Fs : R)
    (freq gain : list R) (filter_length : option Z)
    (picks : option (list Z)) (n_jobs : Z) (copy : bool) : run array2d :=
  let picks := match picks with
               | None => arange (shape0 x)
               | Some ps => ps
               end in
  match normalize_freq Fs freq with
  | Raise e => Run x [] (Raise e)
  | Ok freq =>
      match getitem gain (-1) with
      | Raise e => Run x [] (Raise e)
      | Ok gain_last =>
          match filter_length with
          | Some fl =>
              if Z.of_nat (shape1 x) <=? fl
              then direct_branch x Fs freq gain gain_last picks n_jobs copy
              else overlap_branch py x Fs freq gain gain_last fl picks n_jobs
                     copy
          | None => direct_branch x Fs freq gain gain_last picks n_jobs copy
          end
      end
  end.

End Filter.

End Filter.

(** ** Resampling ([resample]) *)

Module Resample.

(** An n-dimensional array: its shape and its items in row-major order. *)
Record ndarray : Type := NDArray { shape : list Z; items : list R }.

Section Resample.

(** Lines 1172-1194, the branch for [x_len > 0]: edge padding, then
    [scipy.signal.resample], then trimming. *)
Variable resample_padded :
  ndarray -> R -> Z -> Z -> string -> result ndarray.

Definition resample (x : ndarray) (up down : R) (npad axis : Z)
    (window : string) : list warning * result ndarray :=
  if Req_bool down 0 then ([], Raise ZeroDivisionError)
  else
    let ratio := (up / down)%R in
    if len (shape x) <? axis then
      ([], Raise (ValueError "x does not have axes"))
    else
      match getitem (shape x) axis with
      | Raise e => ([], Raise e)
      | Ok x_len =>
          if 0 <? x_len then ([], resample_padded x ratio npad axis window)
          else ([ZeroLengthAlongAxis axis], Ok (NDArray (shape x) (items x)))
      end.

End Resample.

End Resample.

(** ** Multitaper removal of line frequencies
       ([_mt_spectrum_proc], [_mt_spectrum_remove]) *)

Module MtSpectrum.

Definition Csub (a b : C) : C := (fst a - fst b, snd a - snd b)%R.
Definition Cadd (a b : C) : C := (fst a + fst b, snd a + snd b)%R.
Definition Cscale (r : R) (z : C) : C := (r * fst z, r * snd z)%R.

Definition Rsum (l : list R) : R := fold_right Rplus 0%R l.
Definition Csum (l : list C) : C := fold_right Cadd (0%R, 0%R) l.

(** The items at positions 0, 2, 4, ... and those at positions 1, 3, 5, ...:
    [l[np.arange(0, n, 2)]] and [l[np.arange(1, n, 2)]]. *)
Fixpoint alternate {A : Type} (l : list A) : list A * list A :=
  match l with
  | [] => ([], [])
  | a :: l' => let (e, o) := alternate l' in (a :: o, e)
  end.

(** [int(r)] for a float [r]: truncation towards zero. *)
Definition py_int (r : R) : Z :=
  if Rlt_dec r 0 then (- Int_part (- r))%Z else Int_part r.

(** A float that may be [inf]: the denominators after [den[den == 0] = np.inf]. *)
Inductive denominator : Type :=
| Finite (d : R)
| Infinite.

Definition guard_zero (den : R) : denominator :=
  if Req_bool den 0 then Infinite else Finite den.

(** [num / den] for a finite [num]. *)
Definition divide (num : R) (den : denominator) : R :=
  match den with
  | Finite d => (num / d)%R
  | Infinite => 0%R
  end.

(** [v > threshold] where [threshold] may be [nan] ([None]). *)
Definition exceeds (v : R) (threshold : option R) : bool :=
  match threshold with
  | Some t => Rgt_bool v t
  | None => false
  end.

Definition bin (spectrum : list C) (k : nat) : C := nth k spectrum (0%R, 0%R).

(** [np.argmin(np.abs(freqs - lf))]. *)
Fixpoint first_min_R (f : nat -> R) (best : nat) (ks : list nat) : nat :=
  match ks with
  | [] => best
  | k :: ks' => first_min_R f (if Rlt_bool (f k) (f best) then k else best) ks'
  end.

Definition nearest_bin (freqs : list R) (lf : R) : result nat :=
  match freqs with
  | [] => Raise (ValueError "attempt to get argmin of an empty sequence")
  | _ :: _ =>
      Ok (first_min_R (fun k => Rabs (nth k freqs 0 - lf))%R O
            (seq 1 (length freqs - 1)))
  end.

Fixpoint nearest_bins (freqs line_freqs : list R) : result (list nat) :=
  match line_freqs with
  | [] => Ok []
  | lf :: rest =>
      k <- nearest_bin freqs lf ;;
      ks <- nearest_bins freqs rest ;;
      Ok (k :: ks)
  end.

(** [np.logical_and(freqs > lf - nw, freqs < lf + nw)] at one bin, for any
    of the pairs of [zip(line_freqs, notch_widths)]. *)
Definition in_notch (f : R) (line_freqs notch_widths : list R) : bool :=
  existsb (fun ln => Rgt_bool f (fst ln - snd ln) && Rlt_bool f (fst ln + snd ln))
    (combine line_freqs notch_widths).

Section MtSpectrum.

(** [dpss_windows(N, half_nbw, Kmax, low_bias=False, interp_from=...)[0]],
    [_mt_spectra(x[np.newaxis, :], window_fun, sfreq)] (spectra of the one
    channel, tapers by bins, and the frequency axis), [stats.f.ppf] ([None]
    for [nan]) and [np.angle]. *)
Variable dpss_windows : Z -> R -> Z -> Z -> list (list R).
Variable _mt_spectra : list R -> list (list R) -> R -> list (list C) * list R.
Variable f_ppf : R -> Z -> Z -> option R.
Variable np_angle : C -> R.

(** Lines 1059-1081, from the tapers and the spectra to the amplitudes. *)
Definition H0_of (window_fun : list (list R)) : list R :=
  map Rsum (fst (alternate window_fun)).

Definition H0_sq_of (H0 : list R) : R := Rsum (map (fun h => h * h)%R H0).

Definition amplitude (x_p : list (list C)) (H0 : list R) (k : nat) : C :=
  let x_p_H0 :=
    Csum (zip_with (fun sp h => Cscale h (bin sp k)) (fst (alternate x_p)) H0) in
  Cdiv_real x_p_H0 (H0_sq_of H0).

(** Lines 1087-1095: the F statistic of bin [k]. *)
Definition f_num (n_tapers : Z) (x_p : list (list C)) (H0 : list R) (k : nat)
    : R :=
  (IZR (n_tapers - 1) * (Cabs (amplitude x_p H0 k) * Cabs (amplitude x_p H0 k))
   * H0_sq_of H0)%R.

Definition f_den (x_p : list (list C)) (H0 : list R) (k : nat) : R :=
  let A := amplitude x_p H0 k in
  (Rsum (zip_with (fun sp h => let d := Cabs (Csub (bin sp k) (Cscale h A)) in d * d)
           (fst (alternate x_p)) H0)
   + Rsum (map (fun sp => Cabs (bin sp k) * Cabs (bin sp k)) (snd (alternate x_p))))%R.

Definition f_stat (n_tapers : Z) (x_p : list (list C)) (H0 : list R) (k : nat)
    : R :=
  divide (f_num n_tapers x_p H0 k) (guard_zero (f_den x_p H0 k)).

(** Line 1097. *)
Definition threshold (p_value : R) (n_times n_tapers : Z) : option R :=
  f_ppf (1 - p_value / IZR n_times)%R 2 (2 * n_tapers - 2).

(** Lines 1113-1125: the sinusoids fitted at [indices], and their sum. *)
Definition fit (A : nat -> C) (freqs rads : list R) (ind : nat) : list R :=
  let c := Cscale 2 (A ind) in
  map (fun t => Cabs c * cos (nth ind freqs 0 * t + np_angle c))%R rads.

Definition subtract_fits (x : list R) (fits : list (list R)) : list R :=
  match fits with
  | [] => map (fun v => v - 0)%R x
  | _ :: _ =>
      zip_with Rminus x
        (fold_right (zip_with Rplus) (repeat 0%R (length x)) fits)
  end.

(** The bins removed, in increasing order, in each of the two modes. *)
Definition detected_indices (p_value : R) (n_times n_tapers : Z)
    (x_p : list (list C)) (H0 freqs : list R) : list nat :=
  filter (fun k => exceeds (f_stat n_tapers x_p H0 k)
                     (threshold p_value n_times n_tapers))
    (seq 0 (length freqs)).

Definition requested_indices (freqs : list R) (indices_1 : list nat)
    (line_freqs halved_widths : list R) : list nat :=
  filter (fun k => existsb (Nat.eqb k) indices_1
                   || in_notch (nth k freqs 0%R) line_freqs halved_widths)
    (seq 0 (length freqs)).

(** Lines 1048-1056: the half-bandwidth and the tapers. *)
Definition half_nbw_of (mt_bandwidth : option R) (n_times : Z) (sfreq : R)
    : result R :=
  match mt_bandwidth with
  | Some bw => if Req_bool (2 * sfreq) 0 then Raise ZeroDivisionError
               else Ok (bw * IZR n_times / (2 * sfreq))%R
  | None => Ok 4%R
  end.

Definition window_fun_of (n_times : Z) (half_nbw : R) : list (list R) :=
  dpss_windows n_times half_nbw (py_int (2 * half_nbw)) (Z.min n_times 1000).

(** Line 1071: [rads = 2 * np.pi * (np.arange(n_times) / float(sfreq))]. *)
Definition rads_of (n_times : Z) (sfreq : R) : list R :=
  map (fun i => 2 * PI * (IZR i / sfreq))%R (arange (Z.to_nat n_times)).

(** Lines 1113-1125: the value returned once [indices] is known. *)
Definition removal (x : list R) (sfreq : R) (x_p : list (list C))
    (H0 freqs : list R) (indices : list nat) : list R * list R :=
  (subtract_fits x
     (map (fit (amplitude x_p H0) freqs (rads_of (len x) sfreq)) indices),
   map (fun k => nth k freqs 0%R) indices).

(** [_mt_spectrum_remove].  [notch_widths] is the array object the caller
    passed: [notch_widths /= 2.0] writes into it, and the first component of
    the value is what that array holds when the call is over. *)
Definition _mt_spectrum_remove (x : list R) (sfreq : R)
    (line_freqs : option (list R)) (notch_widths : list R)
    (mt_bandwidth : option R) (p_value : R)
    : list R * result (list R * list R) :=
  let n_times := len x in
  match half_nbw_of mt_bandwidth n_times sfreq with
  | Raise e => (notch_widths, Raise e)
  | Ok half_nbw =>
      let window_fun := window_fun_of n_times half_nbw in
      let n_tapers := len window_fun in
      let H0 := H0_of window_fun in
      let x_p := fst (_mt_spectra x window_fun sfreq) in
      let freqs := snd (_mt_spectra x window_fun sfreq) in
      match line_freqs with
      | None =>
          if n_times =? 0 then (notch_widths, Raise ZeroDivisionError)
          else
            (notch_widths,
             Ok (removal x sfreq x_p H0 freqs
                   (detected_indices p_value n_times n_tapers x_p H0 freqs)))
      | Some lfs =>
          match nearest_bins freqs lfs with
          | Raise e => (notch_widths, Raise e)
          | Ok indices_1 =>
              let halved := map (fun w => w / 2)%R notch_widths in
              (halved,
               Ok (removal x sfreq x_p H0 freqs
                     (requested_indices freqs indices_1 lfs halved)))
          end
      end
  end.

(** [_mt_spectrum_proc], serial loop (lines 999-1005):
    [for ii, x_ in enumerate(x): if ii in picks: x[ii], f = ...].  The same
    [notch_widths] object is handed to every call. *)
Definition remove_row (sfreq : R) (line_freqs : option (list R))
    (mt_bandwidth : option R) (p_value : R) (x : array2d)
    (notch_widths : list R) (ii : nat)
    : array2d * list R * result (list R) :=
  match nth_error (rows x) ii with
  | None => (x, notch_widths, Raise IndexError)
  | Some x_ =>
      match _mt_spectrum_remove x_ sfreq line_freqs notch_widths
              mt_bandwidth p_value with
      | (nw, Raise e) => (x, nw, Raise e)
      | (nw, Ok (y, f)) =>
          match setrow x (Z.of_nat ii) y with
          | Raise e => (x, nw, Raise e)
          | Ok x' => (x', nw, Ok f)
          end
      end
  end.

Fixpoint proc_serial (sfreq : R) (line_freqs : option (list R))
    (mt_bandwidth : option R) (p_value : R) (picks : list Z)
    (iis : list nat) (x : array2d) (notch_widths : list R)
    (freq_list : list (list R))
    : array2d * list R * result (list (list R)) :=
  match iis with
  | [] => (x, notch_widths, Ok freq_list)
  | ii :: rest =>
      if existsb (Z.eqb (Z.of_nat ii)) picks then
        match remove_row sfreq line_freqs mt_bandwidth p_value x
                notch_widths ii with
        | (x', nw, Ok f) =>
            proc_serial sfreq line_freqs mt_bandwidth p_value picks rest x' nw
              (freq_list ++ [f])
        | (x', nw, Raise e) => (x', nw, Raise e)
        end
      else
        proc_serial sfreq line_freqs mt_bandwidth p_value picks rest x
          notch_widths freq_list
  end.

(** Parallel branch (lines 1009-1016).  Every job is given the arguments as
    they were when the jobs were made; nothing is written until all of them
    have returned. *)
Fixpoint proc_jobs (sfreq : R) (line_freqs : option (list R))
    (notch_widths : list R) (mt_bandwidth : option R) (p_value : R)
    (picks : list Z) (ii : nat) (todo : list (list R))
    : result (list (list R * list R)) :=
  match todo with
  | [] => Ok []
  | x_ :: rest =>
      if existsb (Z.eqb (Z.of_nat ii)) picks then
        d <- snd (_mt_spectrum_remove x_ sfreq line_freqs notch_widths
                    mt_bandwidth p_value) ;;
        ds <- proc_jobs sfreq line_freqs notch_widths mt_bandwidth p_value
                picks (S ii) rest ;;
        Ok (d :: ds)
      else
        proc_jobs sfreq line_freqs notch_widths mt_bandwidth p_value
          picks (S ii) rest
  end.

(** [x[picks, :] = data_new]: every index must be in range and [data_new]
    must broadcast to [(len(picks), x.shape[1])] before anything is written;
    then row [picks[j]] receives row [j] of the value. *)
Fixpoint norm_indices (n : Z) (picks : list Z) : result (list nat) :=
  match picks with
  | [] => Ok []
  | p :: ps =>
      match norm_index n p with
      | None => Raise IndexError
      | Some k => ks <- norm_indices n ps ;; Ok (k :: ks)
      end
  end.

Fixpoint broadcast_all (n : nat) (vs : list (list R)) : result (list (list R)) :=
  match vs with
  | [] => Ok []
  | v :: vs' =>
      v' <- broadcast_to n v ;; vs'' <- broadcast_all n vs' ;; Ok (v' :: vs'')
  end.

Definition broadcast_rows (m n : nat) (data_new : list (list R))
    : result (list (list R)) :=
  match data_new with
  | [] => if (n =? 0)%nat then Ok (repeat [] m)
          else Raise (ValueError "shape mismatch")
  | [v] => v' <- broadcast_to n v ;; Ok (repeat v' m)
  | _ => if (length data_new =? m)%nat then broadcast_all n data_new
         else Raise (ValueError "shape mismatch")
  end.

Fixpoint write_rows (ks : list nat) (vs : list (list R)) (rs : list (list R))
    : list (list R) :=
  match ks, vs with
  | k :: ks', v :: vs' => write_rows ks' vs' (replace_nth rs k v)
  | _, _ => rs
  end.

Definition assign_fancy (x : array2d) (picks : list Z)
    (data_new : list (list R)) : result array2d :=
  ks <- norm_indices (len (rows x)) picks ;;
  vs <- broadcast_rows (length picks) (shape1 x) data_new ;;
  Ok (Array2d (shape1 x) (write_rows ks vs (rows x))).

(** [_mt_spectrum_proc] for an integer [n_jobs].  The value is the run on
    the array, with the list [freq_list] that is reported, and what the
    caller's [notch_widths] array holds afterwards. *)
Definition _mt_spectrum_proc (x : array2d) (sfreq : R)
    (line_freqs : option (list R)) (notch_widths : list R)
    (mt_bandwidth : option R) (p_value : R) (picks : option (list Z))
    (n_jobs : Z) (copy : bool) : run (array2d * list (list R)) * list R :=
  let picks := match picks with
               | None => arange (shape0 x)
               | Some ps => ps
               end in
  if n_jobs =? 1 then
    match proc_serial sfreq line_freqs mt_bandwidth p_value picks
            (seq 0 (shape0 x)) x notch_widths [] with
    | (x', nw, Ok freq_list) =>
        (Run (caller copy x x') [] (Ok (x', freq_list)), nw)
    | (x', nw, Raise e) => (Run (caller copy x x') [] (Raise e), nw)
    end
  else
    match proc_jobs sfreq line_freqs notch_widths mt_bandwidth p_value
            picks 0 (rows x) with
    | Raise e => (Run x [] (Raise e), notch_widths)
    | Ok data_new =>
        match assign_fancy x picks (map fst data_new) with
        | Raise e => (Run x [] (Raise e), notch_widths)
        | Ok x' =>
            (Run (caller copy x x') [] (Ok (x', map snd data_new)),
             notch_widths)
        end
    end.

End MtSpectrum.

End MtSpectrum.

(** ** The planner and the threshold in the specification's words *)

Module AsSpecified.

Import OverlapAdd.

(** The cost of section 4.3: [ceil(n_tot/(N - n_h + 1)) * N * (log2 N + 1)]
    for [N = 2 ^ k]. *)
Definition specified_cost (n_tot n_h k : Z) : Z :=
  ceil_div n_tot (2 ^ k - n_h + 1) * 2 ^ k * (k + 1).

(** [N] is a power of two with [log2 N] in the inclusive range
    [ceil(log2 n_h) .. floor(log2 n_tot)] and no size of that range costs
    less. *)
Definition specified_choice (n_h n_x : Z) (zero_phase : bool) (N : Z) : Prop :=
  let n_tot := if zero_phase then 2 * n_x else n_x in
  exists k, N = 2 ^ k
    /\ Z.log2_up n_h <= k <= Z.log2 n_tot
    /\ forall k', Z.log2_up n_h <= k' <= Z.log2 n_tot ->
         specified_cost n_tot n_h k <= specified_cost n_tot n_h k'.

(** The bins flagged when the level is divided by the number of frequency
    bins tested, as section 4.6 (3b) has it. *)
Definition specified_detected (f_ppf : R -> Z -> Z -> option R) (p_value : R)
    (n_tapers : Z) (x_p : list (list C)) (H0 freqs : list R) : list nat :=
  filter (fun k => MtSpectrum.exceeds (MtSpectrum.f_stat n_tapers x_p H0 k)
                     (f_ppf (1 - p_value / IZR (len freqs))%R 2
                        (2 * n_tapers - 2)))
    (seq 0 (length freqs)).

(** The quantile function of the F distribution with 2 and [dfd] degrees of
    freedom, whose distribution function is
    [1 - (1 + 2 x / dfd) ^ (- dfd / 2)]; [nan] outside [0 <= q < 1]. *)
Definition f2_ppf (q : R) (dfn dfd : Z) : option R :=
  if Rlt_bool q 0 then None
  else if Rlt_bool q 1 then
    Some (IZR dfd / 2 * (Rpower (1 - q) (- 2 / IZR dfd) - 1))%R
  else None.

End AsSpecified.

(** ** Small instances of the external routines, for concrete runs *)

Module Fixtures.

(** A transform that keeps the samples as real spectra, and a spectral
    multiply that gives the signal back. *)
Definition plain_fft : list R -> list C := map (fun v => (v, 0%R)).
Definition pass_through : list C -> list R -> list R := fun _ v => v.
Definition unit_kernel : Z -> list R -> list R -> result (list R) :=
  fun _ _ _ => Ok [1%R].
Definition good_attenuation : list R -> list R -> list R -> R * R :=
  fun _ _ _ => (30%R, 0%R).
Definition same_array : Resample.ndarray -> R -> Z -> Z -> string
                        -> result Resample.ndarray :=
  fun x _ _ _ _ => Ok x.

(** One taper of one sample and a flat spectrum on four bins. *)
Definition one_taper : Z -> R -> Z -> Z -> list (list R) :=
  fun _ _ _ _ => [[1%R]].
Definition xp4 : list (list C) := [[(1, 0); (1, 0); (1, 0); (1, 0)]]%R.
Definition fr4 : list R := [0; 47; 50; 53]%R.
Definition flat_spectrum
    : list R -> list (list R) -> R -> list (list C) * list R :=
  fun _ _ _ => (xp4, fr4).
Definition no_ppf : R -> Z -> Z -> option R := fun _ _ _ => None.
Definition zero_angle : C -> R := fun _ => 0%R.

(** Two tapers; at bin 1 the first taper carries 10 and the second 1, at
    bin 2 both carry nothing. *)
Definition two_tapers : Z -> R -> Z -> Z -> list (list R) :=
  fun _ _ _ _ => [[1%R]; [1%R]].
Definition xp_peak : list (list C) :=
  [[(0, 0); (10, 0); (0, 0); (0, 0)]; [(1, 0); (1, 0); (0, 0); (1, 0)]]%R.
Definition fr_peak : list R := [0; 125; 250; 375]%R.
Definition peak_spectrum
    : list R -> list (list R) -> R -> list (list C) * list R :=
  fun _ _ _ => (xp_peak, fr_peak).

End Fixtures.

(** ** IIR filtering and the filtering functions of the interface
       ([_filtfilt], [_estimate_ringing_samples], [construct_iir_filter],
       [low_pass_filter], [high_pass_filter], [band_pass_filter],
       [band_stop_filter], [notch_filter]) *)

Module IIR.

(** The exceptions these functions add to those of [exn]. *)
Inductive error : Type :=
| RuntimeError (msg : string)
| TypeError
| KeyError (key : string)
| UnboundLocalError (name : string)
| Builtin (e : exn).

Inductive outcome (A : Type) : Type :=
| Returns (a : A)
| Raises (e : error).
Arguments Returns {A} a.
Arguments Raises {A} e.

Definition and_then {A B : Type} (r : outcome A) (k : A -> outcome B)
    : outcome B :=
  match r with
  | Returns a => k a
  | Raises e => Raises e
  end.

Notation "x <~ r ;; k" := (and_then r (fun x => k))
  (at level 61, r at next level, right associativity).

Definition of_result {A : Type} (r : result A) : outcome A :=
  match r with
  | Ok a => Returns a
  | Raise e => Raises (Builtin e)
  end.

(** What a call of a filtering function leaves behind: the caller's array
    after the call, the warnings, and the value returned or the exception. *)
Record call : Type :=
  Call { array : array2d; warnings : list warning; returned : outcome array2d }.

Definition of_run (r : run array2d) : call :=
  Call (mem r) (warned r) (of_result (ret r)).

(** The objects an [iir_params] dict holds. *)
Inductive value : Type :=
| VNone
| VInt (n : Z)
| VFloat (r : R)
| VStr (s : string)
| VArray (c : list R).

Definition is_none (v : value) : bool :=
  match v with
  | VNone => true
  | _ => false
  end.

(** A dict with string keys, as the list of its items; the first item of a
    key is the one in force. *)
Definition dict : Type := list (string * value).

Fixpoint lookup (key : string) (d : dict) : option value :=
  match d with
  | [] => None
  | (k, v) :: d' => if String.eqb key k then Some v else lookup key d'
  end.

(** [key in d], [d[key]] and [d.update(new)]. *)
Definition contains (key : string) (d : dict) : bool :=
  match lookup key d with
  | Some _ => true
  | None => false
  end.

Definition getkey (d : dict) (key : string) : outcome value :=
  match lookup key d with
  | Some v => Returns v
  | None => Raises (KeyError key)
  end.

Definition update (d new : dict) : dict := new ++ d.

(** [f_pass] and [f_stop]: a float, or a list of floats. *)
Inductive freqs : Type :=
| Scalar (f : R)
| Band (fs : list R).

(** [np.max(np.abs(h))] for a non-empty [h]. *)
Definition abs_max (h : list R) : R :=
  fold_right (fun v m => Rmax (Rabs v) m) 0%R h.

(** [np.where(c)[0][-1]]: the last index at which [c] holds. *)
Fixpoint last_index (c : R -> bool) (h : list R) (i : nat)
    (found : option nat) : option nat :=
  match h with
  | [] => found
  | v :: h' => last_index c h' (S i) (if c v then Some i else found)
  end.

(** [s.lower()] for a string of ASCII characters. *)
Definition lower_char (c : ascii) : ascii :=
  let n := nat_of_ascii c in
  if ((65 <=? n) && (n <=? 90))%nat then ascii_of_nat (n + 32) else c.

Fixpoint lower (s : string) : string :=
  match s with
  | EmptyString => EmptyString
  | String c s' => String (lower_char c) (lower s')
  end.

(** [method = method.lower()] and the test
    [if method not in ['fft', 'iir']: raise RuntimeError(...)]. *)
Definition check_method (method : string) : outcome string :=
  let method := lower method in
  if String.eqb method "fft" || String.eqb method "iir" then Returns method
  else Raises (RuntimeError "method should be fft or iir").

(** [np.diff(l)] and [l[order]]. *)
Fixpoint diff (l : list R) : list R :=
  match l with
  | a :: (b :: _) as t => (b - a)%R :: diff t
  | _ => []
  end.

Definition take (l : list R) (order : list nat) : list R :=
  map (fun i => nth i l 0%R) order.

(** The [notch_widths] argument of [notch_filter]: [None], a float, or an
    array of floats. *)
Inductive widths : Type :=
| NoWidths
| OneWidth (w : R)
| Widths (ws : list R).

(** Lines 952-955 of [notch_filter]. *)
Definition check_notch_method (method : string) : outcome string :=
  let method := lower method in
  if String.eqb method "fft" || String.eqb method "iir"
     || String.eqb method "spectrum_fit"
  then Returns method
  else Raises (RuntimeError "method should be fft, iir, or spectrum_fit").

(** Lines 964-975 of [notch_filter]: the widths, one for each item of
    [freqs]. *)
Definition notch_widths_of (freqs : list R) (notch_widths : widths)
    : outcome (list R) :=
  match notch_widths with
  | NoWidths => Returns (map (fun f => f / 200)%R freqs)
  | OneWidth w =>
      if Rlt_bool w 0 then
        Raises (Builtin (ValueError "notch_widths must be >= 0"))
      else Returns (map (fun _ => w * 1)%R freqs)
  | Widths ws =>
      if existsb (fun w => Rlt_bool w 0) ws then
        Raises (Builtin (ValueError "notch_widths must be >= 0"))
      else if (length ws =? 1)%nat then
        Returns (map (fun _ => nth 0 ws 0 * 1)%R freqs)
      else if negb (length ws =? length freqs)%nat then
        Raises (Builtin (ValueError
          "notch_widths must be None, scalar, or the same length as freqs"))
      else Returns ws
  end.

Section IIR.

(** The routines of [_filter]. *)
Variable fft : list R -> list C.
Variable fft_multiply_repeated : list C -> list R -> list R.
Variable firwin2 : Z -> list R -> list R -> result (list R).
Variable _filter_attenuation : list R -> list R -> list R -> R * R.

(** [scipy.signal.filter_dict] as the set of its keys, the array
    [np.asanyarray(f) / (float(sfreq) / 2)] of numpy (of a type [W] of its
    own: its items are not finite when [sfreq] is 0),
    [iirfilter(order, Wp, btype=btype, ftype=ftype)],
    [iirdesign(Wp, Ws, gpass, gstop, ftype=ftype)],
    [signal.lfilter(b, a, x)], [filtfilt(b, a, x, padlen=padlen)] of
    [mne.fixes], [min(padlen, n)] when [padlen] is not an [int], and
    [np.argsort]. *)
Variable filter_dict : string -> bool.
Variable W : Type.
Variable normalize : freqs -> R -> W.
Variable iirfilter
  : value -> W -> option string -> string -> outcome (list R * list R).
Variable iirdesign
  : W -> W -> value -> value -> string -> outcome (list R * list R).
Variable lfilter : value -> value -> list R -> outcome (list R).
Variable filtfilt : value -> value -> list R -> value -> result (list R).
Variable other_min : value -> Z -> outcome value.
Variable argsort : list R -> list nat.

(** [_filtfilt]. *)
Definition _filtfilt (x : array2d) (b a padlen : value)
    (picks : option (list Z)) (n_jobs : Z) (copy : bool) : run array2d :=
  let picks := match picks with
               | None => arange (shape0 x)
               | Some ps => ps
               end in
  match assign_rows n_jobs (fun r => filtfilt b a r padlen) picks x with
  | (x', Ok _) => Run (caller copy x x') [] (Ok x')
  | (x', Raise e) => Run (caller copy x x') [] (Raise e)
  end.

(** [_estimate_ringing_samples]: the impulse is [x = np.zeros(1000)] with
    [x[0] = 1]. *)
Definition _estimate_ringing_samples (b a : value) : outcome Z :=
  h <~ lfilter b a (1%R :: repeat 0%R 999) ;;
  match h with
  | [] => Raises (Builtin (ValueError "zero-size array to reduction operation"))
  | _ :: _ =>
      match last_index (fun v => Rgt_bool (Rabs v) (1 / 1000 * abs_max h)%R)
              h 0 None with
      | Some k => Returns (Z.of_nat k)
      | None => Raises (Builtin IndexError)
      end
  end.

(** [np.asanyarray(f) / (float(sfreq) / 2)] for arguments that may be
    [None]. *)
Definition normalized (f : option freqs) (sfreq : option R) : outcome W :=
  match f, sfreq with
  | Some f, Some sfreq => Returns (normalize f sfreq)
  | _, _ => Raises TypeError
  end.

(** [if not ftype in filter_dict: raise RuntimeError(...)]; an array is not
    hashable. *)
Definition known_ftype (ftype : value) : outcome string :=
  match ftype with
  | VStr s =>
      if filter_dict s then Returns s
      else Raises (RuntimeError "ftype must be in filter_dict from scipy.signal")
  | VArray _ => Raises TypeError
  | _ => Raises (RuntimeError "ftype must be in filter_dict from scipy.signal")
  end.

(** Lines 450-478: the coefficients [(b, a)]. *)
Definition coefficients (iir_params : dict) (f_pass f_stop : option freqs)
    (sfreq : option R) (btype : option string) : outcome (value * value) :=
  if contains "a" iir_params && contains "b" iir_params then
    b <~ getkey iir_params "b" ;;
    a <~ getkey iir_params "a" ;;
    Returns (b, a)
  else
    match lookup "ftype" iir_params with
    | None =>
        Raises (RuntimeError
          "ftype must be an entry in iir_params if b and a are not specified")
    | Some ftype =>
        ftype <~ known_ftype ftype ;;
        Wp <~ normalized f_pass sfreq ;;
        match lookup "order" iir_params with
        | Some order =>
            ba <~ iirfilter order Wp btype ftype ;;
            Returns (VArray (fst ba), VArray (snd ba))
        | None =>
            Ws <~ normalized f_stop sfreq ;;
            match lookup "gpass" iir_params, lookup "gstop" iir_params with
            | Some gpass, Some gstop =>
                ba <~ iirdesign Wp Ws gpass gstop ftype ;;
                Returns (VArray (fst ba), VArray (snd ba))
            | _, _ =>
                Raises (Builtin (ValueError
                  "iir_params must have at least gstop and gpass (or N) entries"))
            end
        end
    end.

(** [construct_iir_filter].  The first component is what the caller's
    [iir_params] dict holds after the call. *)
Definition construct_iir_filter (iir_params : dict)
    (f_pass f_stop : option freqs) (sfreq : option R)
    (btype : option string) (return_copy : bool) : dict * outcome dict :=
  match (ba <~ coefficients iir_params f_pass f_stop sfreq btype ;;
         let (b, a) := ba : value * value in
         if is_none a || is_none b then
           Raises (RuntimeError
             "coefficients could not be created from iir_params")
         else
           padlen <~ match lookup "padlen" iir_params with
                     | None => n <~ _estimate_ringing_samples b a ;;
                               Returns (VInt n)
                     | Some padlen => Returns padlen
                     end ;;
           Returns [("b", b); ("a", a); ("padlen", padlen)]%string) with
  | Raises e => (iir_params, Raises e)
  | Returns new =>
      let updated := update iir_params new in
      (if return_copy then iir_params else updated, Returns updated)
  end.

(** [min(iir_params['padlen'], len(x))]. *)
Definition min_padlen (padlen : value) (n : Z) : outcome value :=
  match padlen with
  | VInt m => Returns (VInt (Z.min m n))
  | _ => other_min padlen n
  end.

(** The [else] branch the four functions share:
    [iir_params = construct_iir_filter(iir_params, f_pass, f_stop, Fs, btype)],
    [padlen = min(iir_params['padlen'], len(x))],
    [xf = _filtfilt(x, iir_params['b'], iir_params['a'], padlen, ...)]. *)
Definition iir_branch (x : array2d) (iir_params : dict)
    (f_pass f_stop : freqs) (Fs : R) (btype : string)
    (picks : option (list Z)) (n_jobs : Z) (copy : bool) : call :=
  match (p <~ snd (construct_iir_filter iir_params (Some f_pass)
                     (Some f_stop) (Some Fs) (Some btype) true) ;;
         v <~ getkey p "padlen" ;;
         padlen <~ min_padlen v (Z.of_nat (shape0 x)) ;;
         b <~ getkey p "b" ;;
         a <~ getkey p "a" ;;
         Returns (b, a, padlen)) with
  | Raises e => Call x [] (Raises e)
  | Returns (b, a, padlen) => of_run (_filtfilt x b a padlen picks n_jobs copy)
  end.

Definition fft_branch (py : OverlapAdd.interpreter) (x : array2d) (Fs : R)
    (freq gain : list R) (filter_length : option Z)
    (picks : option (list Z)) (n_jobs : Z) (copy : bool) : call :=
  of_run (Filter._filter fft fft_multiply_repeated firwin2 _filter_attenuation
            py x Fs freq gain filter_length picks n_jobs copy).

(** [low_pass_filter]. *)
Definition low_pass_filter (py : OverlapAdd.interpreter) (x : array2d)
    (Fs Fp : R) (filter_length : option Z) (trans_bandwidth : R)
    (method : string) (iir_params : dict) (picks : option (list Z))
    (n_jobs : Z) (copy : bool) : call :=
  match check_method method with
  | Raises e => Call x [] (Raises e)
  | Returns method =>
      let Fstop := (Fp + trans_bandwidth)%R in
      if String.eqb method "fft" then
        fft_branch py x Fs [0; Fp; Fstop; Fs / 2]%R [1; 1; 0; 0]%R
          filter_length picks n_jobs copy
      else
        iir_branch x iir_params (Scalar Fp) (Scalar Fstop) Fs "low" picks
          n_jobs copy
  end.

(** [high_pass_filter]. *)
Definition high_pass_filter (py : OverlapAdd.interpreter) (x : array2d)
    (Fs Fp : R) (filter_length : option Z) (trans_bandwidth : R)
    (method : string) (iir_params : dict) (picks : option (list Z))
    (n_jobs : Z) (copy : bool) : call :=
  match check_method method with
  | Raises e => Call x [] (Raises e)
  | Returns method =>
      let Fstop := (Fp - trans_bandwidth)%R in
      if negb (Rgt_bool Fstop 0) then
        Call x [] (Raises (Builtin (ValueError
          "Filter specification invalid: Stop frequency too low")))
      else if String.eqb method "fft" then
        fft_branch py x Fs [0; Fstop; Fp; Fs / 2]%R [0; 0; 1; 1]%R
          filter_length picks n_jobs copy
      else
        iir_branch x iir_params (Scalar Fp) (Scalar Fstop) Fs "high" picks
          n_jobs copy
  end.

(** [band_pass_filter]. *)
Definition band_pass_filter (py : OverlapAdd.interpreter) (x : array2d)
    (Fs Fp1 Fp2 : R) (filter_length : option Z)
    (l_trans_bandwidth h_trans_bandwidth : R) (method : string)
    (iir_params : dict) (picks : option (list Z)) (n_jobs : Z) (copy : bool)
    : call :=
  match check_method method with
  | Raises e => Call x [] (Raises e)
  | Returns method =>
      let Fs1 := (Fp1 - l_trans_bandwidth)%R in
      let Fs2 := (Fp2 + h_trans_bandwidth)%R in
      if negb (Rgt_bool Fs1 0) then
        Call x [] (Raises (Builtin (ValueError
          "Filter specification invalid: Lower stop frequency too low")))
      else if String.eqb method "fft" then
        fft_branch py x Fs [0; Fs1; Fp1; Fp2; Fs2; Fs / 2]%R
          [0; 0; 1; 1; 0; 0]%R filter_length picks n_jobs copy
      else
        iir_branch x iir_params (Band [Fp1; Fp2]) (Band [Fs1; Fs2]) Fs
          "bandpass" picks n_jobs copy
  end.

(** The loop of [band_stop_filter] over
    [zip(Fp1, Fp2, Fs1, Fs2)]: every turn filters what the caller's array
    [x] holds then and binds [xf] anew. *)
Fixpoint stop_bands (iir_params : dict) (Fs : R)
    (picks : option (list Z)) (n_jobs : Z) (copy : bool)
    (bands : list ((R * R) * (R * R))) (x : array2d) (xf : option array2d)
    : call :=
  match bands with
  | [] =>
      Call x []
        (match xf with
         | Some y => Returns y
         | None => Raises (UnboundLocalError "xf")
         end)
  | (fp, fs) :: rest =>
      let c := iir_branch x iir_params (Band [fst fp; snd fp])
                 (Band [fst fs; snd fs]) Fs "bandstop" picks n_jobs copy in
      match returned c with
      | Returns y =>
          stop_bands iir_params Fs picks n_jobs copy rest (array c) (Some y)
      | Raises e => Call (array c) [] (Raises e)
      end
  end.

(** [band_stop_filter], for [Fp1] and [Fp2] as [np.atleast_1d] has them.
    The message of the lower stop frequency is formatted with
    ['%0.1f' % Fs1], which is a [TypeError] unless [Fs1] has one item. *)
Definition band_stop_filter (py : OverlapAdd.interpreter) (x : array2d)
    (Fs : R) (Fp1 Fp2 : list R) (filter_length : option Z)
    (l_trans_bandwidth h_trans_bandwidth : R) (method : string)
    (iir_params : dict) (picks : option (list Z)) (n_jobs : Z) (copy : bool)
    : call :=
  match check_method method with
  | Raises e => Call x [] (Raises e)
  | Returns method =>
      if negb (length Fp1 =? length Fp2)%nat then
        Call x [] (Raises (Builtin (ValueError
          "Fp1 and Fp2 must be the same length")))
      else
        let Fs1 := map (fun f => f + l_trans_bandwidth)%R Fp1 in
        let Fs2 := map (fun f => f - h_trans_bandwidth)%R Fp2 in
        if existsb (fun f => negb (Rgt_bool f 0)) Fs1 then
          Call x []
            (Raises (match Fs1 with
                     | [_] => Builtin (ValueError
                         "Filter specification invalid: Lower stop frequency too low")
                     | _ => TypeError
                     end))
        else if String.eqb method "fft" then
          let freq := (0 :: Fp1 ++ Fs1 ++ Fs2 ++ Fp2 ++ [Fs / 2])%R in
          let gain := (1 :: map (fun _ => 1) Fp1 ++ map (fun _ => 0) Fs1
                         ++ map (fun _ => 0) Fs2 ++ map (fun _ => 1) Fp2
                         ++ [1])%R in
          let order := argsort freq in
          let freq := take freq order in
          let gain := take gain order in
          if existsb (fun d => Rgt_bool (Rabs d) 1) (diff (diff gain)) then
            Call x [] (Raises (Builtin (ValueError
              "Stop bands are not sufficiently separated.")))
          else fft_branch py x Fs freq gain filter_length picks n_jobs copy
        else
          stop_bands iir_params Fs picks n_jobs copy
            (combine (combine Fp1 Fp2) (combine Fs1 Fs2)) x None
  end.

(** The routines of [_mt_spectrum_remove]. *)
Variable dpss_windows : Z -> R -> Z -> Z -> list (list R).
Variable _mt_spectra : list R -> list (list R) -> R -> list (list C) * list R.
Variable f_ppf : R -> Z -> Z -> option R.
Variable np_angle : C -> R.

(** [xf = _mt_spectrum_proc(x, Fs, freqs, notch_widths, ...)]: the call,
    and what the array handed over as [notch_widths] holds afterwards. *)
Definition spectrum_fit_branch (x : array2d) (Fs : R)
    (line_freqs : option (list R)) (notch_widths : list R)
    (mt_bandwidth : option R) (p_value : R) (picks : option (list Z))
    (n_jobs : Z) (copy : bool) : call * list R :=
  let r := MtSpectrum._mt_spectrum_proc dpss_windows _mt_spectra f_ppf
             np_angle x Fs line_freqs notch_widths mt_bandwidth p_value
             picks n_jobs copy in
  (Call (mem (fst r)) (warned (fst r))
     (match ret (fst r) with
      | Ok (xf, _) => Returns xf
      | Raise e => Raises (Builtin e)
      end),
   snd r).

(** Whether the array that lines 964-975 leave in [notch_widths] is the
    caller's own: [np.atleast_1d] returns its argument when that is an
    array, and only a single-item array is then replaced by a new one
    ([notch_widths[0] * np.ones_like(freqs)]).  [None] and a float give a
    new array. *)
Definition handed_over (notch_widths : widths) : bool :=
  match notch_widths with
  | Widths ws => negb (length ws =? 1)%nat
  | _ => false
  end.

(** [notch_filter], for [freqs] as [np.atleast_1d] has it.  With
    [freqs=None] the widths are not looked at.  The second component is
    what the caller's [notch_widths] argument holds when the call is over:
    lines 964-975 rebind the local name only, the array is written by
    [_mt_spectrum_remove] (line 1106) alone. *)
Definition notch_filter (py : OverlapAdd.interpreter) (x : array2d) (Fs : R)
    (freqs : option (list R)) (filter_length : option Z)
    (notch_widths : widths) (trans_bandwidth : R) (method : string)
    (iir_params : dict) (mt_bandwidth : option R) (p_value : R)
    (picks : option (list Z)) (n_jobs : Z) (copy : bool) : call * widths :=
  match check_notch_method method with
  | Raises e => (Call x [] (Raises e), notch_widths)
  | Returns method =>
      match freqs with
      | None =>
          if negb (String.eqb method "spectrum_fit") then
            (Call x [] (Raises (Builtin (ValueError
               "freqs=None can only be used with method spectrum_fit"))),
             notch_widths)
          else
            let r := spectrum_fit_branch x Fs None
                       (match notch_widths with
                        | NoWidths => []
                        | OneWidth w => [w]
                        | Widths ws => ws
                        end) mt_bandwidth p_value picks n_jobs copy in
            (fst r,
             match notch_widths with
             | Widths _ => Widths (snd r)
             | _ => notch_widths
             end)
      | Some freqs =>
          match notch_widths_of freqs notch_widths with
          | Raises e => (Call x [] (Raises e), notch_widths)
          | Returns nw =>
              if String.eqb method "fft" || String.eqb method "iir" then
                let tb_2 := (trans_bandwidth / 2)%R in
                let lows := map (fun fw => fst fw - snd fw / 2 - tb_2)%R
                              (combine freqs nw) in
                let highs := map (fun fw => fst fw + snd fw / 2 + tb_2)%R
                               (combine freqs nw) in
                (band_stop_filter py x Fs lows highs filter_length tb_2 tb_2
                   method iir_params picks n_jobs copy,
                 notch_widths)
              else
                let r := spectrum_fit_branch x Fs (Some freqs) nw
                           mt_bandwidth p_value picks n_jobs copy in
                (fst r,
                 if handed_over notch_widths then Widths (snd r)
                 else notch_widths)
          end
      end
  end.

End IIR.

(** Small instances of the external routines, for concrete runs. *)
Definition butter_only : string -> bool := fun s => String.eqb s "butter".
Definition plain_normalize : freqs -> R -> freqs := fun f _ => f.
Definition unit_iirfilter
    : value -> freqs -> option string -> string -> outcome (list R * list R) :=
  fun _ _ _ _ => Returns ([1%R], [1%R]).
Definition unit_iirdesign
    : freqs -> freqs -> value -> value -> string -> outcome (list R * list R) :=
  fun _ _ _ _ _ => Returns ([1%R], [1%R]).
Definition echo_lfilter : value -> value -> list R -> outcome (list R) :=
  fun _ _ x => Returns x.
Definition short_lfilter : value -> value -> list R -> outcome (list R) :=
  fun _ _ _ => Returns [1; 0]%R.
Definition echo_filtfilt : value -> value -> list R -> value -> result (list R) :=
  fun _ _ x _ => Ok x.
Definition negate_filtfilt
    : value -> value -> list R -> value -> result (list R) :=
  fun _ _ x _ => Ok (map Ropp x).
Definition no_other_min : value -> Z -> outcome value :=
  fun _ _ => Raises TypeError.
Definition no_argsort : list R -> list nat := fun l => seq 0 (length l).
Definition odd_kernels : Z -> list R -> list R -> result (list R) :=
  fun N _ _ => if Z.odd N then Ok [1%R] else Raise (ValueError "even").
Definition even_kernels : Z -> list R -> list R -> result (list R) :=
  fun N _ _ => if Z.even N then Ok [1%R] else Raise (ValueError "odd").

End IIR.

(** * Properties *)

(** ** Comparisons of reals *)

Lemma Req_bool_true (a b : R) : Req_bool a b = true <-> a = b.
Proof.
  unfold Req_bool. destruct (Req_dec_T a b); split; congruence.
Qed.

Lemma Req_bool_false (a b : R) : Req_bool a b = false <-> a <> b.
Proof.
  unfold Req_bool. destruct (Req_dec_T a b); split; congruence.
Qed.

Lemma Rgt_bool_true (a b : R) : Rgt_bool a b = true <-> (b < a)%R.
Proof.
  unfold Rgt_bool. destruct (Rlt_dec b a); split; intros; try easy.
Qed.

Lemma Rgt_bool_false (a b : R) : Rgt_bool a b = false <-> (a <= b)%R.
Proof.
  unfold Rgt_bool. destruct (Rlt_dec b a); split; intros; try easy; lra.
Qed.

Lemma Rlt_bool_true (a b : R) : Rlt_bool a b = true <-> (a < b)%R.
Proof.
  unfold Rlt_bool. destruct (Rlt_dec a b); split; intros; try easy.
Qed.

Lemma Rlt_bool_false (a b : R) : Rlt_bool a b = false <-> (b <= a)%R.
Proof.
  unfold Rlt_bool. destruct (Rlt_dec a b); split; intros; try easy; lra.
Qed.

(** Settles every comparison of real constants in the goal. *)
Ltac settle_reals :=
  repeat match goal with
  | |- context [Req_bool ?a ?b] =>
      first [ rewrite (proj2 (Req_bool_true a b)) by lra
            | rewrite (proj2 (Req_bool_false a b)) by lra ]
  | |- context [Rgt_bool ?a ?b] =>
      first [ rewrite (proj2 (Rgt_bool_true a b)) by lra
            | rewrite (proj2 (Rgt_bool_false a b)) by lra ]
  | |- context [Rlt_bool ?a ?b] =>
      first [ rewrite (proj2 (Rlt_bool_true a b)) by lra
            | rewrite (proj2 (Rlt_bool_false a b)) by lra ]
  end.

(** ** Kernel length *)

Lemma normalize_freq_ok (Fs : R) (freq : list R) :
  Fs <> 0%R ->
  Filter.normalize_freq Fs freq = Ok (map (fun f => f / (Fs / 2))%R freq).
Proof.
  intros HFs. unfold Filter.normalize_freq.
  destruct freq as [|f freq]; [reflexivity|].
  now rewrite (proj2 (Req_bool_false (Fs / 2) 0)) by lra.
Qed.

Module KernelLengthFacts.

Import KernelLength.

Lemma needs_extra_sample_gain1 (n : Z) :
  needs_extra_sample 1 n = negb (n mod 2 =? 1).
Proof.
  unfold needs_extra_sample. settle_reals. reflexivity.
Qed.

Lemma needs_extra_sample_gain0 (n : Z) :
  needs_extra_sample 0 n = (n mod 2 =? 1).
Proof.
  unfold needs_extra_sample. settle_reals.
  cbn. now rewrite orb_false_r.
Qed.

Lemma odd_of_mod (n : Z) : Z.odd n = (n mod 2 =? 1).
Proof.
  rewrite Zmod_odd. now destruct (Z.odd n).
Qed.

Lemma adjusted_gain1 (n : Z) :
  Z.odd (if needs_extra_sample 1 n then n + 1 else n) = true.
Proof.
  rewrite needs_extra_sample_gain1, <- odd_of_mod.
  destruct (Z.odd n) eqn:E; cbn; [assumption|].
  now rewrite Z.odd_add, E.
Qed.

Lemma adjusted_gain0 (n : Z) :
  Z.even (if needs_extra_sample 0 n then n + 1 else n) = true.
Proof.
  rewrite needs_extra_sample_gain0, <- odd_of_mod.
  destruct (Z.odd n) eqn:E; cbn.
  - now rewrite Z.even_add, <- Z.negb_odd, E.
  - now rewrite <- Z.negb_odd, E.
Qed.

Lemma kernel_length_unfold (filter_length : option Z) (n_times : Z)
    (gain_last : R) :
  kernel_length filter_length n_times gain_last =
  let n := natural_length filter_length n_times in
  if needs_extra_sample gain_last n then n + 1 else n.
Proof.
  unfold kernel_length, natural_length, direct_N, direct_extend_x, overlap_N.
  destruct filter_length as [fl|].
  - destruct (n_times <=? fl); cbn;
      match goal with |- context [needs_extra_sample ?g ?n] =>
        destruct (needs_extra_sample g n) end; lia.
  - cbn. destruct (needs_extra_sample gain_last n_times); lia.
Qed.

(** [kernel_length] is the length [_filter] designs with: when [firwin2]
    refuses that length, the call ends there. *)
Lemma filter_designs_with_kernel_length
    (fft : list R -> list C)
    (fft_multiply_repeated : list C -> list R -> list R)
    (firwin2 : Z -> list R -> list R -> result (list R))
    (_filter_attenuation : list R -> list R -> list R -> R * R)
    (py : OverlapAdd.interpreter) (x : array2d) (Fs : R)
    (freq gain : list R) (filter_length : option Z)
    (picks : option (list Z)) (n_jobs : Z) (copy : bool) (gain_last : R)
    (e : exn) :
  Fs <> 0%R ->
  getitem gain (-1) = Ok gain_last ->
  firwin2 (kernel_length filter_length (Z.of_nat (shape1 x)) gain_last)
    (map (fun f => f / (Fs / 2))%R freq) gain = Raise e ->
  Filter._filter fft fft_multiply_repeated firwin2 _filter_attenuation py x
    Fs freq gain filter_length picks n_jobs copy
  = Run x [] (Raise e).
Proof.
  intros HFs Hgain Hfir. unfold Filter._filter.
  rewrite normalize_freq_ok by assumption. rewrite Hgain.
  unfold kernel_length in Hfir.
  destruct filter_length as [fl|].
  - destruct (Z.of_nat (shape1 x) <=? fl).
    + unfold Filter.direct_branch. now rewrite Hfir.
    + unfold Filter.overlap_branch. now rewrite Hfir.
  - unfold Filter.direct_branch. now rewrite Hfir.
Qed.

(** C1 does not hold of the code.  In either branch [_filter] asks
    [firwin2] for one kernel, of a length [N] that is the natural length
    (the signal length in the direct branch, [filter_length] in the
    overlap-add branch) or one sample more; the call raises what [firwin2]
    raises for that length, and two design routines that agree on it give
    the same call.  That [N] is odd when the gain at the Nyquist frequency
    is 1 and even when it is 0: the reverse of the parity of the claim and
    of the comments beside the two guards ("1: make N EVEN, 0: make N
    ODD"). *)
Theorem filter_kernel_parity_is_reversed
    (fft : list R -> list C)
    (fft_multiply_repeated : list C -> list R -> list R)
    (_filter_attenuation : list R -> list R -> list R -> R * R)
    (py : OverlapAdd.interpreter) (x : array2d) (Fs : R)
    (freq gain : list R) (filter_length : option Z)
    (picks : option (list Z)) (n_jobs : Z) (copy : bool) (gain_last : R) :
  Fs <> 0%R ->
  getitem gain (-1) = Ok gain_last ->
  exists N,
    (N = natural_length filter_length (Z.of_nat (shape1 x))
     \/ N = natural_length filter_length (Z.of_nat (shape1 x)) + 1)
    /\ (gain_last = 1%R -> Z.odd N = true)
    /\ (gain_last = 0%R -> Z.even N = true)
    /\ (forall firwin2 e,
          firwin2 N (map (fun f => f / (Fs / 2))%R freq) gain = Raise e ->
          Filter._filter fft fft_multiply_repeated firwin2
            _filter_attenuation py x Fs freq gain filter_length picks n_jobs
            copy
          = Run x [] (Raise e))
    /\ (forall firwin2 firwin2',
          firwin2 N (map (fun f => f / (Fs / 2))%R freq) gain
          = firwin2' N (map (fun f => f / (Fs / 2))%R freq) gain ->
          Filter._filter fft fft_multiply_repeated firwin2
            _filter_attenuation py x Fs freq gain filter_length picks n_jobs
            copy
          = Filter._filter fft fft_multiply_repeated firwin2'
              _filter_attenuation py x Fs freq gain filter_length picks
              n_jobs copy).
Proof.
  intros HFs Hgain.
  exists (kernel_length filter_length (Z.of_nat (shape1 x)) gain_last).
  split; [|split; [|split; [|split]]].
  - rewrite kernel_length_unfold. cbv zeta.
    destruct (needs_extra_sample _ _); auto.
  - intros ->. rewrite kernel_length_unfold. apply adjusted_gain1.
  - intros ->. rewrite kernel_length_unfold. apply adjusted_gain0.
  - intros firwin2 e Hfir.
    now apply filter_designs_with_kernel_length with (gain_last := gain_last).
  - intros firwin2 firwin2' Hagree. unfold Filter._filter.
    rewrite normalize_freq_ok by assumption. rewrite Hgain.
    unfold kernel_length in Hagree.
    destruct filter_length as [fl|];
      [destruct (Z.of_nat (shape1 x) <=? fl)|];
      unfold Filter.direct_branch, Filter.overlap_branch;
      now rewrite Hagree.
Qed.

Lemma filter_kernel_parity_is_reversed_witness :
  100%R <> 0%R
  /\ getitem [0; 0; 1; 1]%R (-1) = Ok 1%R
  /\ exists N,
       (N = 4 \/ N = 4 + 1)
       /\ Z.odd N = true
       /\ forall firwin2 e,
            firwin2 N (map (fun f => f / (100 / 2))%R [0; 10; 20; 50]%R)
              [0; 0; 1; 1]%R = Raise e ->
            Filter._filter Fixtures.plain_fft Fixtures.pass_through firwin2
              Fixtures.good_attenuation OverlapAdd.Python3
              (Array2d 4 [[1; 2; 3; 4]]%R) 100 [0; 10; 20; 50]%R
              [0; 0; 1; 1]%R None None 1 true
            = Run (Array2d 4 [[1; 2; 3; 4]]%R) [] (Raise e).
Proof.
  assert (H1 : 100%R <> 0%R) by lra.
  assert (H2 : getitem [0; 0; 1; 1]%R (-1) = Ok 1%R) by reflexivity.
  split; [exact H1|]. split; [exact H2|].
  destruct (filter_kernel_parity_is_reversed Fixtures.plain_fft
              Fixtures.pass_through Fixtures.good_attenuation
              OverlapAdd.Python3 (Array2d 4 [[1; 2; 3; 4]]%R) 100%R
              [0; 10; 20; 50]%R [0; 0; 1; 1]%R None None 1 true 1%R H1 H2)
    as (N & HN & Hodd & _ & Hraise & _).
  exists N. split; [exact HN|]. split; [exact (Hodd eq_refl)|exact Hraise].
Defined.

(** C1 as stated fails on [_filter]: for a high-pass design
    ([gain[-1] = 1]) on channels of 4 samples, a design routine that
    accepts the parity of the claim (an even number of taps) and no other
    is asked for 5 taps and refuses; for a low-pass design
    ([gain[-1] = 0]) on channels of 5 samples, a routine that accepts an
    odd number of taps only is asked for 6. *)
Lemma filter_refuses_the_claimed_parity :
  Filter._filter Fixtures.plain_fft Fixtures.pass_through IIR.even_kernels
    Fixtures.good_attenuation OverlapAdd.Python3
    (Array2d 4 [[1; 2; 3; 4]]%R) 100 [0; 10; 20; 50]%R [0; 0; 1; 1]%R
    None None 1 true
  = Run (Array2d 4 [[1; 2; 3; 4]]%R) [] (Raise (ValueError "odd"))
  /\ Filter._filter Fixtures.plain_fft Fixtures.pass_through IIR.odd_kernels
       Fixtures.good_attenuation OverlapAdd.Python3
       (Array2d 5 [[1; 2; 3; 4; 5]]%R) 100 [0; 10; 20; 50]%R
       [1; 1; 0; 0]%R None None 1 true
     = Run (Array2d 5 [[1; 2; 3; 4; 5]]%R) [] (Raise (ValueError "even")).
Proof.
  split.
  - apply filter_designs_with_kernel_length with (gain_last := 1%R);
      [lra|reflexivity|].
    unfold kernel_length, direct_N, direct_extend_x.
    rewrite needs_extra_sample_gain1. reflexivity.
  - apply filter_designs_with_kernel_length with (gain_last := 0%R);
      [lra|reflexivity|].
    unfold kernel_length, direct_N, direct_extend_x.
    rewrite needs_extra_sample_gain0. reflexivity.
Qed.

End KernelLengthFacts.

(** ** The segment planner and the FFT-size checks *)

Module PlannerFacts.

Import OverlapAdd AsSpecified.

Lemma first_min_in (f : Z -> Z) (l : list Z) (best : Z) :
  In (first_min f best l) (best :: l).
Proof.
  revert best. induction l as [|k l IH]; intros best; cbn.
  - now left.
  - destruct (IH (if f k <? f best then k else best)) as [E|E].
    + rewrite <- E. destruct (f k <? f best); auto.
    + auto.
Qed.

Lemma first_min_le_best (f : Z -> Z) (l : list Z) (best : Z) :
  f (first_min f best l) <= f best.
Proof.
  revert best. induction l as [|k l IH]; intros best; cbn.
  - lia.
  - specialize (IH (if f k <? f best then k else best)).
    destruct (Z.ltb_spec (f k) (f best)); lia.
Qed.

Lemma first_min_le (f : Z -> Z) (l : list Z) (best x : Z) :
  In x (best :: l) -> f (first_min f best l) <= f x.
Proof.
  revert best. induction l as [|k l IH]; intros best [E|E]; cbn.
  - subst. lia.
  - destruct E.
  - subst.
    pose proof (first_min_le_best f l (if f k <? f x then k else x)).
    destruct (Z.ltb_spec (f k) (f x)); lia.
  - destruct E as [E|E].
    + subst.
      pose proof (first_min_le_best f l (if f x <? f best then x else best)).
      destruct (Z.ltb_spec (f x) (f best)); lia.
    + apply IH. now right.
Qed.

Lemma in_exponents (n_h n_tot k : Z) :
  In k (exponents n_h n_tot) <-> Z.log2_up n_h <= k < Z.log2 n_tot.
Proof.
  unfold exponents. rewrite in_map_iff. split.
  - intros (i & <- & Hi). apply in_seq in Hi. lia.
  - intros Hk. exists (Z.to_nat (k - Z.log2_up n_h)). split; [lia|].
    apply in_seq. lia.
Qed.

Lemma argmin_spec (f : Z -> Z) (l : list Z) :
  l <> [] ->
  exists k, argmin f l = Some k /\ In k l /\ forall k', In k' l -> f k <= f k'.
Proof.
  destruct l as [|b l]; [congruence|]. intros _.
  exists (first_min f b l). split; [reflexivity|]. split.
  - apply first_min_in.
  - intros k'. apply first_min_le.
Qed.

(** What the planner computes: for a kernel of at least one tap, when no FFT
    size is given and the extended signal is longer than the kernel, the
    planner takes a power of two [2 ^ k] with
    [ceil(log2 n_h) <= k < floor(log2 n_tot)] (the upper end is left out)
    whose cost, as the interpreter computes it, is least among these sizes;
    under Python 3 that cost is the specified
    [ceil(n_tot/(N - n_h + 1)) * N * (log2 N + 1)].  Whenever the extended
    signal is not longer than the kernel, so whenever [n_tot <= n_h], it
    takes the single block [2 ^ ceil(log2 (n_x + n_h - 1))]. *)
Lemma choose_n_fft_planned (py : interpreter) (n_h n_x : Z)
    (zero_phase : bool) :
  1 <= n_h ->
  let n_tot := if zero_phase then 2 * n_x else n_x in
  (n_h < n_x -> Z.log2_up n_h < Z.log2 n_tot ->
     exists k, choose_n_fft py n_h n_x zero_phase = Ok (2 ^ k)
       /\ Z.log2_up n_h <= k < Z.log2 n_tot
       /\ forall k', Z.log2_up n_h <= k' < Z.log2 n_tot ->
            cost py n_tot n_h k <= cost py n_tot n_h k')
  /\ (forall k, cost Python3 n_tot n_h k = specified_cost n_tot n_h k)
  /\ (1 <= n_x -> n_x <= n_h ->
        choose_n_fft py n_h n_x zero_phase
          = Ok (2 ^ Z.log2_up (n_x + n_h - 1)))
  /\ (1 <= n_x -> n_tot <= n_h -> n_x <= n_h).
Proof.
  intros Hh n_tot. repeat split.
  - intros Hx Hrange. unfold choose_n_fft. fold n_tot.
    destruct (Z.ltb_spec n_h n_x); [|lia].
    destruct (Z.leb_spec n_h 0); [lia|].
    destruct (argmin_spec (cost py n_tot n_h) (exponents n_h n_tot))
      as (k & -> & Hin & Hmin).
    + intros E.
      assert (Hk : In (Z.log2_up n_h) (exponents n_h n_tot))
        by (apply in_exponents; lia).
      rewrite E in Hk. destruct Hk.
    + exists k. split; [reflexivity|]. split.
      * now apply in_exponents.
      * intros k' Hk'. apply Hmin. now apply in_exponents.
  - intros Hx Hle. unfold choose_n_fft.
    destruct (Z.ltb_spec n_h n_x); [lia|].
    destruct (Z.ltb_spec (n_x + n_h - 1) 0); [lia|].
    destruct (Z.eqb_spec (n_x + n_h - 1) 0); [lia|]. reflexivity.
  - intros Hx. subst n_tot. destruct zero_phase; lia.
Qed.

Lemma choose_n_fft_planned_witness :
  1 <= 4
  /\ (exists k, choose_n_fft Python3 4 13 true = Ok (2 ^ k)
        /\ Z.log2_up 4 <= k < Z.log2 26
        /\ forall k', Z.log2_up 4 <= k' < Z.log2 26 ->
             cost Python3 26 4 k <= cost Python3 26 4 k')
  /\ choose_n_fft Python3 4 2 true = Ok (2 ^ Z.log2_up (2 + 4 - 1)).
Proof.
  assert (H : 1 <= 4) by lia.
  split; [exact H|]. split.
  - apply (proj1 (choose_n_fft_planned Python3 4 13 true H)).
    + lia.
    + vm_compute. reflexivity.
  - apply (proj1 (proj2 (proj2 (choose_n_fft_planned Python3 4 2 true H))));
      lia.
Defined.

Lemma pow2_eq_4 (k : Z) : 2 <= k <= 3 -> 4 = 2 ^ k -> k = 2.
Proof.
  intros Hk E. assert (D : k = 2 \/ k = 3) by lia.
  destruct D as [->| ->]; [reflexivity|]. discriminate E.
Qed.

(** For a kernel of 4 taps and an extended signal of 7 samples filtered
    zero-phase ([n_tot = 14]) the planner takes [N = 4] under either
    interpreter, while [N = 8], whose [log2] is [floor(log2 14) = 3], costs
    96 against 168. *)
Lemma choose_n_fft_not_as_specified :
  choose_n_fft Python2 4 7 true = Ok 4
  /\ choose_n_fft Python3 4 7 true = Ok 4
  /\ ~ specified_choice 4 7 true 4.
Proof.
  split; [reflexivity|]. split; [reflexivity|].
  intros (k & Hk & Hrange & Hmin).
  change (Z.log2_up 4) with 2 in *. change (Z.log2 (2 * 7)) with 3 in *.
  apply pow2_eq_4 in Hk; [|assumption]. subst k.
  specialize (Hmin 3 ltac:(lia)).
  vm_compute in Hmin. apply Hmin. reflexivity.
Qed.

Lemma pow2_eq_4' (k : Z) : 1 <= k <= 3 -> 4 = 2 ^ k -> k = 2.
Proof.
  intros Hk E. assert (D : k = 1 \/ k = 2 \/ k = 3) by lia.
  destruct D as [->|[->| ->]]; [discriminate E|reflexivity|discriminate E].
Qed.

Lemma floored_cost_is_not_the_specified_one : ~ specified_choice 2 4 true 4.
Proof.
  intros (k & Hk & Hrange & Hmin).
  change (Z.log2_up 2) with 1 in *. change (Z.log2 (2 * 4)) with 3 in *.
  apply pow2_eq_4' in Hk; [|assumption]. subst k.
  specialize (Hmin 1 ltac:(lia)).
  vm_compute in Hmin. apply Hmin. reflexivity.
Qed.

(** C5 does not hold of the code, in two ways.  The candidate sizes come
    from [np.arange], which leaves out its stop value
    [floor(log2 n_tot)]: for a kernel of 4 taps on channels of 3 samples
    (extended length 7, [n_tot = 14], zero-phase) the plan has [N = 4]
    under either interpreter, while [N = 8] is in the specified range and
    costs 96 against 168.  And [n_tot / (N - n_h + 1)] divides two
    integers before [np.ceil] sees the quotient: for a kernel of 2 taps on
    channels of 2 samples (extended length 4, [n_tot = 8]) the plan has
    [N = 4] under Python 2, where [8 / 3] is 2 and the cost comes out as
    24, while the specified cost of [N = 4] is 36 against 32 for [N = 2],
    which is the size planned under Python 3. *)
Theorem automatic_n_fft_is_not_the_specified_choice
    (fft : list R -> list C) :
  (forall py, exists pl,
     prepare fft py (Array2d 3 [[1; 2; 3]]%R) [1; 1; 1; 1]%R None true
     = ([], Ok pl)
     /\ plan_n_fft pl = 4)
  /\ ~ specified_choice 4 7 true 4
  /\ (exists pl,
        prepare fft Python2 (Array2d 2 [[1; 2]]%R) [1; 1]%R None true
        = ([], Ok pl)
        /\ plan_n_fft pl = 4)
  /\ (exists pl,
        prepare fft Python3 (Array2d 2 [[1; 2]]%R) [1; 1]%R None true
        = ([], Ok pl)
        /\ plan_n_fft pl = 2)
  /\ ~ specified_choice 2 4 true 4.
Proof.
  split; [|split; [|split; [|split]]].
  - intros [|]; eexists; split; reflexivity.
  - apply choose_n_fft_not_as_specified.
  - eexists. split; reflexivity.
  - eexists. split; reflexivity.
  - exact floored_cost_is_not_the_specified_one.
Qed.

Section Checks.

Variable fft : list R -> list C.
Variable fft_multiply_repeated : list C -> list R -> list R.

(** C3: a requested FFT size shorter than the kernel ends the call with a
    [ValueError] (the explicit test for [n_fft <= 0], otherwise the padding
    [np.zeros(n_fft - n_h)] of negative length), and the array is as it was
    passed: no row has been filtered or written. *)
Theorem short_n_fft_is_refused (py : interpreter) (x : array2d)
    (h : list R) (n_fft : Z) (zero_phase : bool) (picks : option (list Z))
    (n_jobs : Z) :
  n_fft < len h ->
  exists w msg,
    _overlap_add_filter fft fft_multiply_repeated py x h (Some n_fft)
      zero_phase picks n_jobs
    = Run x w (Raise (ValueError msg)).
Proof.
  intros Hshort. unfold _overlap_add_filter, prepare.
  destruct (Z.leb_spec n_fft 0).
  - eexists _, _. reflexivity.
  - unfold np_zeros. destruct (Z.ltb_spec (n_fft - len h) 0); [|lia].
    eexists _, _. reflexivity.
Qed.

End Checks.

Lemma short_n_fft_is_refused_witness :
  3 < len [1; 2; 3; 4]%R
  /\ exists w msg,
       _overlap_add_filter Fixtures.plain_fft Fixtures.pass_through Python3
         (Array2d 2 [[1; 2]; [3; 4]]%R) [1; 2; 3; 4]%R (Some 3) true None 1
       = Run (Array2d 2 [[1; 2]; [3; 4]]%R) w (Raise (ValueError msg)).
Proof.
  assert (H : 3 < len [1; 2; 3; 4]%R) by (cbn; lia).
  split; [exact H|].
  exact (short_n_fft_is_refused _ _ Python3 _ _ 3 true None 1 H).
Defined.

End PlannerFacts.

(** ** Zero-phase scaling of the kernel spectrum *)

Module SpectrumFacts.

Import OverlapAdd.

Open Scope R_scope.

Lemma Cabs_sq (z : C) : Cabs z * Cabs z = fst z * fst z + snd z * snd z.
Proof.
  unfold Cabs. apply sqrt_sqrt. nra.
Qed.

Lemma Cabs_nonneg (z : C) : 0 <= Cabs z.
Proof.
  unfold Cabs. apply sqrt_pos.
Qed.

Lemma Cabs_zero : Cabs (0, 0) = 0.
Proof.
  unfold Cabs. cbn. replace (0 * 0 + 0 * 0) with 0 by lra. apply sqrt_0.
Qed.

Lemma scale_bin_zero : scale_bin (0, 0) = (0, 0).
Proof.
  unfold scale_bin. rewrite Cabs_zero.
  now rewrite (proj2 (Rgt_bool_false 0 (1 / 1000000))) by lra.
Qed.

Lemma scale_bin_large (H : C) :
  1 / 1000000 < Cabs H -> scale_bin H = Cdiv_real H (sqrt (Cabs H)).
Proof.
  intros HH. unfold scale_bin.
  now rewrite (proj2 (Rgt_bool_true _ _)) by assumption.
Qed.

Lemma scale_bin_small (H : C) : Cabs H <= 1 / 1000000 -> scale_bin H = H.
Proof.
  intros HH. unfold scale_bin.
  now rewrite (proj2 (Rgt_bool_false _ _)) by assumption.
Qed.

Lemma squared_magnitude_after_division (H : C) :
  0 < Cabs H ->
  Cabs (Cdiv_real H (sqrt (Cabs H))) * Cabs (Cdiv_real H (sqrt (Cabs H)))
  = Cabs H.
Proof.
  intros Hpos. rewrite Cabs_sq. unfold Cdiv_real. cbn [fst snd].
  assert (Hs : sqrt (Cabs H) * sqrt (Cabs H) = Cabs H)
    by (apply sqrt_sqrt; lra).
  assert (Hs0 : sqrt (Cabs H) <> 0).
  { intros E. rewrite E in Hs. lra. }
  pose proof (Cabs_sq H) as Hsq.
  replace (fst H / sqrt (Cabs H) * (fst H / sqrt (Cabs H))
           + snd H / sqrt (Cabs H) * (snd H / sqrt (Cabs H)))
    with ((fst H * fst H + snd H * snd H) / (sqrt (Cabs H) * sqrt (Cabs H)))
    by (field; assumption).
  rewrite Hs, <- Hsq. field. lra.
Qed.

(** The scaling of lines 115-116, bin by bin (arithmetic on reals). *)
Lemma zero_phase_scale_nth (h_fft : list C) (k : nat) :
  let H := nth k h_fft (0, 0) in
  let H' := nth k (zero_phase_scale h_fft) (0, 0) in
  (1 / 1000000 < Cabs H ->
     H' = Cdiv_real H (sqrt (Cabs H)) /\ Cabs H' * Cabs H' = Cabs H)
  /\ (Cabs H <= 1 / 1000000 -> H' = H).
Proof.
  intros H H'.
  assert (E : H' = scale_bin H).
  { subst H H'. unfold zero_phase_scale.
    rewrite <- scale_bin_zero at 1. apply map_nth. }
  split.
  - intros Hlarge. rewrite E, scale_bin_large by assumption. split.
    + reflexivity.
    + apply squared_magnitude_after_division. lra.
  - intros Hsmall. rewrite E. now apply scale_bin_small.
Qed.

(** The spectrum the zero-phase engine stores is the scaled transform of
    the zero-padded kernel. *)
Lemma prepare_stores_scaled_spectrum (fft : list R -> list C)
    (py : interpreter) (x : array2d) (h : list R) (n_fft : option Z)
    (w : list warning) (pl : plan) :
  prepare fft py x h n_fft true = (w, Ok pl) ->
  exists pad, np_zeros (plan_n_fft pl - len h)%Z = Ok pad
    /\ plan_h_fft pl = zero_phase_scale (fft (h ++ pad)).
Proof.
  unfold prepare.
  destruct (match n_fft with
            | Some n => Ok n
            | None => _
            end) as [n|e]; [|discriminate].
  destruct (n <=? 0)%Z; [discriminate|].
  destruct (np_zeros (n - len h)%Z) as [pad|e] eqn:Epad; [|discriminate].
  intros [= <- <-]. cbn. exists pad. split; [assumption|reflexivity].
Qed.

Lemma zero_phase_scale_length (h_fft : list C) :
  length (zero_phase_scale h_fft) = length h_fft.
Proof.
  apply length_map.
Qed.

(** C8: in zero-phase mode the spectrum [_overlap_add_filter] stores, and
    filters every picked row with in both passes, has as many bins as the
    transform of the zero-padded kernel, and bin by bin: where the
    designed bin [H] has [|H| > 1e-6] the stored bin is [H / sqrt |H|],
    whose squared magnitude is the designed [|H|]; where [|H| <= 1e-6] the
    stored bin is [H] itself.  Without zero-phase the stored spectrum is
    the transform as it is (arithmetic on reals). *)
Theorem zero_phase_stores_scaled_bins (fft : list R -> list C)
    (fft_multiply_repeated : list C -> list R -> list R)
    (py : interpreter) (x : array2d) (h : list R) (n_fft : option Z)
    (picks : option (list Z)) (n_jobs : Z) (w : list warning) (pl : plan)
    (k : nat) :
  prepare fft py x h n_fft true = (w, Ok pl) ->
  let designed :=
    fft (h ++ repeat 0 (Z.to_nat (plan_n_fft pl - len h))) in
  let H := nth k designed (0, 0) in
  let H' := nth k (plan_h_fft pl) (0, 0) in
  length (plan_h_fft pl) = length designed
  /\ (1 / 1000000 < Cabs H ->
        H' = Cdiv_real H (sqrt (Cabs H)) /\ Cabs H' * Cabs H' = Cabs H)
  /\ (Cabs H <= 1 / 1000000 -> H' = H)
  /\ _overlap_add_filter fft fft_multiply_repeated py x h n_fft true picks
       n_jobs
     = (match
          assign_rows n_jobs
            (fun row =>
               _1d_overlap_filter fft_multiply_repeated row (plan_h_fft pl)
                 (plan_n_edge pl) (plan_n_fft pl) true (plan_n_segments pl)
                 (plan_n_seg pl))
            (match picks with
             | None => arange (shape0 x)
             | Some ps => ps
             end) x
        with
        | (x', Ok _) => Run x' w (Ok x')
        | (x', Raise e) => Run x' w (Raise e)
        end)
  /\ forall w0 pl0,
       prepare fft py x h n_fft false = (w0, Ok pl0) ->
       plan_h_fft pl0
       = fft (h ++ repeat 0 (Z.to_nat (plan_n_fft pl0 - len h))).
Proof.
  intros Hp designed H H'.
  destruct (prepare_stores_scaled_spectrum fft py x h n_fft w pl Hp)
    as (pad & Hpad & Hfft).
  assert (Epad : pad = repeat 0 (Z.to_nat (plan_n_fft pl - len h))).
  { unfold np_zeros in Hpad.
    destruct (plan_n_fft pl - len h <? 0)%Z; [discriminate|].
    now injection Hpad. }
  assert (E : plan_h_fft pl = zero_phase_scale designed).
  { subst designed. now rewrite Hfft, Epad. }
  split; [|split; [|split; [|split]]].
  - now rewrite E, zero_phase_scale_length.
  - subst H'. rewrite E. apply (zero_phase_scale_nth designed k).
  - subst H'. rewrite E. apply (zero_phase_scale_nth designed k).
  - unfold _overlap_add_filter. now rewrite Hp.
  - intros w0 pl0. unfold prepare.
    destruct (match n_fft with
              | Some n => Ok n
              | None => _
              end) as [n|e]; [|discriminate].
    destruct (n <=? 0)%Z; [discriminate|].
    unfold np_zeros. destruct (n - len h <? 0)%Z; [discriminate|].
    intros [= _ <-]. reflexivity.
Qed.

Lemma zero_phase_stores_scaled_bins_witness :
  exists w pl,
    prepare Fixtures.plain_fft Python3 (Array2d 4 [[1; 2; 3; 4]]) [1; 1]
      (Some 4%Z) true = (w, Ok pl)
    /\ length (plan_h_fft pl) = 4%nat
    /\ Cabs (nth 0 (plan_h_fft pl) (0, 0)) * Cabs (nth 0 (plan_h_fft pl) (0, 0))
       = Cabs (1, 0).
Proof.
  eexists _, _. split; [reflexivity|].
  destruct (zero_phase_stores_scaled_bins Fixtures.plain_fft
              Fixtures.pass_through Python3 (Array2d 4 [[1; 2; 3; 4]])
              [1; 1] (Some 4%Z) None 1%Z _ _ 0%nat eq_refl)
    as (Hlen & Hlarge & _).
  split; [exact Hlen|].
  apply Hlarge.
  change (1 / 1000000 < Cabs (1, 0)).
  unfold Cabs. cbn [fst snd]. replace (1 * 1 + 0 * 0) with 1 by lra.
  rewrite sqrt_1. lra.
Defined.

End SpectrumFacts.

(** ** Mirror extension of a channel *)

Module MirrorFacts.

Import OverlapAdd.

Lemma nth_map_in {A B : Type} (f : A -> B) (l : list A) (i : nat) (d : B)
    (d' : A) :
  (i < length l)%nat -> nth i (map f l) d = f (nth i l d').
Proof.
  intros Hi. rewrite (nth_indep _ d (f d')) by (now rewrite length_map).
  apply map_nth.
Qed.

Lemma window_length {A : Type} (l : list A) (lo n : nat) :
  (lo + n <= length l)%nat -> length (firstn n (skipn lo l)) = n.
Proof.
  intros H. rewrite length_firstn, length_skipn. lia.
Qed.

Lemma rev_window_nth {A : Type} (l : list A) (lo n i : nat) (d : A) :
  (lo + n <= length l)%nat -> (i < n)%nat ->
  nth i (rev (firstn n (skipn lo l))) d = nth (lo + n - 1 - i) l d.
Proof.
  intros Hl Hi.
  rewrite rev_nth by (rewrite window_length; lia).
  rewrite window_length by lia.
  rewrite nth_firstn.
  destruct (Nat.ltb_spec (n - S i) n); [|lia].
  rewrite nth_skipn. f_equal. lia.
Qed.

Lemma getitem_first (x : list R) :
  1 <= len x -> getitem x 0 = Ok (item x 0).
Proof.
  unfold getitem, norm_index, item, len. intros H.
  destruct x as [|a x]; [cbn in H; lia|].
  destruct (Z.ltb_spec 0 (Z.of_nat (length (a :: x)))); [|lia].
  reflexivity.
Qed.

Lemma getitem_last (x : list R) :
  1 <= len x -> getitem x (-1) = Ok (item x (len x - 1)).
Proof.
  unfold getitem, norm_index, item, len. intros H.
  set (n := Z.of_nat (length x)) in *.
  destruct (Z.leb_spec 0 (-1)); [lia|]. cbn [andb].
  destruct (Z.leb_spec (- n) (-1)); [|lia].
  replace (-1 + n) with (n - 1) by lia. cbn.
  destruct (nth_error x (Z.to_nat (n - 1))) eqn:E.
  - f_equal. symmetry. now apply nth_error_nth.
  - apply nth_error_None in E. lia.
Qed.

Lemma head_mirror (x : list R) (n_edge : Z) (i : nat) :
  1 <= n_edge <= len x -> (Z.of_nat i < n_edge - 1) ->
  length (slice_rev x (n_edge - 1) 0) = Z.to_nat (n_edge - 1)
  /\ nth i (slice_rev x (n_edge - 1) 0) 0%R
     = item x (n_edge - 1 - Z.of_nat i).
Proof.
  intros He Hi. unfold slice_rev, clamp_bwd, item, len in *.
  destruct (Z.ltb_spec (n_edge - 1) 0); [lia|].
  destruct (Z.ltb_spec 0 0); [lia|].
  rewrite !Z.min_l by lia.
  replace (Z.to_nat (0 + 1)) with 1%nat by lia.
  split.
  - rewrite length_rev, window_length; lia.
  - rewrite rev_window_nth by lia. f_equal. lia.
Qed.

Lemma head_mirror_length (x : list R) (n_edge : Z) :
  1 <= n_edge <= len x ->
  length (slice_rev x (n_edge - 1) 0) = Z.to_nat (n_edge - 1).
Proof.
  intros He. unfold slice_rev, clamp_bwd, len in *.
  destruct (Z.ltb_spec (n_edge - 1) 0); [lia|].
  destruct (Z.ltb_spec 0 0); [lia|].
  rewrite !Z.min_l by lia.
  rewrite length_rev, window_length; lia.
Qed.

Lemma tail_mirror_length (x : list R) (n_edge : Z) :
  1 <= n_edge <= len x ->
  length (slice_rev x (-2) (- n_edge - 1)) = Z.to_nat (n_edge - 1).
Proof.
  intros He. unfold slice_rev, clamp_bwd, len in *.
  destruct (Z.ltb_spec (-2) 0); [|lia].
  destruct (Z.ltb_spec (- n_edge - 1) 0); [|lia].
  rewrite !Z.max_r by lia.
  rewrite length_rev, window_length; lia.
Qed.

Lemma tail_mirror (x : list R) (n_edge : Z) (j : nat) :
  1 <= n_edge <= len x -> (Z.of_nat j < n_edge - 1) ->
  nth j (slice_rev x (-2) (- n_edge - 1)) 0%R
  = item x (len x - 2 - Z.of_nat j).
Proof.
  intros He Hj. unfold slice_rev, clamp_bwd, item, len in *.
  destruct (Z.ltb_spec (-2) 0); [|lia].
  destruct (Z.ltb_spec (- n_edge - 1) 0); [|lia].
  rewrite !Z.max_r by lia.
  rewrite rev_window_nth by lia. f_equal. lia.
Qed.

Section Extension.

Variable x : list R.
Variable n_edge : Z.
Hypothesis edge_fits : 1 <= n_edge <= len x.

Let head := map (fun v => 2 * item x 0 - v)%R (slice_rev x (n_edge - 1) 0).
Let tail := map (fun v => 2 * item x (len x - 1) - v)%R
              (slice_rev x (-2) (- n_edge - 1)).

Lemma x_ext_value : x_ext x n_edge = Ok (head ++ x ++ tail).
Proof.
  unfold x_ext. rewrite getitem_first, getitem_last by lia. reflexivity.
Qed.

Lemma x_ext_length : len (head ++ x ++ tail) = len x + 2 * (n_edge - 1).
Proof.
  unfold len, head, tail.
  rewrite !length_app, !length_map, head_mirror_length, tail_mirror_length
    by assumption.
  unfold len in edge_fits. lia.
Qed.

Lemma x_ext_head (i : Z) :
  0 <= i < n_edge - 1 ->
  item (head ++ x ++ tail) i
  = (2 * item x 0 - item x (n_edge - 1 - i))%R.
Proof.
  intros Hi. unfold item at 1.
  assert (Hlen : length head = Z.to_nat (n_edge - 1))
    by (unfold head; rewrite length_map; now apply head_mirror_length).
  rewrite app_nth1 by lia.
  unfold head. rewrite nth_map_in with (d' := 0%R)
    by (rewrite head_mirror_length by assumption; lia).
  destruct (head_mirror x n_edge (Z.to_nat i)) as [_ ->]; [assumption|lia|].
  now rewrite Z2Nat.id by lia.
Qed.

Lemma x_ext_middle (i : Z) :
  0 <= i < len x -> item (head ++ x ++ tail) (n_edge - 1 + i) = item x i.
Proof.
  intros Hi. unfold item.
  assert (Hlen : length head = Z.to_nat (n_edge - 1))
    by (unfold head; rewrite length_map; now apply head_mirror_length).
  rewrite app_nth2 by lia. unfold len in Hi.
  rewrite app_nth1 by lia. f_equal. lia.
Qed.

Lemma x_ext_tail (j : Z) :
  0 <= j < n_edge - 1 ->
  item (head ++ x ++ tail) (n_edge - 1 + len x + j)
  = (2 * item x (len x - 1) - item x (len x - 2 - j))%R.
Proof.
  intros Hj. unfold item at 1.
  assert (Hlen : length head = Z.to_nat (n_edge - 1))
    by (unfold head; rewrite length_map; now apply head_mirror_length).
  unfold len in *.
  rewrite app_nth2 by lia. rewrite app_nth2 by lia.
  replace (Z.to_nat (n_edge - 1 + Z.of_nat (length x) + j) - length head
           - length x)%nat with (Z.to_nat j) by lia.
  unfold tail. rewrite nth_map_in with (d' := 0%R)
    by (rewrite tail_mirror_length by assumption; lia).
  rewrite tail_mirror by (unfold len; lia).
  unfold len. now rewrite Z2Nat.id by lia.
Qed.

(** On a linear ramp the padded channel is the same ramp, started
    [n_edge - 1] samples earlier. *)
Lemma x_ext_ramp (a b : R) :
  (forall i, 0 <= i < len x -> item x i = (a + b * IZR i)%R) ->
  forall j, 0 <= j < len (head ++ x ++ tail) ->
    item (head ++ x ++ tail) j = (a + b * IZR (j - (n_edge - 1)))%R.
Proof.
  intros Hramp j Hj. rewrite x_ext_length in Hj.
  assert (D : j < n_edge - 1
              \/ (n_edge - 1 <= j < n_edge - 1 + len x)
              \/ n_edge - 1 + len x <= j) by lia.
  destruct D as [D|[D|D]].
  - rewrite x_ext_head by lia.
    rewrite !Hramp by lia.
    rewrite !minus_IZR. cbn. lra.
  - replace j with (n_edge - 1 + (j - (n_edge - 1))) at 1 by lia.
    rewrite x_ext_middle by lia. apply Hramp. lia.
  - replace j with (n_edge - 1 + len x + (j - (n_edge - 1) - len x)) at 1
      by lia.
    rewrite x_ext_tail by lia.
    rewrite !Hramp by lia.
    rewrite !minus_IZR. cbn. lra.
Qed.

End Extension.

(** The padded channel for [n_edge = min(n_h, n)]: its length, its items
    and its first differences on a ramp. *)
Lemma x_ext_reflects (x h : list R) :
  1 <= len h -> 1 <= len x ->
  let n_edge := Z.min (len h) (len x) in
  exists xe, x_ext x n_edge = Ok xe
    /\ len xe = len x + 2 * (n_edge - 1)
    /\ (forall i, 0 <= i < n_edge - 1 ->
          item xe i = (2 * item x 0 - item x (n_edge - 1 - i))%R)
    /\ (forall i, 0 <= i < len x -> item xe (n_edge - 1 + i) = item x i)
    /\ (forall j, 0 <= j < n_edge - 1 ->
          item xe (n_edge - 1 + len x + j)
          = (2 * item x (len x - 1) - item x (len x - 2 - j))%R)
    /\ (forall a b,
          (forall i, 0 <= i < len x -> item x i = (a + b * IZR i)%R) ->
          forall j, 0 <= j -> j + 1 < len xe ->
            (item xe (j + 1) - item xe j)%R = b).
Proof.
  intros Hh Hx n_edge.
  assert (He : 1 <= n_edge <= len x) by (subst n_edge; lia).
  eexists. split; [now apply x_ext_value|].
  split; [now apply x_ext_length|].
  split; [intros; now apply x_ext_head|].
  split; [intros; now apply x_ext_middle|].
  split; [intros; now apply x_ext_tail|].
  intros a b Hramp j Hj0 Hj1.
  rewrite !(x_ext_ramp x n_edge He a b Hramp) by lia.
  replace (j + 1 - (n_edge - 1)) with (j - (n_edge - 1) + 1) by lia.
  rewrite plus_IZR. cbn. lra.
Qed.

(** C9: for a kernel and channels of at least one sample each,
    [_overlap_add_filter] plans the edge width
    [n_edge = min(n_h, x.shape[1])], and [_1d_overlap_filter] runs its
    passes, not over the channel [x] it is given, but over a signal [xe]
    of [len x + 2 (n_edge - 1)] samples that holds [x] between two odd
    reflections, [xe[i] = 2 x[0] - x[n_edge - 1 - i]] at the head and
    [xe[n_edge - 1 + n + j] = 2 x[n - 1] - x[n - 2 - j]] at the tail, and
    trims [n_edge - 1] samples from each end afterwards; on a linear ramp
    all first differences of [xe], those across the two splice points
    included, equal the slope. *)
Theorem channels_are_extended_by_odd_reflection
    (fft : list R -> list C)
    (fft_multiply_repeated : list C -> list R -> list R)
    (py : interpreter) (X : array2d) (h : list R) (n_fft : option Z)
    (zero_phase : bool) (w : list warning) (pl : plan) (x : list R) :
  1 <= len h -> 1 <= len x -> len x = Z.of_nat (shape1 X) ->
  prepare fft py X h n_fft zero_phase = (w, Ok pl) ->
  let n_edge := Z.min (len h) (len x) in
  exists xe,
    plan_n_edge pl = n_edge
    /\ _1d_overlap_filter fft_multiply_repeated x (plan_h_fft pl)
         (plan_n_edge pl) (plan_n_fft pl) zero_phase (plan_n_segments pl)
         (plan_n_seg pl)
       = (pass0 <- one_pass fft_multiply_repeated (plan_h_fft pl)
                     (plan_n_fft pl) (plan_n_seg pl) (plan_n_segments pl)
                     (len xe) xe ;;
          x_filtered <-
            (if zero_phase
             then one_pass fft_multiply_repeated (plan_h_fft pl)
                    (plan_n_fft pl) (plan_n_seg pl) (plan_n_segments pl)
                    (len xe) (rev pass0)
             else Ok pass0) ;;
          let x_filtered := slice x_filtered (n_edge - 1) (- n_edge + 1) in
          Ok (if zero_phase then rev x_filtered else x_filtered))
    /\ len xe = len x + 2 * (n_edge - 1)
    /\ (forall i, 0 <= i < n_edge - 1 ->
          item xe i = (2 * item x 0 - item x (n_edge - 1 - i))%R)
    /\ (forall i, 0 <= i < len x -> item xe (n_edge - 1 + i) = item x i)
    /\ (forall j, 0 <= j < n_edge - 1 ->
          item xe (n_edge - 1 + len x + j)
          = (2 * item x (len x - 1) - item x (len x - 2 - j))%R)
    /\ (forall a b,
          (forall i, 0 <= i < len x -> item x i = (a + b * IZR i)%R) ->
          forall j, 0 <= j -> j + 1 < len xe ->
            (item xe (j + 1) - item xe j)%R = b).
Proof.
  intros Hh Hx Hrow Hp n_edge.
  assert (Hedge : plan_n_edge pl = n_edge).
  { revert Hp. unfold prepare.
    destruct (match n_fft with
              | Some n => Ok n
              | None => _
              end) as [n|e]; [|discriminate].
    destruct (n <=? 0); [discriminate|].
    destruct (np_zeros (n - len h)) as [pad|e]; [|discriminate].
    intros [= _ <-]. cbn [plan_n_edge]. subst n_edge. now rewrite Hrow. }
  destruct (x_ext_reflects x h Hh Hx)
    as (xe & Hxe & Hlen & Hhead & Hmid & Htail & Hramp).
  fold n_edge in Hxe, Hlen, Hhead, Hmid, Htail.
  exists xe. split; [exact Hedge|]. split.
  - unfold _1d_overlap_filter. rewrite Hedge, Hxe. reflexivity.
  - repeat split; assumption.
Qed.

Lemma channels_are_extended_by_odd_reflection_witness :
  1 <= len [1; 1]%R /\ 1 <= len [1; 2; 3]%R
  /\ exists w pl xe,
       prepare Fixtures.plain_fft Python3 (Array2d 3 [[1; 2; 3]]%R)
         [1; 1]%R (Some 4) true = (w, Ok pl)
       /\ plan_n_edge pl = 2
       /\ len xe = 3 + 2 * (2 - 1)
       /\ item xe 0 = (2 * 1 - 2)%R.
Proof.
  assert (Hh : 1 <= len [1; 1]%R) by (cbn; lia).
  assert (Hx : 1 <= len [1; 2; 3]%R) by (cbn; lia).
  split; [exact Hh|]. split; [exact Hx|].
  eexists _, _.
  destruct (channels_are_extended_by_odd_reflection Fixtures.plain_fft
              Fixtures.pass_through Python3 (Array2d 3 [[1; 2; 3]]%R)
              [1; 1]%R (Some 4) true _ _ [1; 2; 3]%R Hh Hx eq_refl eq_refl)
    as (xe & Hedge & _ & Hlen & Hhead & _).
  exists xe. split; [reflexivity|]. split; [exact Hedge|].
  split; [exact Hlen|]. apply (Hhead 0). cbn. lia.
Defined.

End MirrorFacts.

(** ** Rows outside [picks] *)

Module FrameFacts.

Lemma same_off_refl (picks : list Z) (x : array2d) : same_off picks x x.
Proof.
  split; auto.
Qed.

Lemma same_off_trans (picks : list Z) (x y z : array2d) :
  same_off picks x y -> same_off picks y z -> same_off picks x z.
Proof.
  intros [Hn1 H1] [Hn2 H2]. split; [congruence|].
  intros i Hi. rewrite H2, H1; auto. now rewrite Hn1.
Qed.

Lemma norm_index_forms (n p : Z) (k : nat) :
  norm_index n p = Some k -> p = Z.of_nat k \/ p = Z.of_nat k - n.
Proof.
  unfold norm_index.
  destruct (Z.leb_spec 0 p); destruct (Z.ltb_spec p n); cbn;
    try destruct (Z.leb_spec (- n) p); try destruct (Z.ltb_spec p 0); cbn;
    intros [= <-]; lia.
Qed.

Lemma replace_nth_length {A : Type} (l : list A) (k : nat) (a : A) :
  length (replace_nth l k a) = length l.
Proof.
  revert k. induction l as [|b l IH]; intros [|k]; cbn; auto.
Qed.

Lemma replace_nth_other {A : Type} (l : list A) (k i : nat) (a : A) :
  i <> k -> nth_error (replace_nth l k a) i = nth_error l i.
Proof.
  revert k i. induction l as [|b l IH]; intros [|k] [|i] H; cbn; auto;
    try congruence.
Qed.

Lemma addressed_by (n : nat) (picks : list Z) (p : Z) (k : nat) :
  In p picks -> norm_index (Z.of_nat n) p = Some k -> addressed n picks k.
Proof.
  intros Hin Hk. apply norm_index_forms in Hk.
  destruct Hk as [->| ->]; [now left|now right].
Qed.

Lemma setrow_frame (picks : list Z) (x x' : array2d) (p : Z) (v : list R) :
  In p picks -> setrow x p v = Ok x' -> same_off picks x x'.
Proof.
  unfold setrow, len. intros Hin.
  destruct (norm_index _ p) as [k|] eqn:Ek; [|discriminate].
  destruct (broadcast_to (shape1 x) v) as [v'|]; [|discriminate].
  cbn. intros [= <-]. split.
  - unfold shape0. cbn. apply replace_nth_length.
  - intros i Hi. cbn. apply replace_nth_other.
    intros ->. apply Hi. eapply addressed_by; eauto.
Qed.

Lemma assign_serial_frame (f : list R -> result (list R))
    (picks0 picks : list Z) (x : array2d) :
  incl picks picks0 -> same_off picks0 x (fst (assign_serial f picks x)).
Proof.
  revert x. induction picks as [|p ps IH]; intros x Hincl; cbn.
  - apply same_off_refl.
  - destruct (getrow x p) as [r|]; cbn; [|apply same_off_refl].
    destruct (f r) as [v|]; cbn; [|apply same_off_refl].
    destruct (setrow x p v) as [x'|] eqn:E; [|apply same_off_refl].
    eapply same_off_trans.
    + eapply setrow_frame; [|exact E]. apply Hincl. now left.
    + apply IH. intros q Hq. apply Hincl. now right.
Qed.

Lemma assign_each_frame (picks0 picks : list Z) (data_new : list (list R))
    (x : array2d) :
  incl picks picks0 -> same_off picks0 x (fst (assign_each picks data_new x)).
Proof.
  revert data_new x. induction picks as [|p ps IH]; intros data_new x Hincl.
  - cbn. apply same_off_refl.
  - destruct data_new as [|v vs]; cbn; [apply same_off_refl|].
    destruct (setrow x p v) as [x'|] eqn:E; [|apply same_off_refl].
    eapply same_off_trans.
    + eapply setrow_frame; [|exact E]. apply Hincl. now left.
    + apply IH. intros q Hq. apply Hincl. now right.
Qed.

Lemma assign_rows_frame (n_jobs : Z) (f : list R -> result (list R))
    (picks : list Z) (x : array2d) :
  same_off picks x (fst (assign_rows n_jobs f picks x)).
Proof.
  unfold assign_rows, assign_parallel. destruct (n_jobs =? 1).
  - apply assign_serial_frame, incl_refl.
  - destruct (map_rows f picks x); cbn.
    + apply assign_each_frame, incl_refl.
    + apply same_off_refl.
Qed.

Lemma keeps_rows_off_row {A : Type} (picks : list Z) (x : array2d)
    (array_of : A -> array2d) (r : run A) (i : nat) :
  keeps_rows_off picks x array_of r ->
  ~ addressed (shape0 x) picks i ->
  nth_error (rows (mem r)) i = nth_error (rows x) i
  /\ forall y, ret r = Ok y ->
       nth_error (rows (array_of y)) i = nth_error (rows x) i.
Proof.
  intros [[_ Hm] Hr] Hi. split; [now apply Hm|].
  intros y Hy. destruct (Hr y Hy) as [_ H]. now apply H.
Qed.

Lemma caller_frame (picks : list Z) (copy : bool) (x x' : array2d) :
  same_off picks x x' -> same_off picks x (caller copy x x').
Proof.
  destruct copy; cbn; auto using same_off_refl.
Qed.

Section Engines.

Variable fft : list R -> list C.
Variable fft_multiply_repeated : list C -> list R -> list R.
Variable firwin2 : Z -> list R -> list R -> result (list R).
Variable _filter_attenuation : list R -> list R -> list R -> R * R.

Lemma overlap_add_frame (py : OverlapAdd.interpreter) (x : array2d)
    (h : list R) (n_fft : option Z) (zero_phase : bool) (picks : list Z)
    (n_jobs : Z) :
  keeps_rows_off picks x (fun y => y)
    (OverlapAdd._overlap_add_filter fft fft_multiply_repeated py x h n_fft
       zero_phase (Some picks) n_jobs).
Proof.
  unfold OverlapAdd._overlap_add_filter.
  destruct (OverlapAdd.prepare fft py x h n_fft zero_phase) as [w [pl|e]].
  - match goal with |- context [assign_rows ?n ?f ?p ?x] =>
      pose proof (assign_rows_frame n f p x) as Hf;
      destruct (assign_rows n f p x) as [x' [u|e]] end; cbn in *.
    + split; [assumption|]. now intros y [= <-].
    + split; [assumption|]. discriminate.
  - split; cbn; [apply same_off_refl|discriminate].
Qed.

Lemma direct_branch_frame (x : array2d) (Fs : R) (freq gain : list R)
    (gain_last : R) (picks : list Z) (n_jobs : Z) (copy : bool) :
  keeps_rows_off picks x (fun y => y)
    (Filter.direct_branch fft fft_multiply_repeated firwin2
       _filter_attenuation x Fs freq gain gain_last picks n_jobs copy).
Proof.
  unfold Filter.direct_branch.
  destruct (firwin2 _ freq gain) as [H|e].
  - match goal with |- context [assign_rows ?n ?f ?p ?x] =>
      pose proof (assign_rows_frame n f p x) as Hf;
      destruct (assign_rows n f p x) as [x' [u|e]] end; cbn in *.
    + split; [now apply caller_frame|]. now intros y [= <-].
    + split; [now apply caller_frame|]. discriminate.
  - split; cbn; [apply same_off_refl|discriminate].
Qed.

Lemma overlap_branch_frame (py : OverlapAdd.interpreter) (x : array2d)
    (Fs : R) (freq gain : list R) (gain_last : R) (filter_length : Z)
    (picks : list Z) (n_jobs : Z) (copy : bool) :
  keeps_rows_off picks x (fun y => y)
    (Filter.overlap_branch fft fft_multiply_repeated firwin2
       _filter_attenuation py x Fs freq gain gain_last filter_length picks
       n_jobs copy).
Proof.
  unfold Filter.overlap_branch.
  destruct (firwin2 _ freq gain) as [H|e].
  - destruct (overlap_add_frame py x H None true picks n_jobs) as [Hm Hr].
    split; cbn; [now apply caller_frame|assumption].
  - split; cbn; [apply same_off_refl|discriminate].
Qed.

Lemma filter_frame (py : OverlapAdd.interpreter) (x : array2d) (Fs : R)
    (freq gain : list R) (filter_length : option Z) (picks : list Z)
    (n_jobs : Z) (copy : bool) :
  keeps_rows_off picks x (fun y => y)
    (Filter._filter fft fft_multiply_repeated firwin2 _filter_attenuation
       py x Fs freq gain filter_length (Some picks) n_jobs copy).
Proof.
  unfold Filter._filter.
  destruct (Filter.normalize_freq Fs freq) as [nfreq|e];
    [|split; cbn; [apply same_off_refl|discriminate]].
  destruct (getitem gain (-1)) as [gain_last|e].
  - destruct filter_length as [fl|].
    + destruct (Z.of_nat (shape1 x) <=? fl).
      * apply direct_branch_frame.
      * apply overlap_branch_frame.
    + apply direct_branch_frame.
  - split; cbn; [apply same_off_refl|discriminate].
Qed.

End Engines.

Section LineNoise.

Import MtSpectrum.

Variable dpss_windows : Z -> R -> Z -> Z -> list (list R).
Variable _mt_spectra : list R -> list (list R) -> R -> list (list C) * list R.
Variable f_ppf : R -> Z -> Z -> option R.
Variable np_angle : C -> R.

Lemma picked_index (picks : list Z) (ii : nat) :
  existsb (Z.eqb (Z.of_nat ii)) picks = true -> In (Z.of_nat ii) picks.
Proof.
  intros H. apply existsb_exists in H. destruct H as (q & Hq & E).
  apply Z.eqb_eq in E. now subst q.
Qed.

Lemma remove_row_frame (sfreq : R) (line_freqs : option (list R))
    (mt_bandwidth : option R) (p_value : R) (picks : list Z) (x : array2d)
    (notch_widths : list R) (ii : nat) :
  In (Z.of_nat ii) picks ->
  same_off picks x
    (fst (fst (remove_row dpss_windows _mt_spectra f_ppf np_angle sfreq
                 line_freqs mt_bandwidth p_value x notch_widths ii))).
Proof.
  intros Hin. unfold remove_row.
  destruct (nth_error (rows x) ii) as [x_|]; [|apply same_off_refl].
  destruct (_mt_spectrum_remove _ _ _ _ x_ sfreq line_freqs notch_widths
              mt_bandwidth p_value) as [nw [[y f]|e]];
    [|apply same_off_refl].
  destruct (setrow x (Z.of_nat ii) y) as [x'|] eqn:E; cbn.
  - eapply setrow_frame; eauto.
  - apply same_off_refl.
Qed.

Lemma proc_serial_frame (sfreq : R) (line_freqs : option (list R))
    (mt_bandwidth : option R) (p_value : R) (picks : list Z)
    (iis : list nat) (x : array2d) (notch_widths : list R)
    (freq_list : list (list R)) :
  same_off picks x
    (fst (fst (proc_serial dpss_windows _mt_spectra f_ppf np_angle sfreq
                 line_freqs mt_bandwidth p_value picks iis x notch_widths
                 freq_list))).
Proof.
  revert x notch_widths freq_list.
  induction iis as [|ii rest IH]; intros x nw fl; cbn.
  - apply same_off_refl.
  - destruct (existsb (Z.eqb (Z.of_nat ii)) picks) eqn:Epick; [|apply IH].
    pose proof (remove_row_frame sfreq line_freqs mt_bandwidth p_value picks
                  x nw ii (picked_index _ _ Epick)) as Hrow.
    destruct (remove_row _ _ _ _ sfreq line_freqs mt_bandwidth p_value x nw ii)
      as [[x' nw'] [f|e]]; cbn in Hrow |- *.
    + eapply same_off_trans; [exact Hrow|apply IH].
    + exact Hrow.
Qed.

Lemma norm_indices_addressed (n : nat) (picks : list Z) (ks : list nat) :
  norm_indices (Z.of_nat n) picks = Ok ks ->
  forall k, In k ks -> addressed n picks k.
Proof.
  revert ks. induction picks as [|p ps IH]; intros ks; cbn.
  - intros [= <-] k [].
  - destruct (norm_index (Z.of_nat n) p) as [k0|] eqn:Ek; [|discriminate].
    destruct (norm_indices (Z.of_nat n) ps) as [ks'|]; [|discriminate].
    cbn. intros [= <-] k [<-|Hk].
    + eapply addressed_by; [now left|exact Ek].
    + destruct (IH ks' eq_refl k Hk) as [H|H]; [left|right]; now right.
Qed.

Lemma write_rows_length (ks : list nat) (vs rs : list (list R)) :
  length (write_rows ks vs rs) = length rs.
Proof.
  revert vs rs. induction ks as [|k ks IH]; intros [|v vs] rs; cbn; auto.
  now rewrite IH, replace_nth_length.
Qed.

Lemma write_rows_other (ks : list nat) (vs rs : list (list R)) (i : nat) :
  ~ In i ks -> nth_error (write_rows ks vs rs) i = nth_error rs i.
Proof.
  revert vs rs. induction ks as [|k ks IH]; intros [|v vs] rs Hi; cbn; auto.
  rewrite IH by (intros H; apply Hi; now right).
  apply replace_nth_other. intros ->. apply Hi. now left.
Qed.

Lemma assign_fancy_frame (x x' : array2d) (picks : list Z)
    (data_new : list (list R)) :
  assign_fancy x picks data_new = Ok x' -> same_off picks x x'.
Proof.
  unfold assign_fancy, len.
  destruct (norm_indices _ picks) as [ks|] eqn:Eks; [|discriminate].
  destruct (broadcast_rows _ _ data_new) as [vs|]; [|discriminate].
  cbn. intros [= <-]. split.
  - unfold shape0. cbn. apply write_rows_length.
  - intros i Hi. cbn. apply write_rows_other.
    intros Hin. apply Hi. eapply norm_indices_addressed; eauto.
Qed.

Lemma mt_spectrum_proc_frame (x : array2d) (sfreq : R)
    (line_freqs : option (list R)) (notch_widths : list R)
    (mt_bandwidth : option R) (p_value : R) (picks : list Z) (n_jobs : Z)
    (copy : bool) :
  keeps_rows_off picks x fst
    (fst (_mt_spectrum_proc dpss_windows _mt_spectra f_ppf np_angle x sfreq
            line_freqs notch_widths mt_bandwidth p_value (Some picks) n_jobs
            copy)).
Proof.
  unfold _mt_spectrum_proc. destruct (n_jobs =? 1).
  - pose proof (proc_serial_frame sfreq line_freqs mt_bandwidth p_value picks
                  (seq 0 (shape0 x)) x notch_widths []) as Hf.
    destruct (proc_serial _ _ _ _ sfreq line_freqs mt_bandwidth p_value picks
                (seq 0 (shape0 x)) x notch_widths [])
      as [[x' nw] [fl|e]]; cbn in Hf |- *.
    + split; cbn; [now apply caller_frame|]. now intros y [= <-].
    + split; cbn; [now apply caller_frame|discriminate].
  - destruct (proc_jobs _ _ _ _ sfreq line_freqs notch_widths mt_bandwidth
                p_value picks 0 (rows x)) as [data_new|e]; cbn.
    + destruct (assign_fancy x picks (map fst data_new)) as [x'|e] eqn:E; cbn.
      * apply assign_fancy_frame in E.
        split; cbn; [now apply caller_frame|]. now intros y [= <-].
      * split; cbn; [apply same_off_refl|discriminate].
    + split; cbn; [apply same_off_refl|discriminate].
Qed.

End LineNoise.

(** C10: in overlap-add filtering, in [_filter] (direct FFT and overlap-add
    branch) and in spectrum-fit notch filtering, a row that [picks] does not
    address, by its index or by the negative form of its index, is in the
    array afterwards, and in the array returned, exactly the row that was
    passed; this holds for either value of [n_jobs] and also when the call
    ends with an exception. *)
Theorem rows_off_picks_are_kept
    (fft : list R -> list C)
    (fft_multiply_repeated : list C -> list R -> list R)
    (firwin2 : Z -> list R -> list R -> result (list R))
    (_filter_attenuation : list R -> list R -> list R -> R * R)
    (dpss_windows : Z -> R -> Z -> Z -> list (list R))
    (_mt_spectra : list R -> list (list R) -> R -> list (list C) * list R)
    (f_ppf : R -> Z -> Z -> option R) (np_angle : C -> R)
    (py : OverlapAdd.interpreter) (x : array2d) (picks : list Z)
    (n_jobs : Z) (copy : bool) (i : nat) :
  ~ addressed (shape0 x) picks i ->
  (forall h n_fft zero_phase,
     let r := OverlapAdd._overlap_add_filter fft fft_multiply_repeated py x h
                n_fft zero_phase (Some picks) n_jobs in
     nth_error (rows (mem r)) i = nth_error (rows x) i
     /\ forall y, ret r = Ok y -> nth_error (rows y) i = nth_error (rows x) i)
  /\ (forall Fs freq gain filter_length,
        let r := Filter._filter fft fft_multiply_repeated firwin2
                   _filter_attenuation py x Fs freq gain filter_length
                   (Some picks) n_jobs copy in
        nth_error (rows (mem r)) i = nth_error (rows x) i
        /\ forall y, ret r = Ok y ->
             nth_error (rows y) i = nth_error (rows x) i)
  /\ (forall sfreq line_freqs notch_widths mt_bandwidth p_value,
        let r := fst (MtSpectrum._mt_spectrum_proc dpss_windows _mt_spectra
                        f_ppf np_angle x sfreq line_freqs notch_widths
                        mt_bandwidth p_value (Some picks) n_jobs copy) in
        nth_error (rows (mem r)) i = nth_error (rows x) i
        /\ forall y, ret r = Ok y ->
             nth_error (rows (fst y)) i = nth_error (rows x) i).
Proof.
  intros Hi. split; [|split]; intros; subst r.
  - exact (keeps_rows_off_row _ _ _ _ i
             (overlap_add_frame fft fft_multiply_repeated py x h n_fft
                zero_phase picks n_jobs) Hi).
  - exact (keeps_rows_off_row _ _ _ _ i
             (filter_frame fft fft_multiply_repeated firwin2
                _filter_attenuation py x Fs freq gain filter_length picks
                n_jobs copy) Hi).
  - exact (keeps_rows_off_row _ _ _ _ i
             (mt_spectrum_proc_frame dpss_windows _mt_spectra f_ppf np_angle
                x sfreq line_freqs notch_widths mt_bandwidth p_value picks
                n_jobs copy) Hi).
Qed.

Lemma rows_off_picks_are_kept_witness :
  ~ addressed 2 [0] 1
  /\ nth_error
       (rows (mem (OverlapAdd._overlap_add_filter
                     Fixtures.plain_fft Fixtures.pass_through
                     OverlapAdd.Python3 (Array2d 2 [[1; 2]; [3; 4]]%R) [1]%R
                     None true (Some [0]) 1))) 1
     = Some [3; 4]%R.
Proof.
  assert (H : ~ addressed (shape0 (Array2d 2 [[1; 2]; [3; 4]]%R)) [0] 1).
  { unfold addressed. cbn. intros [[E|[]]|[E|[]]]; discriminate E. }
  split; [exact H|].
  exact (proj1 (proj1
    (rows_off_picks_are_kept Fixtures.plain_fft Fixtures.pass_through
       Fixtures.unit_kernel Fixtures.good_attenuation
       Fixtures.one_taper Fixtures.flat_spectrum Fixtures.no_ppf
       Fixtures.zero_angle OverlapAdd.Python3 (Array2d 2 [[1; 2]; [3; 4]]%R) [0]
       1 false 1%nat H) [1]%R None true)).
Defined.

End FrameFacts.

(** ** Input of zero length *)

Module ZeroLengthFacts.

Import KernelLength.

Lemma getitem_in_range {A : Type} (l : list A) (i : Z) (a : A) :
  getitem l i = Ok a -> i < len l.
Proof.
  unfold getitem, norm_index.
  destruct (Z.leb_spec 0 i); destruct (Z.ltb_spec i (len l)); cbn;
    try destruct (Z.leb_spec (- len l) i); try destruct (Z.ltb_spec i 0);
    cbn; try discriminate; intros _; lia.
Qed.

(** C6, as the code has it: [resample], called with a non-zero [down] and an
    axis of the array along which the length is zero, issues the
    zero-length warning and returns an unmodified copy of its input. *)
Theorem resample_zero_length
    (resample_padded : Resample.ndarray -> R -> Z -> Z -> string
                       -> result Resample.ndarray)
    (x : Resample.ndarray) (up down : R) (npad axis : Z) (window : string) :
  down <> 0%R ->
  getitem (Resample.shape x) axis = Ok 0 ->
  Resample.resample resample_padded x up down npad axis window
  = ([ZeroLengthAlongAxis axis], Ok x).
Proof.
  intros Hdown Hlen. unfold Resample.resample.
  rewrite (proj2 (Req_bool_false down 0)) by assumption.
  pose proof (getitem_in_range _ _ _ Hlen) as Hax.
  destruct (Z.ltb_spec (len (Resample.shape x)) axis); [lia|].
  rewrite Hlen. cbn. now destruct x.
Qed.

Lemma resample_zero_length_witness :
  1%R <> 0%R
  /\ getitem [2; 0] 1 = Ok 0
  /\ Resample.resample Fixtures.same_array (Resample.NDArray [2; 0] [])
       1 1 100 1 "boxcar"
     = ([ZeroLengthAlongAxis 1], Ok (Resample.NDArray [2; 0] [])).
Proof.
  assert (H1 : 1%R <> 0%R) by lra.
  assert (H2 : getitem [2; 0] 1 = Ok 0) by reflexivity.
  split; [exact H1|]. split; [exact H2|].
  exact (resample_zero_length Fixtures.same_array
           (Resample.NDArray [2; 0] []) 1 1 100 1 "boxcar" H1 H2).
Defined.

Section Filter.

Variable fft : list R -> list C.
Variable fft_multiply_repeated : list C -> list R -> list R.
Variable firwin2 : Z -> list R -> list R -> result (list R).
Variable _filter_attenuation : list R -> list R -> list R -> R * R.

Lemma attenuation_warning_kind (Fs : R) (att : R * R) (headroom : R)
    (axis : Z) :
  ~ In (ZeroLengthAlongAxis axis) (Filter.attenuation_warning Fs att headroom).
Proof.
  unfold Filter.attenuation_warning.
  destruct (Rlt_bool _ 20); cbn; [intros [E|[]]; discriminate E|tauto].
Qed.

(** [_filter] has no test for an empty time axis: a high-pass design
    ([gain[-1] = 1]) on channels of length zero extends the channel by
    [x[-1]], which is an [IndexError] unless [firwin2] has raised before;
    no zero-length warning is issued on the way. *)
Lemma filter_zero_length_highpass (py : OverlapAdd.interpreter)
    (rest : list (list R)) (Fs : R) (freq gain : list R) (copy : bool) :
  getitem gain (-1) = Ok 1%R ->
  let x := Array2d 0 ([] :: rest) in
  let r := Filter._filter fft fft_multiply_repeated firwin2
             _filter_attenuation py x Fs freq gain None None 1 copy in
  (exists e, ret r = Raise e)
  /\ mem r = x
  /\ forall axis, ~ In (ZeroLengthAlongAxis axis) (warned r).
Proof.
  intros Hgain x r. subst r. unfold Filter._filter.
  destruct (Filter.normalize_freq Fs freq) as [nfreq|e0];
    [|cbn; split; [eauto|]; split; [reflexivity|]; tauto].
  rewrite Hgain.
  unfold Filter.direct_branch, direct_N, direct_extend_x.
  unfold needs_extra_sample.
  rewrite (proj2 (Req_bool_false 1 0)) by lra.
  rewrite (proj2 (Req_bool_true 1 1)) by reflexivity.
  cbn [shape1 x Z.of_nat andb orb Z.modulo Z.eqb negb Z.div_eucl].
  destruct (firwin2 _ _ gain) as [H|e].
  - cbn. destruct copy; cbn; (split; [eauto|]; split; [reflexivity|]);
      intros axis; apply attenuation_warning_kind.
  - cbn. split; [eauto|]. split; [reflexivity|]. tauto.
Qed.

End Filter.

(** C6 as stated fails for [_filter]: on an array of one channel and zero
    samples with a high-pass design the call ends with an exception instead
    of a warning and a copy of the input. *)
Lemma zero_length_rule_fails_for_filter :
  ~ (forall (fft : list R -> list C)
            (fft_multiply_repeated : list C -> list R -> list R)
            (firwin2 : Z -> list R -> list R -> result (list R))
            (_filter_attenuation : list R -> list R -> list R -> R * R)
            (py : OverlapAdd.interpreter) (x : array2d) (Fs : R)
            (freq gain : list R) (filter_length : option Z)
            (picks : option (list Z)) (n_jobs : Z) (copy : bool),
       shape1 x = 0%nat ->
       let r := Filter._filter fft fft_multiply_repeated firwin2
                  _filter_attenuation py x Fs freq gain filter_length picks
                  n_jobs copy in
       (exists axis, In (ZeroLengthAlongAxis axis) (warned r))
       /\ ret r = Ok x).
Proof.
  intros H.
  specialize (H Fixtures.plain_fft Fixtures.pass_through
                Fixtures.unit_kernel Fixtures.good_attenuation
                OverlapAdd.Python3 (Array2d 0 [[]]) 100%R
                [0; 10; 20; 50]%R [0; 0; 1; 1]%R None None 1 true eq_refl).
  destruct H as [_ Hret].
  destruct (filter_zero_length_highpass Fixtures.plain_fft
              Fixtures.pass_through Fixtures.unit_kernel
              Fixtures.good_attenuation OverlapAdd.Python3 [] 100%R
              [0; 10; 20; 50]%R [0; 0; 1; 1]%R true eq_refl)
    as [[e He] _].
  cbv zeta in Hret, He. rewrite Hret in He. discriminate He.
Qed.

End ZeroLengthFacts.

(** ** Detection and removal of line frequencies *)

Module LineNoiseFacts.

Import MtSpectrum AsSpecified Fixtures SpectrumFacts.

Open Scope R_scope.

Ltac settle_abs :=
  repeat match goal with
  | |- context [Rabs ?a] =>
      first [ rewrite (Rabs_right a) by lra | rewrite (Rabs_left a) by lra ]
  end.

Lemma Cabs_real (a : R) : 0 <= a -> Cabs (a, 0) = a.
Proof.
  intros Ha. unfold Cabs. cbn. replace (a * a + 0 * 0) with (a * a) by lra.
  now apply sqrt_square.
Qed.

Lemma exceeds_iff (v : R) (th : option R) :
  exceeds v th = true <-> exists t, th = Some t /\ t < v.
Proof.
  unfold exceeds. destruct th as [t|].
  - rewrite Rgt_bool_true. split.
    + intros H. now exists t.
    + now intros (t' & [= <-] & H).
  - split; [discriminate|]. now intros (t & E & _).
Qed.

(** The quantile of F(2, 2) is [q / (1 - q)], and no quantile of an
    F(2, dfd) distribution is negative. *)
Lemma f2_ppf_2_2 (q : R) : 0 <= q < 1 -> f2_ppf q 2 2 = Some (q / (1 - q)).
Proof.
  intros Hq. unfold f2_ppf.
  rewrite (proj2 (Rlt_bool_false q 0)) by lra.
  rewrite (proj2 (Rlt_bool_true q 1)) by lra.
  f_equal. replace (- 2 / 2) with (- (1)) by lra.
  rewrite Rpower_Ropp, Rpower_1 by lra. field. lra.
Qed.


Lemma in_detected_indices (f_ppf : R -> Z -> Z -> option R) (p_value : R) (n_times n_tapers : Z)
    (x_p : list (list C)) (H0 freqs : list R) (k : nat) :
  In k (detected_indices f_ppf p_value n_times n_tapers x_p H0 freqs)
  <-> (k < length freqs)%nat
      /\ exists t,
           f_ppf (1 - p_value / IZR n_times) 2%Z (2 * n_tapers - 2)%Z = Some t
           /\ t < f_stat n_tapers x_p H0 k.
Proof.
  unfold detected_indices. rewrite filter_In, in_seq, exceeds_iff.
  unfold threshold. intuition lia.
Qed.

Section Detection.

Variable dpss_windows : Z -> R -> Z -> Z -> list (list R).
Variable _mt_spectra : list R -> list (list R) -> R -> list (list C) * list R.
Variable f_ppf : R -> Z -> Z -> option R.
Variable np_angle : C -> R.

(** In detection mode a call on a non-empty channel returns, and what it
    removes is decided by [detected_indices]. *)
Lemma detection_run (x : list R) (sfreq : R) (notch_widths : list R)
    (mt_bandwidth : option R) (p_value half_nbw : R) :
  (1 <= len x)%Z ->
  half_nbw_of mt_bandwidth (len x) sfreq = Ok half_nbw ->
  let window_fun := window_fun_of dpss_windows (len x) half_nbw in
  let H0 := H0_of window_fun in
  let x_p := fst (_mt_spectra x window_fun sfreq) in
  let freqs := snd (_mt_spectra x window_fun sfreq) in
  _mt_spectrum_remove dpss_windows _mt_spectra f_ppf np_angle x sfreq None
    notch_widths mt_bandwidth p_value
  = (notch_widths,
     Ok (removal np_angle x sfreq x_p H0 freqs
           (detected_indices f_ppf p_value (len x) (len window_fun) x_p H0
              freqs))).
Proof.
  intros Hx Hnbw. cbv zeta. unfold _mt_spectrum_remove. rewrite Hnbw.
  destruct (Z.eqb_spec (len x) 0) as [E|E]; [lia|]. reflexivity.
Qed.

(** C4 does not hold of the code: in detection mode, for a non-empty
    channel, a frequency bin is flagged if and only if its F statistic
    exceeds the [1 - p/n] quantile of the F(2, 2 tapers - 2) distribution
    where [n] is [n_times], the number of samples of the channel, and not
    the number of frequency bins tested, which is the length of [freqs] and
    the divisor that the claim and the docstring of [notch_filter]
    ("Bonferroni corrected for the number of frequencies") give. *)
Theorem flagged_iff_above_quantile (x : list R) (sfreq : R)
    (notch_widths : list R) (mt_bandwidth : option R)
    (p_value half_nbw : R) :
  (1 <= len x)%Z ->
  half_nbw_of mt_bandwidth (len x) sfreq = Ok half_nbw ->
  let window_fun := window_fun_of dpss_windows (len x) half_nbw in
  let n_tapers := len window_fun in
  let H0 := H0_of window_fun in
  let x_p := fst (_mt_spectra x window_fun sfreq) in
  let freqs := snd (_mt_spectra x window_fun sfreq) in
  exists indices,
    _mt_spectrum_remove dpss_windows _mt_spectra f_ppf np_angle x sfreq None
      notch_widths mt_bandwidth p_value
    = (notch_widths, Ok (removal np_angle x sfreq x_p H0 freqs indices))
    /\ forall k,
         In k indices
         <-> (k < length freqs)%nat
             /\ exists t,
                  f_ppf (1 - p_value / IZR (len x)) 2 (2 * n_tapers - 2)%Z
                  = Some t
                  /\ t < f_stat n_tapers x_p H0 k.
Proof.
  intros Hx Hnbw. cbv zeta. eexists. split.
  - now apply detection_run.
  - intros k. apply in_detected_indices.
Qed.


End Detection.

Lemma f_stat_peak : f_stat 2 xp_peak [1] 1 = 100.
Proof.
  unfold f_stat, f_num, f_den, amplitude, H0_sq_of, xp_peak.
  cbn [alternate fst snd zip_with map bin nth Rsum Csum fold_right].
  rewrite !Cabs_sq. unfold Cdiv_real, Cadd, Cscale, Csub. cbn [fst snd].
  replace (1 * 1 + 0) with 1 by lra.
  unfold guard_zero. rewrite (proj2 (Req_bool_false _ 0)) by lra.
  change (IZR (2 - 1)) with 1. cbn [divide]. field_simplify. lra.
Qed.

Lemma H0_two_tapers : H0_of [[1]; [1]] = [1].
Proof.
  unfold H0_of, Rsum. cbn [alternate fst map fold_right]. f_equal. lra.
Qed.

(** C4 as stated fails on [_mt_spectrum_remove]: for a channel of 8
    samples with two tapers, 4 frequency bins and [p = 0.05], the statistic
    100 of bin 1 exceeds the quantile for [1 - p/4], which is 79, so the
    bin is flagged when the level is divided by the number of bins tested;
    the call compares with the quantile for [1 - p/8], which is 159, and
    bin 1 is not among the bins it removes. *)
Lemma bins_tested_are_not_the_divisor :
  (exists indices,
     _mt_spectrum_remove two_tapers peak_spectrum f2_ppf zero_angle
       [5; 5; 5; 5; 5; 5; 5; 5] 1000 None [] None (1 / 20)
     = ([], Ok (removal zero_angle [5; 5; 5; 5; 5; 5; 5; 5] 1000 xp_peak
                  (H0_of [[1]; [1]]) fr_peak indices))
     /\ ~ In 1%nat indices)
  /\ In 1%nat
       (specified_detected f2_ppf (1 / 20) 2 xp_peak (H0_of [[1]; [1]])
          fr_peak).
Proof.
  split.
  - eexists. split.
    + apply (detection_run two_tapers peak_spectrum f2_ppf zero_angle
               [5; 5; 5; 5; 5; 5; 5; 5] 1000 [] None (1 / 20) 4);
        [cbn; lia|reflexivity].
    + change (~ In 1%nat
                (detected_indices f2_ppf (1 / 20) 8 2 xp_peak
                   (H0_of [[1]; [1]]) fr_peak)).
      rewrite H0_two_tapers, in_detected_indices.
      intros (_ & t & Ht & Hlt).
      change (2 * 2 - 2)%Z with 2%Z in Ht.
      rewrite f2_ppf_2_2 in Ht by lra.
      injection Ht as <-. rewrite f_stat_peak in Hlt.
      assert (E : (1 - 1 / 20 / 8) / (1 - (1 - 1 / 20 / 8)) = 159) by field.
      rewrite E in Hlt. lra.
  - rewrite H0_two_tapers.
    unfold specified_detected. apply filter_In. split.
    + apply in_seq. cbn. lia.
    + apply exceeds_iff. exists 79. split.
      * change (2 * 2 - 2)%Z with 2%Z. cbn [fr_peak len length Z.of_nat].
        rewrite f2_ppf_2_2 by (cbn; lra). f_equal. cbn. field.
      * rewrite f_stat_peak. lra.
Qed.

Lemma flagged_iff_above_quantile_witness :
  (1 <= len [5])%Z
  /\ half_nbw_of None (len [5]) 1000 = Ok 4
  /\ exists indices,
       _mt_spectrum_remove two_tapers peak_spectrum f2_ppf zero_angle [5] 1000
         None [] None (1 / 20)
       = ([], Ok (removal zero_angle [5] 1000 xp_peak (H0_of [[1]; [1]])
                    fr_peak indices)).
Proof.
  assert (H1 : (1 <= len [5])%Z) by (cbn; lia).
  assert (H2 : half_nbw_of None (len [5]) 1000 = Ok 4) by reflexivity.
  split; [exact H1|]. split; [exact H2|].
  destruct (flagged_iff_above_quantile two_tapers peak_spectrum f2_ppf
              zero_angle [5] 1000 [] None (1 / 20) 4 H1 H2)
    as (indices & Hrun & _).
  exists indices. exact Hrun.
Defined.



(** *** The notch widths are one array for all channels *)

Lemma nearest_to_50 : nearest_bins fr4 [50] = Ok [2%nat].
Proof.
  unfold nearest_bins, nearest_bin, fr4.
  cbn [length Nat.sub seq first_min_R nth bind].
  settle_abs. settle_reals. cbn. settle_abs. settle_reals. cbn.
  settle_abs. settle_reals. reflexivity.
Qed.

Lemma indices_width_8 :
  requested_indices fr4 [2%nat] [50] [8 / 2] = [1; 2; 3]%nat.
Proof.
  unfold requested_indices, in_notch, fr4. cbn. settle_reals. reflexivity.
Qed.

Lemma indices_width_4 :
  requested_indices fr4 [2%nat] [50] [8 / 2 / 2] = [2]%nat.
Proof.
  unfold requested_indices, in_notch, fr4. cbn. settle_reals. reflexivity.
Qed.

(** Every successful call with explicit line frequencies leaves the
    caller's [notch_widths] halved. *)
Lemma remove_at_50 (p : R) (nw : list R) :
  _mt_spectrum_remove one_taper flat_spectrum no_ppf zero_angle [10] 1000
    (Some [50]) nw None p
  = (map (fun w => w / 2) nw,
     Ok (removal zero_angle [10] 1000 xp4 (H0_of [[1]]) fr4
           (requested_indices fr4 [2%nat] [50] (map (fun w => w / 2) nw)))).
Proof.
  unfold _mt_spectrum_remove, half_nbw_of, window_fun_of, one_taper,
    flat_spectrum. cbn [fst snd]. rewrite nearest_to_50. reflexivity.
Qed.

Lemma fit_at (k : nat) :
  (1 <= k <= 3)%nat ->
  fit zero_angle (amplitude xp4 (H0_of [[1]])) fr4 (rads_of (len [10]) 1000) k
  = [2].
Proof.
  intros Hk.
  assert (D : k = 1%nat \/ k = 2%nat \/ k = 3%nat) by lia.
  unfold fit, amplitude, rads_of, H0_sq_of, H0_of, zero_angle, xp4, fr4, len.
  cbn [length]. rewrite Nat2Z.id.
  destruct D as [->|[->| ->]];
    cbn [alternate fst snd zip_with bin nth Csum fold_right map arange seq
         Z.of_nat Rsum];
    unfold Cscale, Cadd, Cdiv_real; cbn [fst snd];
    match goal with |- context [Cabs ?z] =>
      replace z with (2, 0) by (apply f_equal2; field) end;
    rewrite Cabs_real by lra; f_equal;
    match goal with |- context [cos ?a] =>
      replace a with 0 by (cbn [IZR]; lra) end;
    rewrite cos_0; lra.
Qed.

Lemma removal_width_8 :
  removal zero_angle [10] 1000 xp4 (H0_of [[1]]) fr4 [1; 2; 3]%nat
  = ([10 - (2 + (2 + (2 + 0)))], [47; 50; 53]).
Proof.
  unfold removal. cbn [map]. rewrite !fit_at by lia. reflexivity.
Qed.

Lemma removal_width_4 :
  removal zero_angle [10] 1000 xp4 (H0_of [[1]]) fr4 [2]%nat
  = ([10 - (2 + 0)], [50]).
Proof.
  unfold removal. cbn [map]. rewrite !fit_at by lia. reflexivity.
Qed.

(** C2 fails on the code: two channels with the same single sample, line
    frequency 50 Hz, notch width 8 Hz, bins at 0, 47, 50 and 53 Hz.  The
    channel processed alone, or first, loses the sinusoids at 47, 50 and
    53 Hz and becomes 4; the same channel processed second finds the
    widths halved once already, loses only the sinusoid at 50 Hz and
    becomes 8; afterwards the caller's widths hold a quarter of their
    value. *)
Theorem second_channel_sees_halved_widths :
  snd (_mt_spectrum_remove one_taper flat_spectrum no_ppf zero_angle [10]
         1000 (Some [50]) [8] None (1 / 20))
  = Ok ([10 - (2 + (2 + (2 + 0)))], [47; 50; 53])
  /\ _mt_spectrum_proc one_taper flat_spectrum no_ppf zero_angle
       (Array2d 1 [[10]; [10]]) 1000 (Some [50]) [8] None (1 / 20) None 1
       false
     = (Run (Array2d 1 [[10 - (2 + (2 + (2 + 0)))]; [10 - (2 + 0)]]) []
          (Ok (Array2d 1 [[10 - (2 + (2 + (2 + 0)))]; [10 - (2 + 0)]],
               [[47; 50; 53]; [50]])),
        [8 / 2 / 2])
  /\ 10 - (2 + (2 + (2 + 0))) = 4
  /\ 10 - (2 + 0) = 8.
Proof.
  split; [|split; [|split; lra]].
  - rewrite remove_at_50. cbn [map snd].
    now rewrite indices_width_8, removal_width_8.
  - unfold _mt_spectrum_proc. cbn [Z.eqb Pos.eqb shape0 rows length seq].
    unfold proc_serial, remove_row.
    cbn [arange seq map Z.of_nat existsb Z.eqb orb nth_error rows
         Pos.of_succ_nat Pos.succ Pos.eqb].
    rewrite remove_at_50. cbn [map].
    rewrite indices_width_8, removal_width_8.
    cbn -[Rdiv Rminus Rplus IZR _mt_spectrum_remove].
    rewrite remove_at_50. cbn [map].
    rewrite indices_width_4, removal_width_4.
    cbn -[Rdiv Rminus Rplus IZR _mt_spectrum_remove].
    reflexivity.
Qed.

End LineNoiseFacts.

(** ** Powers of two and the FFT size *)

Module FFTSizeFacts.

Import OverlapAdd.

Lemma land_pred_pow2 (k : Z) : 0 <= k -> Z.land (2 ^ k) (2 ^ k - 1) = 0.
Proof.
  intros Hk. replace (2 ^ k - 1) with (Z.ones k)
    by (rewrite Z.ones_equiv; lia).
  rewrite Z.land_ones by assumption. apply Z.mod_same.
  pose proof (Z.pow_pos_nonneg 2 k); lia.
Qed.

Lemma is_power2_pow2 (k : Z) : 0 <= k -> is_power2 (2 ^ k) = true.
Proof.
  intros Hk. unfold is_power2. rewrite land_pred_pow2 by assumption.
  pose proof (Z.pow_pos_nonneg 2 k ltac:(lia) Hk).
  destruct (Z.eqb_spec (2 ^ k) 0); [lia|]. reflexivity.
Qed.

Lemma is_power2_inv (num : Z) :
  is_power2 num = true -> exists k, 0 <= k /\ num = 2 ^ k.
Proof.
  unfold is_power2. intros H. apply andb_true_iff in H. destruct H as [H0 Hl].
  apply negb_true_iff, Z.eqb_neq in H0. apply Z.eqb_eq in Hl.
  assert (Hpos : 0 < num).
  { destruct (Z.lt_trichotomy num 0) as [Hn|[Hn|Hn]]; [|lia|assumption].
    assert (Z.land num (num - 1) < 0) by (apply Z.land_neg; lia). lia. }
  exists (Z.log2 num). split; [apply Z.log2_nonneg|].
  destruct (Z.log2_spec num Hpos) as [Hlo Hhi].
  destruct (Z.eq_dec num (2 ^ Z.log2 num)) as [E|E]; [assumption|].
  exfalso.
  assert (Hk : Z.log2 (num - 1) = Z.log2 num).
  { apply Z.log2_unique; [apply Z.log2_nonneg|]. lia. }
  assert (B1 : Z.testbit num (Z.log2 num) = true)
    by (now apply Z.bit_log2).
  assert (B2 : Z.testbit (num - 1) (Z.log2 num) = true).
  { rewrite <- Hk. apply Z.bit_log2.
    pose proof (Z.pow_pos_nonneg 2 (Z.log2 num) ltac:(lia)
                  (Z.log2_nonneg num)). lia. }
  assert (B : Z.testbit (Z.land num (num - 1)) (Z.log2 num) = true)
    by (now rewrite Z.land_spec, B1, B2).
  rewrite Hl, Z.bits_0 in B. discriminate B.
Qed.

(** [is_power2] answers [True] exactly on the numbers 1, 2, 4, 8, ...; it
    answers [False] on 0 and on every negative number. *)
Theorem is_power2_iff (num : Z) :
  is_power2 num = true <-> exists k, 0 <= k /\ num = 2 ^ k.
Proof.
  split.
  - apply is_power2_inv.
  - intros (k & Hk & ->). now apply is_power2_pow2.
Qed.

Lemma pow2_log2_up_ge (a : Z) : 1 <= a -> a <= 2 ^ Z.log2_up a.
Proof.
  intros Ha. destruct (Z.eq_dec a 1) as [->|Hne]; [cbn; lia|].
  apply (Z.log2_up_spec a). lia.
Qed.

Lemma ceil_div_cover (a b : Z) :
  0 < b -> (ceil_div a b - 1) * b < a <= ceil_div a b * b.
Proof.
  intros Hb. unfold ceil_div.
  pose proof (Z.div_mod (- a) b ltac:(lia)) as Hdm.
  pose proof (Z.mod_pos_bound (- a) b Hb) as Hm.
  nia.
Qed.

Lemma choose_n_fft_result (py : interpreter) (n_h n_x : Z)
    (zero_phase : bool) (N : Z) :
  1 <= n_h -> 1 <= n_x ->
  choose_n_fft py n_h n_x zero_phase = Ok N ->
  exists k, 0 <= k /\ N = 2 ^ k /\ n_h <= N.
Proof.
  intros Hh Hx. unfold choose_n_fft.
  destruct (Z.ltb_spec n_h n_x).
  - destruct (Z.leb_spec n_h 0); [discriminate|].
    set (n_tot := if zero_phase then 2 * n_x else n_x).
    destruct (exponents n_h n_tot) as [|k0 ks] eqn:E; [discriminate|].
    cbn. intros [= <-].
    pose proof (PlannerFacts.first_min_in (cost py n_tot n_h) ks k0) as Hin.
    rewrite <- E in Hin. apply PlannerFacts.in_exponents in Hin.
    exists (first_min (cost py n_tot n_h) k0 ks).
    pose proof (Z.log2_up_nonneg n_h).
    split; [lia|]. split; [reflexivity|].
    pose proof (pow2_log2_up_ge n_h Hh).
    assert (2 ^ Z.log2_up n_h <= 2 ^ first_min (cost py n_tot n_h) k0 ks)
      by (apply Z.pow_le_mono_r; lia).
    lia.
  - destruct (Z.ltb_spec (n_x + n_h - 1) 0); [discriminate|].
    destruct (Z.eqb_spec (n_x + n_h - 1) 0); [discriminate|].
    intros [= <-]. exists (Z.log2_up (n_x + n_h - 1)).
    split; [apply Z.log2_up_nonneg|]. split; [reflexivity|].
    pose proof (pow2_log2_up_ge (n_x + n_h - 1) ltac:(lia)). lia.
Qed.

Section Plans.

Variable fft : list R -> list C.

(** What every plan that [prepare] returns satisfies. *)
Lemma prepare_plan (py : interpreter) (x : array2d) (h : list R)
    (n_fft : option Z) (zero_phase : bool) (w : list warning) (pl : plan) :
  prepare fft py x h n_fft zero_phase = (w, Ok pl) ->
  let n_x := Z.of_nat (shape1 x) + 2 * plan_n_edge pl - 2 in
  plan_n_edge pl = Z.min (len h) (Z.of_nat (shape1 x))
  /\ len h <= plan_n_fft pl
  /\ 0 < plan_n_fft pl
  /\ plan_n_seg pl = plan_n_fft pl - len h + 1
  /\ plan_n_segments pl = ceil_div n_x (plan_n_seg pl)
  /\ w = (if is_power2 (plan_n_fft pl) then [] else [FFTLengthNotPower2])
  /\ match n_fft with
     | Some n => plan_n_fft pl = n
     | None => choose_n_fft py (len h) n_x zero_phase = Ok (plan_n_fft pl)
     end.
Proof.
  unfold prepare.
  destruct (match n_fft with
            | Some n => Ok n
            | None => _
            end) as [n|e] eqn:En; [|discriminate].
  destruct (Z.leb_spec n 0); [discriminate|].
  unfold np_zeros. destruct (Z.ltb_spec (n - len h) 0); [discriminate|].
  intros [= <- <-]. cbn [plan_n_edge plan_n_fft plan_n_seg plan_n_segments].
  repeat split; try lia.
  destruct n_fft as [n'|]; [now injection En|exact En].
Qed.

(** Whatever the FFT size, a plan has an FFT size not shorter than the
    kernel, segments of [n_seg = n_fft - n_h + 1] samples, which is at least
    one, and [n_segments] of them are just enough to cover the extended
    signal. *)
Theorem plan_segments_cover (py : interpreter) (x : array2d) (h : list R)
    (n_fft : option Z) (zero_phase : bool) (w : list warning) (pl : plan) :
  prepare fft py x h n_fft zero_phase = (w, Ok pl) ->
  let n_x := Z.of_nat (shape1 x) + 2 * Z.min (len h) (Z.of_nat (shape1 x)) - 2 in
  len h <= plan_n_fft pl
  /\ plan_n_seg pl = plan_n_fft pl - len h + 1
  /\ 1 <= plan_n_seg pl
  /\ (plan_n_segments pl - 1) * plan_n_seg pl < n_x
       <= plan_n_segments pl * plan_n_seg pl.
Proof.
  intros Hp. destruct (prepare_plan _ _ _ _ _ _ _ Hp)
    as (He & Hn & Hpos & Hs & Hsg & _).
  cbv zeta in *. rewrite <- He, Hsg.
  assert (Hseg : 1 <= plan_n_seg pl) by lia.
  pose proof (ceil_div_cover
                (Z.of_nat (shape1 x) + 2 * plan_n_edge pl - 2)
                (plan_n_seg pl) ltac:(lia)).
  repeat split; try assumption; lia.
Qed.

(** The size the planner chooses by itself, for a kernel and a signal of at
    least one sample, is a power of two not shorter than the kernel: the
    plan is made and no warning is issued.  The one exception is a signal
    longer than the kernel whose range of candidate sizes is empty. *)
Theorem automatic_n_fft_passes_checks (py : interpreter) (x : array2d)
    (h : list R) (zero_phase : bool) :
  1 <= len h -> (1 <= shape1 x)%nat ->
  let n_x := Z.of_nat (shape1 x) + 2 * Z.min (len h) (Z.of_nat (shape1 x)) - 2 in
  let n_tot := if zero_phase then 2 * n_x else n_x in
  (n_x <= len h \/ Z.log2_up (len h) < Z.log2 n_tot) ->
  exists pl k,
    prepare fft py x h None zero_phase = ([], Ok pl)
    /\ 0 <= k /\ plan_n_fft pl = 2 ^ k /\ len h <= plan_n_fft pl.
Proof.
  intros Hh Hx n_x n_tot Hrange.
  assert (Hnx : 1 <= n_x) by (subst n_x; lia).
  assert (Hc : exists N, choose_n_fft py (len h) n_x zero_phase = Ok N).
  { unfold choose_n_fft. fold n_tot.
    destruct (Z.ltb_spec (len h) n_x).
    - destruct (Z.leb_spec (len h) 0); [lia|].
      destruct Hrange as [Hle|Hlt]; [lia|].
      destruct (PlannerFacts.argmin_spec (cost py n_tot (len h))
                  (exponents (len h) n_tot)) as (k & -> & _); [|eauto].
      intros E.
      assert (Hk : In (Z.log2_up (len h)) (exponents (len h) n_tot))
        by (apply PlannerFacts.in_exponents; lia).
      rewrite E in Hk. destruct Hk.
    - destruct (Z.ltb_spec (n_x + len h - 1) 0); [lia|].
      destruct (Z.eqb_spec (n_x + len h - 1) 0); [lia|]. eauto. }
  destruct Hc as [N HN].
  destruct (choose_n_fft_result py (len h) n_x zero_phase N Hh Hnx HN)
    as (k & Hk & -> & Hge).
  unfold prepare. fold n_x. rewrite HN.
  pose proof (Z.pow_pos_nonneg 2 k ltac:(lia) Hk).
  destruct (Z.leb_spec (2 ^ k) 0); [lia|].
  rewrite is_power2_pow2 by assumption.
  unfold np_zeros. destruct (Z.ltb_spec (2 ^ k - len h) 0); [lia|].
  eexists _, k. split; [reflexivity|]. cbn. auto.
Qed.

(** A signal longer than the kernel for which
    [floor(log2 n_tot) <= ceil(log2 n_h)] leaves the planner no candidate
    size: [np.argmin] of the empty cost array ends the call with a
    [ValueError] and the array is not touched. *)
Theorem automatic_n_fft_without_candidates
    (fft_multiply_repeated : list C -> list R -> list R)
    (py : interpreter) (x : array2d) (h : list R) (zero_phase : bool)
    (picks : option (list Z)) (n_jobs : Z) :
  1 <= len h ->
  let n_x := Z.of_nat (shape1 x) + 2 * Z.min (len h) (Z.of_nat (shape1 x)) - 2 in
  let n_tot := if zero_phase then 2 * n_x else n_x in
  len h < n_x ->
  Z.log2 n_tot <= Z.log2_up (len h) ->
  _overlap_add_filter fft fft_multiply_repeated py x h None zero_phase picks
    n_jobs
  = Run x [] (Raise (ValueError "attempt to get argmin of an empty sequence")).
Proof.
  intros Hh n_x n_tot Hlong Hempty.
  unfold _overlap_add_filter, prepare. fold n_x. unfold choose_n_fft.
  fold n_tot.
  destruct (Z.ltb_spec (len h) n_x); [|lia].
  destruct (Z.leb_spec (len h) 0); [lia|].
  unfold exponents.
  replace (Z.to_nat (Z.log2 n_tot - Z.log2_up (len h))) with O by lia.
  reflexivity.
Qed.

(** A requested FFT size that is not shorter than the kernel is accepted;
    the only consequence of a size that is not a power of two is the
    warning, and the warning is issued for exactly those sizes. *)
Theorem requested_n_fft_warns_unless_power2 (py : interpreter) (x : array2d)
    (h : list R) (n : Z) (zero_phase : bool) :
  1 <= n -> len h <= n ->
  exists w pl,
    prepare fft py x h (Some n) zero_phase = (w, Ok pl)
    /\ plan_n_fft pl = n
    /\ (w = [] <-> exists k, 0 <= k /\ n = 2 ^ k)
    /\ (w <> [] -> w = [FFTLengthNotPower2]).
Proof.
  intros Hn Hh. unfold prepare.
  destruct (Z.leb_spec n 0); [lia|].
  unfold np_zeros. destruct (Z.ltb_spec (n - len h) 0); [lia|].
  eexists _, _. split; [reflexivity|]. cbn [plan_n_fft].
  split; [reflexivity|].
  destruct (is_power2 n) eqn:E.
  - split; [|congruence]. split; [|reflexivity].
    intros _. now apply is_power2_inv.
  - split; [|reflexivity]. split; [discriminate|].
    intros (k & Hk & ->). rewrite is_power2_pow2 in E by assumption.
    discriminate E.
Qed.

End Plans.

Lemma plan_segments_cover_witness :
  exists w pl,
    prepare Fixtures.plain_fft Python3 (Array2d 4 [[1; 2; 3; 4]]%R) [1; 1]%R
      (Some 6) true = (w, Ok pl)
    /\ len [1; 1]%R <= plan_n_fft pl
    /\ plan_n_seg pl = plan_n_fft pl - len [1; 1]%R + 1
    /\ 1 <= plan_n_seg pl
    /\ (plan_n_segments pl - 1) * plan_n_seg pl < 6
         <= plan_n_segments pl * plan_n_seg pl.
Proof.
  eexists _, _. split; [reflexivity|].
  exact (plan_segments_cover Fixtures.plain_fft Python3 (Array2d 4 [[1; 2; 3; 4]]%R) [1; 1]%R
           (Some 6) true _ _ eq_refl).
Defined.

Lemma automatic_n_fft_passes_checks_witness :
  1 <= len [1; 1]%R /\ (1 <= 4)%nat
  /\ exists pl k,
       prepare Fixtures.plain_fft Python3 (Array2d 4 [[1; 2; 3; 4]]%R)
         [1; 1]%R None true = ([], Ok pl)
       /\ 0 <= k /\ plan_n_fft pl = 2 ^ k /\ len [1; 1]%R <= plan_n_fft pl.
Proof.
  assert (H1 : 1 <= len [1; 1]%R) by (cbn; lia).
  assert (H2 : (1 <= 4)%nat) by lia.
  split; [exact H1|]. split; [exact H2|].
  apply (automatic_n_fft_passes_checks Fixtures.plain_fft Python3 (Array2d 4 [[1; 2; 3; 4]]%R)
           [1; 1]%R true H1 H2).
  right. vm_compute. reflexivity.
Defined.

Lemma automatic_n_fft_without_candidates_witness :
  1 <= len [1; 1; 1; 1; 1]%R
  /\ _overlap_add_filter Fixtures.plain_fft Fixtures.pass_through Python3
       (Array2d 3 [[1; 2; 3]]%R) [1; 1; 1; 1; 1]%R None true None 1
     = Run (Array2d 3 [[1; 2; 3]]%R) []
         (Raise (ValueError "attempt to get argmin of an empty sequence")).
Proof.
  assert (H1 : 1 <= len [1; 1; 1; 1; 1]%R) by (cbn; lia).
  split; [exact H1|].
  apply (automatic_n_fft_without_candidates Fixtures.plain_fft
           Fixtures.pass_through Python3 (Array2d 3 [[1; 2; 3]]%R)
           [1; 1; 1; 1; 1]%R true None 1 H1).
  - cbn. lia.
  - vm_compute. discriminate.
Defined.

Lemma requested_n_fft_warns_unless_power2_witness :
  1 <= 6 /\ len [1; 1]%R <= 6
  /\ exists w pl,
       prepare Fixtures.plain_fft Python3 (Array2d 4 [[1; 2; 3; 4]]%R)
         [1; 1]%R (Some 6) false = (w, Ok pl)
       /\ w = [FFTLengthNotPower2].
Proof.
  assert (H1 : 1 <= 6) by lia.
  assert (H2 : len [1; 1]%R <= 6) by (cbn; lia).
  split; [exact H1|]. split; [exact H2|].
  destruct (requested_n_fft_warns_unless_power2 Fixtures.plain_fft Python3
              (Array2d 4 [[1; 2; 3; 4]]%R) [1; 1]%R 6 false H1 H2)
    as (w & pl & Hp & _ & _ & Hw).
  exists w, pl. split; [exact Hp|].
  apply Hw. intros E. rewrite E in Hp. discriminate Hp.
Defined.

End FFTSizeFacts.

(** ** Lengths through the filtering engines *)

Module EngineFacts.

Import OverlapAdd.

Lemma zip_with_length {A B D : Type} (f : A -> B -> D) (l : list A)
    (m : list B) :
  length (zip_with f l m) = Nat.min (length l) (length m).
Proof.
  revert m. induction l as [|a l IH]; intros [|b m]; cbn; auto.
Qed.

Lemma slice_length {A : Type} (l : list A) (a b : Z) :
  0 <= a -> 0 <= b ->
  len (slice l a b) = Z.max 0 (Z.min b (len l) - Z.min a (len l)).
Proof.
  intros Ha Hb. unfold slice, clamp_fwd, len.
  destruct (Z.ltb_spec a 0); [lia|]. destruct (Z.ltb_spec b 0); [lia|].
  rewrite length_firstn, length_skipn. lia.
Qed.

Lemma iadd_slice_ok (acc v : list R) (s e : Z) :
  0 <= s <= e -> e <= len acc -> len v = e - s ->
  exists acc', iadd_slice acc s e v = Ok acc' /\ len acc' = len acc.
Proof.
  unfold iadd_slice, clamp_fwd, len. intros Hs He Hv.
  destruct (Z.ltb_spec s 0); [lia|]. destruct (Z.ltb_spec e 0); [lia|].
  rewrite !Z.min_l by lia.
  set (tgt := firstn (Z.to_nat e - Z.to_nat s) (skipn (Z.to_nat s) acc)).
  assert (Ht : length tgt = (Z.to_nat e - Z.to_nat s)%nat).
  { unfold tgt. rewrite length_firstn, length_skipn. lia. }
  unfold broadcast_to.
  destruct (Nat.eqb_spec (length v) (length tgt)) as [E|E]; [|lia].
  cbn. eexists. split; [reflexivity|].
  rewrite !length_app, zip_with_length, length_firstn, length_skipn. lia.
Qed.

Section Segments.

Variable fft_multiply_repeated : list C -> list R -> list R.
Hypothesis multiply_keeps_length :
  forall H v, length (fft_multiply_repeated H v) = length v.

Variables (h_fft : list C) (n_fft n_seg n_x : Z).
Hypothesis seg_fits : 1 <= n_seg <= n_fft.

Lemma one_segment_ok (filter_input x_filtered : list R) (seg_idx : Z) :
  len filter_input = n_x -> len x_filtered = n_x ->
  0 <= seg_idx -> seg_idx * n_seg < n_x ->
  exists y,
    one_segment fft_multiply_repeated h_fft n_fft n_seg n_x filter_input
      x_filtered seg_idx = Ok y
    /\ len y = n_x.
Proof.
  intros Hin Hout Hidx Hstart. unfold one_segment.
  replace ((seg_idx + 1) * n_seg) with (seg_idx * n_seg + n_seg) by ring.
  assert (Hs0 : 0 <= seg_idx * n_seg) by nia.
  set (s := seg_idx * n_seg) in *.
  assert (Hseg := slice_length filter_input s (s + n_seg) Hs0 ltac:(lia)).
  rewrite Hin in Hseg.
  unfold np_zeros.
  destruct (Z.ltb_spec (n_fft - len (slice filter_input s (s + n_seg))) 0);
    [lia|]. cbn [bind].
  set (seg := slice filter_input s (s + n_seg)) in *.
  set (prod := fft_multiply_repeated h_fft
                 (seg ++ repeat 0%R (Z.to_nat (n_fft - len seg)))).
  assert (Hprod : len prod = n_fft).
  { unfold prod, len. rewrite multiply_keeps_length, length_app, repeat_length.
    unfold len in *. lia. }
  destruct (Z.ltb_spec (s + n_fft) n_x).
  - destruct (iadd_slice_ok x_filtered prod s (s + n_fft)) as (y & Hy & Hl);
      try lia.
    exists y. split; [exact Hy|lia].
  - assert (Hcut := slice_length prod 0 (n_x - s) ltac:(lia) ltac:(lia)).
    rewrite Hprod in Hcut.
    destruct (iadd_slice_ok x_filtered (slice prod 0 (n_x - s)) s
                (len x_filtered)) as (y & Hy & Hl); try lia.
    exists y. split; [exact Hy|lia].
Qed.

Lemma segments_ok (seg_idxs : list Z) (filter_input x_filtered : list R) :
  len filter_input = n_x -> len x_filtered = n_x ->
  Forall (fun i => 0 <= i /\ i * n_seg < n_x) seg_idxs ->
  exists y,
    segments fft_multiply_repeated h_fft n_fft n_seg n_x filter_input
      x_filtered seg_idxs = Ok y
    /\ len y = n_x.
Proof.
  intros Hin. revert x_filtered.
  induction seg_idxs as [|i rest IH]; intros x_filtered Hout Hall; cbn.
  - eauto.
  - apply Forall_cons_iff in Hall. destruct Hall as [[Hi0 Hi] Hrest].
    destruct (one_segment_ok filter_input x_filtered i Hin Hout Hi0 Hi)
      as (y & -> & Hy). cbn. now apply IH.
Qed.

Lemma one_pass_ok (n_segments : Z) (filter_input : list R) :
  len filter_input = n_x ->
  (n_segments - 1) * n_seg < n_x ->
  exists y,
    one_pass fft_multiply_repeated h_fft n_fft n_seg n_segments n_x
      filter_input = Ok y
    /\ len y = n_x.
Proof.
  intros Hin Hcover. unfold one_pass. apply segments_ok.
  - assumption.
  - unfold len in *. rewrite repeat_length. lia.
  - unfold arange. apply Forall_forall. intros i Hi.
    apply in_map_iff in Hi. destruct Hi as (k & <- & Hk).
    apply in_seq in Hk. split; [lia|]. nia.
Qed.

End Segments.

Lemma trimmed_length (xf : list R) (n_edge n : Z) :
  2 <= n_edge -> 0 <= n -> len xf = n + 2 * (n_edge - 1) ->
  len (slice xf (n_edge - 1) (- n_edge + 1)) = n.
Proof.
  intros He Hn Hl. unfold slice, clamp_fwd, len in *.
  destruct (Z.ltb_spec (n_edge - 1) 0); [lia|].
  destruct (Z.ltb_spec (- n_edge + 1) 0); [|lia].
  rewrite length_firstn, length_skipn. lia.
Qed.

Lemma untrimmed_edge_is_empty (xf : list R) : slice xf (1 - 1) (- 1 + 1) = [].
Proof.
  unfold slice. cbn [Z.sub Z.add Z.opp Z.pos_sub].
  now rewrite Z.sub_diag.
Qed.

Section Channel.

Variable fft_multiply_repeated : list C -> list R -> list R.
Hypothesis multiply_keeps_length :
  forall H v, length (fft_multiply_repeated H v) = length v.

Lemma overlap_filter_ok (x : list R) (h_fft : list C)
    (n_edge n_fft : Z) (zero_phase : bool) (n_segments n_seg : Z) :
  2 <= n_edge <= len x ->
  1 <= n_seg <= n_fft ->
  (n_segments - 1) * n_seg < len x + 2 * (n_edge - 1) ->
  exists y,
    _1d_overlap_filter fft_multiply_repeated x h_fft n_edge n_fft zero_phase
      n_segments n_seg = Ok y
    /\ length y = length x.
Proof.
  intros He Hseg Hcover. unfold _1d_overlap_filter.
  rewrite MirrorFacts.x_ext_value by lia. cbn [bind].
  pose proof (MirrorFacts.x_ext_length x n_edge ltac:(lia)) as Hxe.
  match goal with |- context [one_pass _ _ _ _ _ (len ?e) ?e] =>
    set (xe := e) in * end.
  destruct (one_pass_ok fft_multiply_repeated multiply_keeps_length h_fft
              n_fft n_seg (len xe) Hseg n_segments xe eq_refl
              ltac:(rewrite Hxe; exact Hcover)) as (p0 & -> & Hp0).
  cbn [bind].
  assert (Hx0 : 0 <= len x) by (unfold len; lia).
  destruct zero_phase.
  - destruct (one_pass_ok fft_multiply_repeated multiply_keeps_length h_fft
                n_fft n_seg (len xe) Hseg n_segments (rev p0)) as (p1 & -> & Hp1).
    + unfold len in *. now rewrite length_rev.
    + rewrite Hxe. exact Hcover.
    + cbn [bind]. eexists. split; [reflexivity|].
      rewrite length_rev.
      pose proof (trimmed_length p1 n_edge (len x) ltac:(lia) Hx0
                    ltac:(lia)) as Ht.
      unfold len in Ht. lia.
  - cbn [bind]. eexists. split; [reflexivity|].
    pose proof (trimmed_length p0 n_edge (len x) ltac:(lia) Hx0
                  ltac:(lia)) as Ht.
    unfold len in Ht. lia.
Qed.

End Channel.

Lemma overlap_filter_edge_1 (fft_multiply_repeated : list C -> list R -> list R)
    (x : list R) (h_fft : list C) (n_fft : Z) (zero_phase : bool)
    (n_segments n_seg : Z) (y : list R) :
  _1d_overlap_filter fft_multiply_repeated x h_fft 1 n_fft zero_phase
    n_segments n_seg = Ok y ->
  y = [].
Proof.
  unfold _1d_overlap_filter.
  destruct (x_ext x 1) as [xe|]; [|discriminate]. cbn [bind].
  destruct (one_pass _ _ _ _ _ _ xe) as [p0|]; [|discriminate]. cbn [bind].
  destruct zero_phase.
  - destruct (one_pass _ _ _ _ _ _ (rev p0)) as [p1|]; [|discriminate].
    cbn [bind]. rewrite untrimmed_edge_is_empty. now intros [= <-].
  - cbn [bind]. rewrite untrimmed_edge_is_empty. now intros [= <-].
Qed.

(** [_1d_overlap_filter] returns a channel as long as the one it was given:
    for an edge width of at least 2 that fits the channel, segments of
    [1 <= n_seg <= n_fft] samples none of which starts at or past the end
    of the extended channel ([(n_segments - 1) * n_seg < n_x]), and a
    spectral multiply that returns as many samples as it receives. *)
Theorem overlap_filter_keeps_length
    (fft_multiply_repeated : list C -> list R -> list R)
    (x : list R) (h_fft : list C) (n_edge n_fft : Z) (zero_phase : bool)
    (n_segments n_seg : Z) :
  (forall H v, length (fft_multiply_repeated H v) = length v) ->
  2 <= n_edge <= len x ->
  1 <= n_seg <= n_fft ->
  (n_segments - 1) * n_seg < len x + 2 * (n_edge - 1) ->
  exists y,
    _1d_overlap_filter fft_multiply_repeated x h_fft n_edge n_fft zero_phase
      n_segments n_seg = Ok y
    /\ length y = length x.
Proof.
  intros Hm. now apply overlap_filter_ok.
Qed.

Lemma overlap_filter_keeps_length_witness :
  (forall (H : list C) (v : list R),
     length (Fixtures.pass_through H v) = length v)
  /\ 2 <= 2 <= len [1; 2; 3]%R
  /\ 1 <= 3 <= 4
  /\ (2 - 1) * 3 < len [1; 2; 3]%R + 2 * (2 - 1)
  /\ exists y,
       _1d_overlap_filter Fixtures.pass_through [1; 2; 3]%R [] 2 4 true 2 3
       = Ok y
       /\ length y = length [1; 2; 3]%R.
Proof.
  assert (H0 : forall (H : list C) (v : list R),
             length (Fixtures.pass_through H v) = length v)
    by reflexivity.
  assert (H1 : 2 <= 2 <= len [1; 2; 3]%R) by (cbn; lia).
  assert (H2 : 1 <= 3 <= 4) by lia.
  assert (H3 : (2 - 1) * 3 < len [1; 2; 3]%R + 2 * (2 - 1)) by (cbn; lia).
  split; [exact H0|]. split; [exact H1|]. split; [exact H2|].
  split; [exact H3|].
  exact (overlap_filter_keeps_length Fixtures.pass_through [1; 2; 3]%R [] 2 4
           true 2 3 H0 H1 H2 H3).
Defined.

(** *** Writing the filtered rows back *)

Lemma norm_index_valid (n p : Z) :
  - n <= p < n -> exists k, norm_index n p = Some k /\ Z.of_nat k < n.
Proof.
  intros Hp. unfold norm_index.
  destruct (Z.leb_spec 0 p); destruct (Z.ltb_spec p n); cbn; try lia.
  - eexists. split; [reflexivity|lia].
  - destruct (Z.leb_spec (- n) p); destruct (Z.ltb_spec p 0); cbn; try lia.
    eexists. split; [reflexivity|lia].
Qed.

Lemma replace_nth_Forall {A : Type} (P : A -> Prop) (l : list A) (k : nat)
    (a : A) :
  Forall P l -> P a -> Forall P (replace_nth l k a).
Proof.
  intros Hl Ha. revert k.
  induction Hl as [|b l Hb Hl IH]; intros [|k]; cbn; auto.
Qed.

Lemma getrow_ok (x : array2d) (p : Z) :
  wf_array x -> - Z.of_nat (shape0 x) <= p < Z.of_nat (shape0 x) ->
  exists r, getrow x p = Ok r /\ length r = shape1 x.
Proof.
  intros Hwf Hp. unfold getrow, getitem, len. unfold shape0 in Hp.
  destruct (norm_index_valid _ _ Hp) as (k & -> & Hk).
  destruct (nth_error (rows x) k) as [r|] eqn:E.
  - exists r. split; [reflexivity|].
    apply nth_error_In in E. unfold wf_array in Hwf.
    rewrite Forall_forall in Hwf. now apply Hwf.
  - apply nth_error_None in E. lia.
Qed.

Lemma setrow_ok (x : array2d) (p : Z) (y : list R) :
  wf_array x -> - Z.of_nat (shape0 x) <= p < Z.of_nat (shape0 x) ->
  length y = shape1 x ->
  exists x', setrow x p y = Ok x'
    /\ shape1 x' = shape1 x /\ shape0 x' = shape0 x /\ wf_array x'.
Proof.
  intros Hwf Hp Hy. unfold setrow, len. unfold shape0 in Hp.
  destruct (norm_index_valid _ _ Hp) as (k & -> & Hk).
  unfold broadcast_to. rewrite Hy, Nat.eqb_refl. cbn [bind].
  eexists. split; [reflexivity|]. cbn. split; [reflexivity|]. split.
  - unfold shape0. cbn. apply FrameFacts.replace_nth_length.
  - unfold wf_array. cbn. now apply replace_nth_Forall.
Qed.

Section Assign.

Variable f : list R -> result (list R).
Variable T : nat.
Hypothesis f_ok :
  forall r, length r = T -> exists y, f r = Ok y /\ length y = T.

Lemma assign_serial_ok (picks : list Z) (n : nat) (x : array2d) :
  shape1 x = T -> shape0 x = n -> wf_array x ->
  Forall (fun p => - Z.of_nat n <= p < Z.of_nat n) picks ->
  exists x', assign_serial f picks x = (x', Ok tt)
    /\ shape1 x' = T /\ shape0 x' = n /\ wf_array x'.
Proof.
  revert x. induction picks as [|p ps IH]; intros x HT Hn Hwf Hv; cbn.
  - eauto.
  - apply Forall_cons_iff in Hv. destruct Hv as [Hp Hps].
    rewrite <- Hn in Hp.
    destruct (getrow_ok x p Hwf Hp) as (r & -> & Hr). cbn [bind].
    destruct (f_ok r ltac:(congruence)) as (y & -> & Hy). cbn [bind].
    destruct (setrow_ok x p y Hwf Hp ltac:(congruence))
      as (x' & -> & H1 & H0 & Hwf').
    apply IH; congruence.
Qed.

Lemma map_rows_ok (picks : list Z) (x : array2d) :
  shape1 x = T -> wf_array x -> valid_picks x picks ->
  exists vs, map_rows f picks x = Ok vs
    /\ length vs = length picks /\ Forall (fun v => length v = T) vs.
Proof.
  intros HT Hwf. induction picks as [|p ps IH]; intros Hv; cbn.
  - eauto.
  - apply Forall_cons_iff in Hv. destruct Hv as [Hp Hps].
    destruct (getrow_ok x p Hwf Hp) as (r & -> & Hr). cbn [bind].
    destruct (f_ok r ltac:(congruence)) as (y & -> & Hy). cbn [bind].
    destruct (IH Hps) as (vs & -> & Hl & Hvs). cbn [bind].
    eexists. split; [reflexivity|]. cbn. auto.
Qed.

Lemma assign_each_ok (picks : list Z) (n : nat) (vs : list (list R))
    (x : array2d) :
  shape1 x = T -> shape0 x = n -> wf_array x ->
  Forall (fun p => - Z.of_nat n <= p < Z.of_nat n) picks ->
  length vs = length picks -> Forall (fun v => length v = T) vs ->
  exists x', assign_each picks vs x = (x', Ok tt)
    /\ shape1 x' = T /\ shape0 x' = n /\ wf_array x'.
Proof.
  revert vs x. induction picks as [|p ps IH];
    intros [|v vs] x HT Hn Hwf Hv Hl Hvs; cbn; try discriminate; eauto.
  apply Forall_cons_iff in Hv. destruct Hv as [Hp Hps].
  apply Forall_cons_iff in Hvs. destruct Hvs as [Hlv Hvs].
  rewrite <- Hn in Hp.
  destruct (setrow_ok x p v Hwf Hp ltac:(congruence))
    as (x' & -> & H1 & H0 & Hwf').
  apply IH; try congruence. cbn in Hl. lia.
Qed.

Lemma assign_rows_ok (n_jobs : Z) (picks : list Z) (x : array2d) :
  shape1 x = T -> wf_array x -> valid_picks x picks ->
  exists x', assign_rows n_jobs f picks x = (x', Ok tt)
    /\ shape1 x' = T /\ shape0 x' = shape0 x /\ wf_array x'.
Proof.
  intros HT Hwf Hv. unfold assign_rows, assign_parallel.
  destruct (n_jobs =? 1).
  - now apply assign_serial_ok.
  - destruct (map_rows_ok picks x HT Hwf Hv) as (vs & -> & Hl & Hvs).
    now apply assign_each_ok.
Qed.

End Assign.

Lemma valid_arange (x : array2d) : valid_picks x (arange (shape0 x)).
Proof.
  unfold valid_picks, arange. apply Forall_forall. intros p Hp.
  apply in_map_iff in Hp. destruct Hp as (k & <- & Hk).
  apply in_seq in Hk. lia.
Qed.

Lemma chosen_picks_valid (x : array2d) (picks : option (list Z)) :
  picks_fit x picks ->
  valid_picks x (match picks with
                 | None => arange (shape0 x)
                 | Some ps => ps
                 end).
Proof.
  destruct picks; cbn; auto using valid_arange.
Qed.

Section WholeArray.

Variable fft : list R -> list C.
Variable fft_multiply_repeated : list C -> list R -> list R.
Hypothesis multiply_keeps_length :
  forall H v, length (fft_multiply_repeated H v) = length v.

(** [_overlap_add_filter] on a well-formed array with at least 2 samples
    per channel, a kernel of at least 2 taps and picks that are row
    indices: once the plan is made the call returns, with the warnings of
    the plan, an array of the same shape. *)
Theorem overlap_add_keeps_shape (py : interpreter) (x : array2d)
    (h : list R) (n_fft : option Z) (zero_phase : bool)
    (picks : option (list Z)) (n_jobs : Z) (w : list warning) (pl : plan) :
  2 <= len h -> (2 <= shape1 x)%nat -> wf_array x -> picks_fit x picks ->
  prepare fft py x h n_fft zero_phase = (w, Ok pl) ->
  exists x',
    _overlap_add_filter fft fft_multiply_repeated py x h n_fft zero_phase
      picks n_jobs = Run x' w (Ok x')
    /\ shape1 x' = shape1 x /\ shape0 x' = shape0 x /\ wf_array x'.
Proof.
  intros Hh Hx Hwf Hpicks Hp. unfold _overlap_add_filter. rewrite Hp.
  destruct (FFTSizeFacts.prepare_plan fft py x h n_fft zero_phase w pl Hp)
    as (He & Hn & Hpos & Hs & Hsg & _).
  cbv zeta in Hsg.
  match goal with |- context [assign_rows n_jobs ?f ?ps x] =>
    destruct (assign_rows_ok f (shape1 x)) with (n_jobs := n_jobs)
      (picks := ps) (x := x) as (x' & -> & H1 & H0 & Hwf')
  end.
  - intros r Hr. rewrite <- Hr. apply overlap_filter_ok.
    + exact multiply_keeps_length.
    + rewrite He. unfold len in *. rewrite Hr. lia.
    + unfold len in *. lia.
    + rewrite Hsg.
      pose proof (FFTSizeFacts.ceil_div_cover
                    (Z.of_nat (shape1 x) + 2 * plan_n_edge pl - 2)
                    (plan_n_seg pl) ltac:(lia)).
      unfold len. rewrite Hr. lia.
  - reflexivity.
  - assumption.
  - now apply chosen_picks_valid.
  - eauto.
Qed.

(** When the edge width [min(len(h), x.shape[1])] is 1 (a kernel of one
    tap, or channels of one sample), the trimming slice
    [x_filtered[n_edge - 1:-n_edge + 1]] is [x_filtered[0:0]]: every
    filtered row is empty and cannot be written back, so a call that picks
    at least one row ends with an exception and leaves the array as it
    was. *)
Theorem overlap_add_fails_for_unit_edge (py : interpreter) (x : array2d)
    (h : list R) (n_fft : option Z) (zero_phase : bool) (p : Z)
    (ps : list Z) (n_jobs : Z) :
  Z.min (len h) (Z.of_nat (shape1 x)) = 1 ->
  let r := _overlap_add_filter fft fft_multiply_repeated py x h n_fft
             zero_phase (Some (p :: ps)) n_jobs in
  mem r = x /\ exists e, ret r = Raise e.
Proof.
  intros Hedge r. subst r. unfold _overlap_add_filter.
  destruct (prepare fft py x h n_fft zero_phase) as [w [pl|e]] eqn:Hp;
    [|cbn; eauto].
  destruct (FFTSizeFacts.prepare_plan fft py x h n_fft zero_phase w pl Hp)
    as (He & _).
  rewrite Hedge in He. rewrite He.
  assert (Hx : (1 <= shape1 x)%nat) by lia.
  assert (Hset : forall y, _1d_overlap_filter fft_multiply_repeated y
                   (plan_h_fft pl) 1 (plan_n_fft pl) zero_phase
                   (plan_n_segments pl) (plan_n_seg pl) = Ok [] \/
                 exists e, _1d_overlap_filter fft_multiply_repeated y
                   (plan_h_fft pl) 1 (plan_n_fft pl) zero_phase
                   (plan_n_segments pl) (plan_n_seg pl) = Raise e).
  { intros y.
    destruct (_1d_overlap_filter fft_multiply_repeated y (plan_h_fft pl) 1
                (plan_n_fft pl) zero_phase (plan_n_segments pl)
                (plan_n_seg pl)) as [v|e] eqn:E; [left|right; eauto].
    apply overlap_filter_edge_1 in E. now subst v. }
  assert (Hempty : forall q, exists e, setrow x q [] = Raise e).
  { intros q. unfold setrow. destruct (norm_index _ q); [|eauto].
    unfold broadcast_to. cbn [length].
    destruct (Nat.eqb_spec 0 (shape1 x)); [lia|]. cbn. eauto. }
  unfold assign_rows, assign_parallel. destruct (n_jobs =? 1).
  - cbn [assign_serial].
    destruct (getrow x p) as [row|e]; cbn [bind]; [|cbn; eauto].
    destruct (Hset row) as [-> | [e ->]]; cbn [bind]; [|cbn; eauto].
    destruct (Hempty p) as [e ->]. cbn. eauto.
  - cbn [map_rows].
    destruct (getrow x p) as [row|e]; cbn [bind]; [|cbn; eauto].
    destruct (Hset row) as [-> | [e ->]]; cbn [bind]; [|cbn; eauto].
    destruct (map_rows _ ps x) as [vs|e]; cbn [bind]; [|cbn; eauto].
    cbn [assign_each]. destruct (Hempty p) as [e ->]. cbn. eauto.
Qed.

End WholeArray.

Lemma overlap_add_keeps_shape_witness :
  (forall (H : list C) (v : list R),
     length (Fixtures.pass_through H v) = length v)
  /\ 2 <= len [1; 1]%R
  /\ wf_array (Array2d 4 [[1; 2; 3; 4]; [5; 6; 7; 8]]%R)
  /\ exists w pl x',
       prepare Fixtures.plain_fft Python3
         (Array2d 4 [[1; 2; 3; 4]; [5; 6; 7; 8]]%R) [1; 1]%R (Some 8) true
       = (w, Ok pl)
       /\ _overlap_add_filter Fixtures.plain_fft Fixtures.pass_through Python3
            (Array2d 4 [[1; 2; 3; 4]; [5; 6; 7; 8]]%R) [1; 1]%R (Some 8) true
            None 1
          = Run x' w (Ok x')
       /\ shape1 x' = 4%nat /\ shape0 x' = 2%nat.
Proof.
  assert (H0 : forall (H : list C) (v : list R),
             length (Fixtures.pass_through H v) = length v)
    by reflexivity.
  assert (H1 : 2 <= len [1; 1]%R) by (cbn; lia).
  assert (H2 : wf_array (Array2d 4 [[1; 2; 3; 4]; [5; 6; 7; 8]]%R))
    by (repeat constructor).
  split; [exact H0|]. split; [exact H1|]. split; [exact H2|].
  assert (Hp : exists w pl,
             prepare Fixtures.plain_fft Python3
               (Array2d 4 [[1; 2; 3; 4]; [5; 6; 7; 8]]%R) [1; 1]%R (Some 8)
               true = (w, Ok pl))
    by (eexists _, _; reflexivity).
  destruct Hp as (w & pl & Hp).
  destruct (overlap_add_keeps_shape Fixtures.plain_fft Fixtures.pass_through
              H0 Python3 (Array2d 4 [[1; 2; 3; 4]; [5; 6; 7; 8]]%R)
              [1; 1]%R (Some 8) true None 1 w pl H1 ltac:(cbn; lia) H2 I Hp)
    as (x' & Hrun & Hs1 & Hs0 & _).
  exists w, pl, x'. auto.
Defined.

Lemma overlap_add_fails_for_unit_edge_witness :
  Z.min (len [2]%R) (Z.of_nat 3) = 1
  /\ exists e,
       ret (_overlap_add_filter Fixtures.plain_fft Fixtures.pass_through
              Python3 (Array2d 3 [[1; 2; 3]]%R) [2]%R None true (Some [0]) 1)
       = Raise e.
Proof.
  assert (H : Z.min (len [2]%R) (Z.of_nat (shape1 (Array2d 3 [[1; 2; 3]]%R)))
              = 1) by reflexivity.
  split; [exact H|].
  exact (proj2 (overlap_add_fails_for_unit_edge Fixtures.plain_fft
                  Fixtures.pass_through Python3 (Array2d 3 [[1; 2; 3]]%R)
                  [2]%R None true 0 [] 1 H)).
Defined.

End EngineFacts.

(** ** Direct FFT filtering and the [copy] flag *)

Module DirectFacts.

Import KernelLength.

Lemma drop_last_length (l : list R) :
  len (slice l 0 (-1)) = Z.max 0 (len l - 1).
Proof.
  unfold slice, clamp_fwd, len. cbn [Z.ltb Z.compare].
  rewrite length_firstn, length_skipn. lia.
Qed.

Section Direct.

Variable fft : list R -> list C.
Variable fft_multiply_repeated : list C -> list R -> list R.
Variable firwin2 : Z -> list R -> list R -> result (list R).
Variable _filter_attenuation : list R -> list R -> list R -> R * R.
Hypothesis multiply_keeps_length :
  forall H v, length (fft_multiply_repeated H v) = length v.

Lemma fftmult_ext_ok (x : list R) (B : list C) (extend_x : bool) :
  x <> [] \/ extend_x = false ->
  exists y, Filter._1d_fftmult_ext fft_multiply_repeated x B extend_x = Ok y
    /\ length y = length x.
Proof.
  intros Hx. unfold Filter._1d_fftmult_ext. destruct extend_x.
  - destruct Hx as [Hx|Hx]; [|discriminate].
    rewrite MirrorFacts.getitem_last
      by (destruct x; [congruence|unfold len; cbn; lia]).
    cbn [bind]. eexists. split; [reflexivity|].
    pose proof (drop_last_length
                  (fft_multiply_repeated B (x ++ [item x (len x - 1)]))) as Hl.
    unfold len in Hl |- *.
    rewrite multiply_keeps_length, length_app in Hl. cbn in Hl. lia.
  - cbn [bind]. eexists. split; [reflexivity|].
    apply multiply_keeps_length.
Qed.

(** [_1d_fftmult_ext] gives back as many samples as it gets: the sample
    added for the parity of the kernel is a copy of the last one and is
    trimmed again.  An empty channel that needs the extra sample has no
    last sample: [IndexError]. *)
Theorem fftmult_ext_keeps_length (x : list R) (B : list C)
    (extend_x : bool) :
  (x <> [] \/ extend_x = false ->
     exists y,
       Filter._1d_fftmult_ext fft_multiply_repeated x B extend_x = Ok y
       /\ length y = length x
       /\ (extend_x = true ->
             y = slice (fft_multiply_repeated B (x ++ [item x (len x - 1)]))
                   0 (-1)))
  /\ Filter._1d_fftmult_ext fft_multiply_repeated [] B true = Raise IndexError.
Proof.
  split; [|reflexivity].
  intros Hx. destruct (fftmult_ext_ok x B extend_x Hx) as (y & Hy & Hl).
  exists y. split; [exact Hy|]. split; [exact Hl|].
  intros ->. destruct Hx as [Hx|Hx]; [|discriminate].
  unfold Filter._1d_fftmult_ext in Hy.
  rewrite MirrorFacts.getitem_last in Hy
    by (destruct x; [congruence|unfold len; cbn; lia]).
  cbn [bind] in Hy. now injection Hy.
Qed.

(** The direct branch of [_filter] (no [filter_length], or a signal not
    longer than it): for a sampling rate that is not zero, a well-formed
    array of non-empty channels, valid picks and a kernel that [firwin2]
    agrees to design, the call returns an
    array of the same shape; the caller's array is that array when
    [copy=False] and is unchanged when [copy=True]. *)
Theorem filter_direct_keeps_shape (py : OverlapAdd.interpreter)
    (x : array2d) (Fs : R) (freq gain : list R) (filter_length : option Z)
    (picks : option (list Z)) (n_jobs : Z) (copy : bool) (gain_last : R)
    (H : list R) :
  Fs <> 0%R ->
  wf_array x -> (1 <= shape1 x)%nat -> picks_fit x picks ->
  match filter_length with
  | None => True
  | Some fl => Z.of_nat (shape1 x) <= fl
  end ->
  getitem gain (-1) = Ok gain_last ->
  firwin2 (direct_N gain_last (Z.of_nat (shape1 x)))
    (map (fun f => f / (Fs / 2))%R freq) gain = Ok H ->
  exists x' w,
    Filter._filter fft fft_multiply_repeated firwin2 _filter_attenuation py
      x Fs freq gain filter_length picks n_jobs copy
    = Run (if copy then x else x') w (Ok x')
    /\ shape1 x' = shape1 x /\ shape0 x' = shape0 x /\ wf_array x'.
Proof.
  intros HFs Hwf Hx Hpicks Hbranch Hgain Hfir.
  assert (E : Filter._filter fft fft_multiply_repeated firwin2
                _filter_attenuation py x Fs freq gain filter_length picks
                n_jobs copy
              = Filter.direct_branch fft fft_multiply_repeated firwin2
                  _filter_attenuation x Fs (map (fun f => f / (Fs / 2))%R freq)
                  gain gain_last
                  (match picks with
                   | None => arange (shape0 x)
                   | Some ps => ps
                   end) n_jobs copy).
  { unfold Filter._filter. rewrite normalize_freq_ok by assumption.
    rewrite Hgain.
    destruct filter_length as [fl|]; [|reflexivity].
    destruct (Z.leb_spec (Z.of_nat (shape1 x)) fl); [reflexivity|lia]. }
  rewrite E. unfold Filter.direct_branch. rewrite Hfir.
  match goal with |- context [assign_rows n_jobs ?f ?ps x] =>
    destruct (EngineFacts.assign_rows_ok f (shape1 x)) with
      (n_jobs := n_jobs) (picks := ps) (x := x)
      as (x' & -> & H1 & H0 & Hwf')
  end.
  - intros r Hr. rewrite <- Hr. apply fftmult_ext_ok. left.
    destruct r; [cbn in Hr; lia|discriminate].
  - reflexivity.
  - assumption.
  - now apply EngineFacts.chosen_picks_valid.
  - exists x'. eexists. split; [|auto].
    unfold caller. reflexivity.
Qed.

(** With [copy=True] the array passed to [_filter] is never written,
    whatever the branch and whether the call returns or raises; with
    [copy=False] the array returned is the caller's array. *)
Theorem filter_copy_flag (py : OverlapAdd.interpreter) (x : array2d)
    (Fs : R) (freq gain : list R) (filter_length : option Z)
    (picks : option (list Z)) (n_jobs : Z) :
  mem (Filter._filter fft fft_multiply_repeated firwin2 _filter_attenuation
         py x Fs freq gain filter_length picks n_jobs true) = x
  /\ forall y,
       ret (Filter._filter fft fft_multiply_repeated firwin2
              _filter_attenuation py x Fs freq gain filter_length picks
              n_jobs false) = Ok y ->
       mem (Filter._filter fft fft_multiply_repeated firwin2
              _filter_attenuation py x Fs freq gain filter_length picks
              n_jobs false) = y.
Proof.
  assert (Hd : forall f g gl ps copy,
             let r := Filter.direct_branch fft fft_multiply_repeated firwin2
                        _filter_attenuation x Fs f g gl ps n_jobs copy in
             (copy = true -> mem r = x)
             /\ (copy = false -> forall y, ret r = Ok y -> mem r = y)).
  { intros f g gl ps copy. cbv zeta. unfold Filter.direct_branch.
    destruct (firwin2 _ f g); [|cbn; split; [reflexivity|discriminate]].
    destruct (assign_rows _ _ ps x) as [x' [u|e]]; cbn; split;
      try (intros ->; cbn; try reflexivity); try discriminate.
    now intros y [= <-]. }
  assert (Ho : forall f g gl fl ps copy,
             let r := Filter.overlap_branch fft fft_multiply_repeated firwin2
                        _filter_attenuation py x Fs f g gl fl ps n_jobs copy in
             (copy = true -> mem r = x)
             /\ (copy = false -> forall y, ret r = Ok y -> mem r = y)).
  { intros f g gl fl ps copy. cbv zeta. unfold Filter.overlap_branch.
    destruct (firwin2 _ f g) as [H|]; [|cbn; split; [reflexivity|discriminate]].
    cbn [mem ret]. split; [now intros ->|]. intros -> y.
    unfold OverlapAdd._overlap_add_filter.
    destruct (OverlapAdd.prepare _ _ _ _ _ _) as [w [pl|e]];
      [|cbn; discriminate].
    destruct (assign_rows _ _ _ x) as [x' [u|e]]; cbn; [|discriminate].
    now intros [= <-]. }
  unfold Filter._filter.
  destruct (Filter.normalize_freq Fs freq) as [nfreq|];
    [|cbn; split; [reflexivity|discriminate]].
  destruct (getitem gain (-1)) as [gl|]; [|cbn; split; [reflexivity|discriminate]].
  destruct filter_length as [fl|].
  - destruct (Z.of_nat (shape1 x) <=? fl).
    + split; [exact (proj1 (Hd _ _ _ _ true) eq_refl)
             |exact (proj2 (Hd _ _ _ _ false) eq_refl)].
    + split; [exact (proj1 (Ho _ _ _ _ _ true) eq_refl)
             |exact (proj2 (Ho _ _ _ _ _ false) eq_refl)].
  - split; [exact (proj1 (Hd _ _ _ _ true) eq_refl)
           |exact (proj2 (Hd _ _ _ _ false) eq_refl)].
Qed.

End Direct.

Lemma fftmult_ext_keeps_length_witness :
  (forall (H : list C) (v : list R),
     length (Fixtures.pass_through H v) = length v)
  /\ exists y,
       Filter._1d_fftmult_ext Fixtures.pass_through [1; 2; 3]%R [] true = Ok y
       /\ length y = 3%nat.
Proof.
  assert (H0 : forall (H : list C) (v : list R),
             length (Fixtures.pass_through H v) = length v)
    by reflexivity.
  split; [exact H0|].
  destruct (proj1 (fftmult_ext_keeps_length Fixtures.pass_through H0
                     [1; 2; 3]%R [] true))
    as (y & Hy & Hl & _); [left; discriminate|].
  exists y. split; [exact Hy|exact Hl].
Defined.

Lemma filter_direct_keeps_shape_witness :
  (forall (H : list C) (v : list R),
     length (Fixtures.pass_through H v) = length v)
  /\ wf_array (Array2d 4 [[1; 2; 3; 4]]%R)
  /\ getitem [0; 0; 1; 1]%R (-1) = Ok 1%R
  /\ Fixtures.unit_kernel (direct_N 1 4)
       (map (fun f => f / (100 / 2))%R [0; 10; 20; 50]%R) [0; 0; 1; 1]%R
     = Ok [1%R]
  /\ exists x' w,
       Filter._filter Fixtures.plain_fft Fixtures.pass_through
         Fixtures.unit_kernel Fixtures.good_attenuation OverlapAdd.Python3
         (Array2d 4 [[1; 2; 3; 4]]%R) 100 [0; 10; 20; 50]%R [0; 0; 1; 1]%R
         None None 1 true
       = Run (Array2d 4 [[1; 2; 3; 4]]%R) w (Ok x')
       /\ shape1 x' = 4%nat /\ shape0 x' = 1%nat.
Proof.
  assert (H0 : forall (H : list C) (v : list R),
             length (Fixtures.pass_through H v) = length v)
    by reflexivity.
  assert (H1 : wf_array (Array2d 4 [[1; 2; 3; 4]]%R)) by (repeat constructor).
  assert (H2 : getitem [0; 0; 1; 1]%R (-1) = Ok 1%R) by reflexivity.
  assert (H3 : Fixtures.unit_kernel
                 (direct_N 1 (Z.of_nat (shape1 (Array2d 4 [[1; 2; 3; 4]]%R))))
                 (map (fun f => f / (100 / 2))%R [0; 10; 20; 50]%R)
                 [0; 0; 1; 1]%R
               = Ok [1%R]) by reflexivity.
  split; [exact H0|]. split; [exact H1|]. split; [exact H2|].
  split; [exact H3|].
  destruct (filter_direct_keeps_shape Fixtures.plain_fft Fixtures.pass_through
              Fixtures.unit_kernel Fixtures.good_attenuation H0
              OverlapAdd.Python3 (Array2d 4 [[1; 2; 3; 4]]%R) 100
              [0; 10; 20; 50]%R [0; 0; 1; 1]%R None None 1 true 1%R [1%R]
              ltac:(lra) H1 ltac:(cbn; lia) I I H2 H3)
    as (x' & w & Hrun & Hs1 & Hs0 & _).
  exists x', w. auto.
Defined.

End DirectFacts.

(** ** Selection and removal of line frequencies *)

Module RemovalFacts.

Import MtSpectrum Fixtures.

Open Scope R_scope.

Lemma first_min_R_spec (f : nat -> R) (ks : list nat) (best : nat) :
  In (first_min_R f best ks) (best :: ks)
  /\ forall j, In j (best :: ks) -> f (first_min_R f best ks) <= f j.
Proof.
  revert best. induction ks as [|k ks IH]; intros best; cbn.
  - split; [now left|]. intros j [<-|[]]. lra.
  - destruct (IH (if Rlt_bool (f k) (f best) then k else best))
      as [Hin Hmin].
    split.
    + destruct Hin as [E|Hin]; [|now right; right].
      rewrite <- E. destruct (Rlt_bool (f k) (f best)); auto.
    + intros j Hj.
      assert (Hb : f (first_min_R f (if Rlt_bool (f k) (f best) then k else best) ks)
                   <= f (if Rlt_bool (f k) (f best) then k else best))
        by (apply Hmin; now left).
      destruct Hj as [<-|[<-|Hj]].
      * destruct (Rlt_bool (f k) (f best)) eqn:E; [|exact Hb].
        apply Rlt_bool_true in E. lra.
      * destruct (Rlt_bool (f k) (f best)) eqn:E; [exact Hb|].
        apply Rlt_bool_false in E. lra.
      * apply Hmin. now right.
Qed.

Lemma nearest_bin_spec (freqs : list R) (lf : R) :
  freqs <> [] ->
  exists k, nearest_bin freqs lf = Ok k
    /\ (k < length freqs)%nat
    /\ forall j, (j < length freqs)%nat ->
         Rabs (nth k freqs 0 - lf) <= Rabs (nth j freqs 0 - lf).
Proof.
  intros Hne. destruct freqs as [|f0 fs]; [congruence|].
  unfold nearest_bin. eexists. split; [reflexivity|].
  destruct (first_min_R_spec (fun k => Rabs (nth k (f0 :: fs) 0 - lf)) (seq 1 (length (f0 :: fs) - 1)) O)
    as [Hin Hmin].
  assert (Hrange : forall j, In j (O :: seq 1 (length (f0 :: fs) - 1))
                               <-> (j < length (f0 :: fs))%nat).
  { intros j. cbn [In]. rewrite in_seq. cbn [length]. lia. }
  split.
  - now apply Hrange.
  - intros j Hj. apply Hmin. now apply Hrange.
Qed.

Lemma nearest_bins_spec (freqs line_freqs : list R) :
  freqs <> [] ->
  exists ks, nearest_bins freqs line_freqs = Ok ks
    /\ Forall2 (fun lf k => nearest_bin freqs lf = Ok k) line_freqs ks.
Proof.
  intros Hne. induction line_freqs as [|lf rest IH]; cbn.
  - eauto.
  - destruct (nearest_bin_spec freqs lf Hne) as (k & Hk & _).
    rewrite Hk. cbn [bind]. destruct IH as (ks & -> & Hks). cbn [bind].
    eauto.
Qed.

Lemma in_notch_iff (f : R) (line_freqs widths : list R) :
  in_notch f line_freqs widths = true
  <-> exists lf nw, In (lf, nw) (combine line_freqs widths)
        /\ lf - nw < f < lf + nw.
Proof.
  unfold in_notch. rewrite existsb_exists. split.
  - intros ([lf nw] & Hin & H). apply andb_true_iff in H.
    destruct H as [H1 H2]. apply Rgt_bool_true in H1.
    apply Rlt_bool_true in H2. cbn in *. eauto.
  - intros (lf & nw & Hin & H1 & H2). exists (lf, nw). split; [assumption|].
    cbn. apply andb_true_iff. split.
    + now apply Rgt_bool_true.
    + now apply Rlt_bool_true.
Qed.

Lemma in_requested_indices (freqs : list R) (indices_1 : list nat)
    (line_freqs widths : list R) (k : nat) :
  In k (requested_indices freqs indices_1 line_freqs widths)
  <-> (k < length freqs)%nat
      /\ (In k indices_1
          \/ exists lf nw, In (lf, nw) (combine line_freqs widths)
               /\ lf - nw < nth k freqs 0 < lf + nw).
Proof.
  unfold requested_indices. rewrite filter_In, in_seq, orb_true_iff.
  rewrite in_notch_iff, existsb_exists.
  split.
  - intros [Hk [(j & Hj & E)|H]]; (split; [lia|]).
    + left. apply Nat.eqb_eq in E. now subst j.
    + now right.
  - intros [Hk [H|H]]; (split; [lia|]).
    + left. exists k. split; [assumption|apply Nat.eqb_refl].
    + now right.
Qed.

Lemma combine_halved (line_freqs widths : list R) (lf hw : R) :
  In (lf, hw) (combine line_freqs (map (fun w => w / 2) widths))
  <-> exists nw, In (lf, nw) (combine line_freqs widths) /\ hw = nw / 2.
Proof.
  revert widths. induction line_freqs as [|l ls IH]; intros [|w ws]; cbn.
  - split; [tauto|]. now intros (nw & [] & _).
  - split; [tauto|]. now intros (nw & [] & _).
  - split; [tauto|]. now intros (nw & [] & _).
  - rewrite IH. split.
    + intros [[= <- <-]|(nw & Hin & ->)]; eauto.
    + intros (nw & [[= <- <-]|Hin] & ->); eauto.
Qed.

Lemma fold_fits_length (n : nat) (fits : list (list R)) :
  Forall (fun ft => length ft = n) fits ->
  length (fold_right (zip_with Rplus) (repeat 0 n) fits) = n.
Proof.
  induction 1 as [|ft fits Hft _ IH]; cbn.
  - apply repeat_length.
  - rewrite EngineFacts.zip_with_length, IH, Hft. lia.
Qed.

Lemma subtract_fits_length (x : list R) (fits : list (list R)) :
  Forall (fun ft => length ft = length x) fits ->
  length (subtract_fits x fits) = length x.
Proof.
  intros Hf. unfold subtract_fits. destruct fits as [|ft fits].
  - apply length_map.
  - rewrite EngineFacts.zip_with_length, (fold_fits_length (length x))
      by assumption. lia.
Qed.

Lemma rads_length (n : nat) (sfreq : R) :
  length (rads_of (Z.of_nat n) sfreq) = n.
Proof.
  unfold rads_of, arange. now rewrite !length_map, length_seq, Nat2Z.id.
Qed.

Lemma norm_index_nat (n : Z) (ii k : nat) :
  norm_index n (Z.of_nat ii) = Some k -> k = ii.
Proof.
  unfold norm_index.
  destruct (Z.leb_spec 0 (Z.of_nat ii)); [|lia].
  destruct (Z.ltb_spec (Z.of_nat ii) n); cbn.
  - intros [= <-]. apply Nat2Z.id.
  - destruct (Z.ltb_spec (Z.of_nat ii) 0); [lia|].
    rewrite andb_false_r. discriminate.
Qed.

Lemma setrow_nat (x x' : array2d) (ii : nat) (y : list R) :
  setrow x (Z.of_nat ii) y = Ok x' ->
  shape0 x' = shape0 x /\ shape1 x' = shape1 x
  /\ forall i, i <> ii -> nth_error (rows x') i = nth_error (rows x) i.
Proof.
  unfold setrow.
  destruct (norm_index _ (Z.of_nat ii)) as [k|] eqn:Ek; [|discriminate].
  apply norm_index_nat in Ek. subst k.
  destruct (broadcast_to (shape1 x) y) as [v'|]; [|discriminate].
  cbn. intros [= <-]. unfold shape0. cbn. split; [|split].
  - apply FrameFacts.replace_nth_length.
  - reflexivity.
  - intros i Hi. now apply FrameFacts.replace_nth_other.
Qed.

Lemma iter_halve_shift (k : nat) (ws : list R) :
  Nat.iter k (map (fun w => w / 2)) (map (fun w => w / 2) ws)
  = Nat.iter (S k) (map (fun w => w / 2)) ws.
Proof.
  symmetry. apply Nat.iter_succ_r.
Qed.

Lemma pure_line_sum (k : nat) (A0 : C) (l : list (list C)) (H0 : list R) :
  Forall2 (fun sp h => bin sp k = Cscale h A0) l H0 ->
  Csum (zip_with (fun sp h => Cscale h (bin sp k)) l H0)
  = Cscale (H0_sq_of H0) A0.
Proof.
  unfold H0_sq_of.
  induction 1 as [|sp h l H0 E _ IH]; cbn [zip_with Csum map Rsum fold_right].
  - unfold Cscale. cbn [fst snd]. f_equal; lra.
  - unfold Csum in IH. rewrite IH, E. unfold Cadd, Cscale, Rsum.
    cbn [fst snd]. f_equal; lra.
Qed.

Lemma pure_line_residual (k : nat) (A0 : C) (l : list (list C)) (H0 : list R) :
  Forall2 (fun sp h => bin sp k = Cscale h A0) l H0 ->
  Rsum (zip_with
          (fun sp h => let d := Cabs (Csub (bin sp k) (Cscale h A0)) in d * d)
          l H0) = 0.
Proof.
  induction 1 as [|sp h l H0 E _ IH]; cbn [zip_with Rsum fold_right].
  - reflexivity.
  - unfold Rsum in IH. rewrite IH, E. cbv zeta.
    rewrite SpectrumFacts.Cabs_sq. unfold Csub, Cscale. cbn [fst snd]. lra.
Qed.

(** When the spectra of the tapers used carry one sinusoid exactly, that is
    bin [k] of each of them is [H0[t] * A0], the amplitude estimated at
    bin [k] is [A0], and the denominator of the F statistic holds only the
    power of the tapers left out. *)
Theorem pure_line_is_recovered (x_p : list (list C)) (H0 : list R) (k : nat)
    (A0 : C) :
  Forall2 (fun sp h => bin sp k = Cscale h A0) (fst (alternate x_p)) H0 ->
  H0_sq_of H0 <> 0 ->
  amplitude x_p H0 k = A0
  /\ f_den x_p H0 k
     = Rsum (map (fun sp => Cabs (bin sp k) * Cabs (bin sp k))
               (snd (alternate x_p))).
Proof.
  intros Hline Hsq.
  assert (HA : amplitude x_p H0 k = A0).
  { unfold amplitude. rewrite (pure_line_sum k A0) by assumption.
    unfold Cdiv_real, Cscale. cbn [fst snd]. destruct A0 as [re im].
    cbn [fst snd]. f_equal; field; assumption. }
  split; [exact HA|].
  unfold f_den. rewrite HA. rewrite (pure_line_residual k A0) by assumption.
  lra.
Qed.

Lemma pure_line_is_recovered_witness :
  Forall2 (fun sp h => bin sp 0 = Cscale h (2, 0))
    (fst (alternate [[(2, 0)]; [(7, 0)]])) [1]
  /\ H0_sq_of [1] <> 0
  /\ amplitude [[(2, 0)]; [(7, 0)]] [1] 0 = (2, 0).
Proof.
  assert (H1 : Forall2 (fun sp h => bin sp 0 = Cscale h (2, 0))
                 (fst (alternate [[(2, 0)]; [(7, 0)]])) [1]).
  { cbn [alternate fst]. constructor; [|constructor].
    unfold bin, Cscale. cbn [nth fst snd]. f_equal; lra. }
  assert (H2 : H0_sq_of [1] <> 0).
  { unfold H0_sq_of, Rsum. cbn [map fold_right]. lra. }
  split; [exact H1|]. split; [exact H2|].
  exact (proj1 (pure_line_is_recovered [[(2, 0)]; [(7, 0)]] [1] 0%nat (2, 0)
                  H1 H2)).
Defined.

Section Removal.

Variable dpss_windows : Z -> R -> Z -> Z -> list (list R).
Variable _mt_spectra : list R -> list (list R) -> R -> list (list C) * list R.
Variable f_ppf : R -> Z -> Z -> option R.
Variable np_angle : C -> R.

Lemma removal_length (x : list R) (sfreq : R) (x_p : list (list C))
    (H0 freqs : list R) (indices : list nat) :
  length (fst (removal np_angle x sfreq x_p H0 freqs indices)) = length x.
Proof.
  unfold removal. cbn [fst]. apply subtract_fits_length.
  apply Forall_forall. intros ft Hft. apply in_map_iff in Hft.
  destruct Hft as (k & <- & _). unfold fit, len.
  now rewrite length_map, rads_length.
Qed.

Lemma explicit_run (x : list R) (sfreq : R)
    (line_freqs notch_widths : list R) (mt_bandwidth : option R)
    (p_value half_nbw : R) :
  half_nbw_of mt_bandwidth (len x) sfreq = Ok half_nbw ->
  let window_fun := window_fun_of dpss_windows (len x) half_nbw in
  let H0 := H0_of window_fun in
  let x_p := fst (_mt_spectra x window_fun sfreq) in
  let freqs := snd (_mt_spectra x window_fun sfreq) in
  freqs <> [] ->
  exists indices_1,
    Forall2 (fun lf k => nearest_bin freqs lf = Ok k) line_freqs indices_1
    /\ _mt_spectrum_remove dpss_windows _mt_spectra f_ppf np_angle x sfreq
         (Some line_freqs) notch_widths mt_bandwidth p_value
       = (map (fun w => w / 2) notch_widths,
          Ok (removal np_angle x sfreq x_p H0 freqs
                (requested_indices freqs indices_1 line_freqs
                   (map (fun w => w / 2) notch_widths)))).
Proof.
  intros Hnbw window_fun H0 x_p freqs Hne.
  unfold _mt_spectrum_remove. rewrite Hnbw.
  fold window_fun. fold freqs. fold x_p. fold H0.
  destruct (nearest_bins_spec freqs line_freqs Hne) as (ks & -> & Hks).
  exists ks. split; [assumption|reflexivity].
Qed.

(** With explicit line frequencies and a non-empty frequency axis the call
    returns; the bins it removes are, for every requested frequency, the
    bin nearest to it, and every bin strictly inside [lf - nw/2, lf + nw/2]
    for a pair of [zip(line_freqs, notch_widths)], and no other bin; the
    caller's [notch_widths] array is left holding the halved widths, and
    the cleaned channel has the length of the input. *)
Theorem explicit_frequencies_removed (x : list R) (sfreq : R)
    (line_freqs notch_widths : list R) (mt_bandwidth : option R)
    (p_value half_nbw : R) :
  half_nbw_of mt_bandwidth (len x) sfreq = Ok half_nbw ->
  let window_fun := window_fun_of dpss_windows (len x) half_nbw in
  let H0 := H0_of window_fun in
  let x_p := fst (_mt_spectra x window_fun sfreq) in
  let freqs := snd (_mt_spectra x window_fun sfreq) in
  freqs <> [] ->
  exists indices,
    _mt_spectrum_remove dpss_windows _mt_spectra f_ppf np_angle x sfreq
      (Some line_freqs) notch_widths mt_bandwidth p_value
    = (map (fun w => w / 2) notch_widths,
       Ok (removal np_angle x sfreq x_p H0 freqs indices))
    /\ length (fst (removal np_angle x sfreq x_p H0 freqs indices))
       = length x
    /\ forall k,
         In k indices
         <-> (k < length freqs)%nat
             /\ ((exists lf, In lf line_freqs /\ nearest_bin freqs lf = Ok k)
                 \/ exists lf nw,
                      In (lf, nw) (combine line_freqs notch_widths)
                      /\ lf - nw / 2 < nth k freqs 0 < lf + nw / 2).
Proof.
  intros Hnbw window_fun H0 x_p freqs Hne.
  destruct (explicit_run x sfreq line_freqs notch_widths mt_bandwidth
              p_value half_nbw Hnbw Hne) as (ks & Hks & Hrun).
  eexists. split; [exact Hrun|]. split; [apply removal_length|].
  intros k. rewrite in_requested_indices.
  apply and_iff_compat_l.
  match goal with |- (?A \/ ?B) <-> (?A' \/ ?B') =>
    enough ((A <-> A') /\ (B <-> B')) by tauto
  end.
  split.
  - split.
    + intros Hin. apply (Forall2_flip) in Hks.
      clear - Hks Hin. induction Hks as [|k0 lf ks lfs Hk _ IH].
      * destruct Hin.
      * destruct Hin as [<-|Hin].
        -- exists lf. split; [now left|assumption].
        -- destruct (IH Hin) as (lf' & Hl & Hn). exists lf'.
           split; [now right|assumption].
    + intros (lf & Hin & Hn). subst freqs window_fun. clear - Hks Hin Hn.
      induction Hks as [|lf0 k0 lfs ks Hk _ IH].
      * destruct Hin.
      * destruct Hin as [<-|Hin].
        -- left. congruence.
        -- right. now apply IH.
  - split.
    + intros (lf & hw & Hin & Hb). apply combine_halved in Hin.
      destruct Hin as (nw & Hin & ->). eauto.
    + intros (lf & nw & Hin & Hb). exists lf, (nw / 2). split; [|assumption].
      apply combine_halved. eauto.
Qed.

(** In detection mode, when the quantile is [nan] no bin is flagged: the
    list of removed frequencies is empty and every sample comes back as
    [x - 0.0]; [notch_widths] is not written. *)
Theorem nan_threshold_removes_nothing (x : list R) (sfreq : R)
    (notch_widths : list R) (mt_bandwidth : option R)
    (p_value half_nbw : R) :
  (1 <= len x)%Z ->
  half_nbw_of mt_bandwidth (len x) sfreq = Ok half_nbw ->
  f_ppf (1 - p_value / IZR (len x)) 2
    (2 * len (window_fun_of dpss_windows (len x) half_nbw) - 2)%Z = None ->
  _mt_spectrum_remove dpss_windows _mt_spectra f_ppf np_angle x sfreq None
    notch_widths mt_bandwidth p_value
  = (notch_widths, Ok (map (fun v => v - 0) x, [])).
Proof.
  intros Hx Hnbw Hnan. unfold _mt_spectrum_remove. rewrite Hnbw.
  destruct (Z.eqb_spec (len x) 0) as [E|E]; [lia|].
  unfold detected_indices, threshold. rewrite Hnan.
  cbn [exceeds].
  match goal with |- context [filter ?g ?l] =>
    replace (filter g l) with (@nil nat)
      by (symmetry; induction l; cbn; auto)
  end.
  reflexivity.
Qed.

(** *** The loop over the channels *)

Hypothesis frequency_axis : forall v w s, snd (_mt_spectra v w s) <> [].

Lemma remove_widths (x : list R) (sfreq : R) (line_freqs : option (list R))
    (notch_widths : list R) (mt_bandwidth : option R) (p_value : R)
    (nw : list R) (d : list R * list R) :
  _mt_spectrum_remove dpss_windows _mt_spectra f_ppf np_angle x sfreq
    line_freqs notch_widths mt_bandwidth p_value = (nw, Ok d) ->
  nw = match line_freqs with
       | Some _ => map (fun w => w / 2) notch_widths
       | None => notch_widths
       end.
Proof.
  unfold _mt_spectrum_remove.
  destruct (half_nbw_of _ _ _); [|intros E; inversion E].
  destruct line_freqs.
  - destruct (nearest_bins _ _); intros E; inversion E; reflexivity.
  - destruct (_ =? 0)%Z; intros E; inversion E; reflexivity.
Qed.

Lemma remove_row_returns (sfreq : R) (line_freqs : list R)
    (mt_bandwidth : option R) (p_value : R) (x : array2d)
    (notch_widths : list R) (ii : nat) :
  (mt_bandwidth = None \/ sfreq <> 0) ->
  wf_array x -> (ii < shape0 x)%nat ->
  exists x' f,
    remove_row dpss_windows _mt_spectra f_ppf np_angle sfreq
      (Some line_freqs) mt_bandwidth p_value x notch_widths ii
    = (x', map (fun w => w / 2) notch_widths, Ok f)
    /\ wf_array x' /\ shape0 x' = shape0 x /\ shape1 x' = shape1 x.
Proof.
  intros Hbw Hwf Hii. unfold remove_row.
  destruct (nth_error (rows x) ii) as [x_|] eqn:Ex;
    [|apply nth_error_None in Ex; unfold shape0 in Hii; lia].
  assert (Hlen : length x_ = shape1 x).
  { apply nth_error_In in Ex. unfold wf_array in Hwf.
    rewrite Forall_forall in Hwf. now apply Hwf. }
  assert (Hn : exists h, half_nbw_of mt_bandwidth (len x_) sfreq = Ok h).
  { unfold half_nbw_of. destruct mt_bandwidth as [bw|]; [|eauto].
    destruct Hbw as [|Hs]; [discriminate|].
    rewrite (proj2 (Req_bool_false (2 * sfreq) 0)) by lra. eauto. }
  destruct Hn as (h & Hn).
  destruct (explicit_run x_ sfreq line_freqs notch_widths mt_bandwidth
              p_value h Hn (frequency_axis _ _ _)) as (ks & _ & ->).
  match goal with |- context [removal ?a ?b ?c ?d ?e ?f ?g] =>
    pose proof (removal_length b c d e f g) as Hy;
    destruct (removal a b c d e f g) as [y fr]
  end.
  cbn [fst] in Hy.
  destruct (EngineFacts.setrow_ok x (Z.of_nat ii) y Hwf) as (x' & -> & H1 & H0 & Hw).
  - lia.
  - congruence.
  - exists x', fr. auto.
Qed.

Lemma proc_serial_returns (sfreq : R) (line_freqs : list R)
    (mt_bandwidth : option R) (p_value : R) (picks : list Z)
    (iis : list nat) :
  (mt_bandwidth = None \/ sfreq <> 0) ->
  forall (x : array2d) (notch_widths : list R) (freq_list : list (list R)),
  wf_array x -> Forall (fun ii => ii < shape0 x)%nat iis ->
  exists x' fl,
    proc_serial dpss_windows _mt_spectra f_ppf np_angle sfreq
      (Some line_freqs) mt_bandwidth p_value picks iis x notch_widths
      freq_list
    = (x',
       Nat.iter (length fl) (map (fun w => w / 2)) notch_widths,
       Ok (freq_list ++ fl))
    /\ wf_array x' /\ shape0 x' = shape0 x /\ shape1 x' = shape1 x
    /\ length fl
       = length (filter (fun ii => existsb (Z.eqb (Z.of_nat ii)) picks) iis).
Proof.
  intros Hbw. induction iis as [|ii rest IH]; intros x nw fl Hwf Hiis.
  - exists x, []. cbn. rewrite app_nil_r. auto.
  - apply Forall_cons_iff in Hiis. destruct Hiis as [Hii Hrest].
    cbn [proc_serial filter].
    destruct (existsb (Z.eqb (Z.of_nat ii)) picks).
    + destruct (remove_row_returns sfreq line_freqs mt_bandwidth p_value x
                  nw ii Hbw Hwf Hii) as (x1 & f & -> & Hw1 & Hs0 & Hs1).
      destruct (IH x1 (map (fun w => w / 2) nw) (fl ++ [f]) Hw1)
        as (x' & fl' & -> & Hw & H0 & H1 & Hl).
      { now rewrite Hs0. }
      exists x', (f :: fl'). rewrite iter_halve_shift.
      rewrite <- app_assoc. cbn [app length].
      repeat split; try congruence; try (now rewrite Hl).
    + destruct (IH x nw fl Hwf Hrest) as (x' & fl' & -> & Hw & H0 & H1 & Hl).
      exists x', fl'. auto.
Qed.

(** The serial loop with explicit line frequencies returns for every
    array of channels of equal length (when the frequency axis is never
    empty and [sfreq] is not zero or no bandwidth is given): the array
    returned has the shape of the input, one list of frequencies is
    reported per channel whose index is in [picks], and the caller's
    [notch_widths] array has been halved once for each of them. *)
Theorem serial_explicit_removal_returns (x : array2d) (sfreq : R)
    (line_freqs notch_widths : list R) (mt_bandwidth : option R)
    (p_value : R) (picks : list Z) (copy : bool) :
  (mt_bandwidth = None \/ sfreq <> 0) ->
  wf_array x ->
  exists x' freq_list,
    _mt_spectrum_proc dpss_windows _mt_spectra f_ppf np_angle x sfreq
      (Some line_freqs) notch_widths mt_bandwidth p_value (Some picks) 1
      copy
    = (Run (caller copy x x') [] (Ok (x', freq_list)),
       Nat.iter (length freq_list) (map (fun w => w / 2)) notch_widths)
    /\ wf_array x' /\ shape0 x' = shape0 x /\ shape1 x' = shape1 x
    /\ length freq_list
       = length (filter (fun ii => existsb (Z.eqb (Z.of_nat ii)) picks)
                   (seq 0 (shape0 x))).
Proof.
  intros Hbw Hwf. unfold _mt_spectrum_proc. cbn [Z.eqb Pos.eqb].
  destruct (proc_serial_returns sfreq line_freqs mt_bandwidth p_value picks
              (seq 0 (shape0 x)) Hbw x notch_widths [] Hwf)
    as (x' & fl & -> & Hw & H0 & H1 & Hl).
  { apply Forall_forall. intros ii Hin. apply in_seq in Hin. lia. }
  exists x', fl. cbn [app]. auto.
Qed.

(** *** Which rows the loop writes *)

Lemma remove_row_writes_one_row (sfreq : R) (line_freqs : option (list R))
    (mt_bandwidth : option R) (p_value : R) (x : array2d)
    (notch_widths : list R) (ii : nat) (x' : array2d) (nw : list R)
    (r : result (list R)) :
  remove_row dpss_windows _mt_spectra f_ppf np_angle sfreq line_freqs
    mt_bandwidth p_value x notch_widths ii = (x', nw, r) ->
  shape0 x' = shape0 x /\ shape1 x' = shape1 x
  /\ forall i, i <> ii -> nth_error (rows x') i = nth_error (rows x) i.
Proof.
  unfold remove_row.
  destruct (nth_error (rows x) ii) as [x_|];
    [|intros E; inversion E; subst; auto].
  destruct (_mt_spectrum_remove _ _ _ _ _ _ _ _ _ _) as [nw1 [[y f]|e]];
    [|intros E; inversion E; subst; auto].
  destruct (setrow x (Z.of_nat ii) y) as [x1|e] eqn:Es;
    intros E; inversion E; subst; auto.
  now apply setrow_nat in Es.
Qed.

Lemma picked_in (picks : list Z) (ii : nat) :
  existsb (Z.eqb (Z.of_nat ii)) picks = true -> In (Z.of_nat ii) picks.
Proof.
  intros H. apply existsb_exists in H. destruct H as (z & Hz & E).
  apply Z.eqb_eq in E. now subst z.
Qed.

Lemma proc_serial_writes_picked (sfreq : R) (line_freqs : option (list R))
    (mt_bandwidth : option R) (p_value : R) (picks : list Z)
    (iis : list nat) :
  forall (x : array2d) (notch_widths : list R) (freq_list : list (list R))
         (x' : array2d) (nw : list R) (r : result (list (list R))),
  proc_serial dpss_windows _mt_spectra f_ppf np_angle sfreq line_freqs
    mt_bandwidth p_value picks iis x notch_widths freq_list = (x', nw, r) ->
  shape0 x' = shape0 x /\ shape1 x' = shape1 x
  /\ forall i, ~ In (Z.of_nat i) picks ->
       nth_error (rows x') i = nth_error (rows x) i.
Proof.
  induction iis as [|ii rest IH]; intros x nw0 fl x' nw r; cbn [proc_serial].
  - intros E; inversion E; subst; auto.
  - destruct (existsb (Z.eqb (Z.of_nat ii)) picks) eqn:Ep; [|apply IH].
    apply picked_in in Ep.
    destruct (remove_row _ _ _ _ _ _ _ _ _ _ _) as [[x1 nw1] [f|e]] eqn:Er;
      apply remove_row_writes_one_row in Er; destruct Er as (H0 & H1 & Hr).
    + intros E. apply IH in E. destruct E as (H0' & H1' & Hr').
      repeat split; try congruence.
      intros i Hi. rewrite Hr' by assumption. apply Hr. congruence.
    + intros E; inversion E; subst. repeat split; auto.
      intros i Hi. apply Hr. congruence.
Qed.

(** In the serial loop a row is written only when its index is an item of
    [picks]: every other row, and the shape, are the same in the caller's
    array afterwards and in the array returned, whether the call returns
    or raises; an index given in its negative form selects no row. *)
Theorem serial_removal_writes_picked_rows (x : array2d) (sfreq : R)
    (line_freqs : option (list R)) (notch_widths : list R)
    (mt_bandwidth : option R) (p_value : R) (picks : list Z) (copy : bool) :
  (shape0 (mem (fst (_mt_spectrum_proc dpss_windows _mt_spectra f_ppf
                       np_angle x sfreq line_freqs notch_widths mt_bandwidth
                       p_value (Some picks) 1 copy))) = shape0 x
   /\ forall i, ~ In (Z.of_nat i) picks ->
        nth_error (rows (mem (fst (_mt_spectrum_proc dpss_windows _mt_spectra
                                     f_ppf np_angle x sfreq line_freqs
                                     notch_widths mt_bandwidth p_value
                                     (Some picks) 1 copy)))) i
        = nth_error (rows x) i)
  /\ forall x' freq_list,
       ret (fst (_mt_spectrum_proc dpss_windows _mt_spectra f_ppf np_angle x
                   sfreq line_freqs notch_widths mt_bandwidth p_value
                   (Some picks) 1 copy)) = Ok (x', freq_list) ->
       shape0 x' = shape0 x /\ shape1 x' = shape1 x
       /\ forall i, ~ In (Z.of_nat i) picks ->
            nth_error (rows x') i = nth_error (rows x) i.
Proof.
  unfold _mt_spectrum_proc. cbn [Z.eqb Pos.eqb].
  destruct (proc_serial _ _ _ _ _ _ _ _ _ _ _ _ _) as [[x1 nw1] [fl|e]] eqn:E;
    apply proc_serial_writes_picked in E; destruct E as (H0 & H1 & Hr);
    cbn [fst mem ret]; (split; [destruct copy; cbn [caller]; auto|]).
  - intros x' fl' [= <- <-]. auto.
  - intros x' fl' [=].
Qed.

Lemma not_picked (picks : list Z) (ii : nat) :
  Forall (fun p => p < 0)%Z picks ->
  existsb (Z.eqb (Z.of_nat ii)) picks = false.
Proof.
  induction 1 as [|p ps Hp _ IH]; cbn; [reflexivity|].
  rewrite IH. destruct (Z.eqb_spec (Z.of_nat ii) p); [lia|reflexivity].
Qed.

Lemma proc_serial_skips (sfreq : R) (line_freqs : option (list R))
    (mt_bandwidth : option R) (p_value : R) (picks : list Z)
    (iis : list nat) (x : array2d) (notch_widths : list R)
    (freq_list : list (list R)) :
  Forall (fun p => p < 0)%Z picks ->
  proc_serial dpss_windows _mt_spectra f_ppf np_angle sfreq line_freqs
    mt_bandwidth p_value picks iis x notch_widths freq_list
  = (x, notch_widths, Ok freq_list).
Proof.
  intros Hneg. induction iis as [|ii rest IH]; cbn [proc_serial].
  - reflexivity.
  - now rewrite not_picked.
Qed.

Lemma proc_jobs_skips (sfreq : R) (line_freqs : option (list R))
    (notch_widths : list R) (mt_bandwidth : option R) (p_value : R)
    (picks : list Z) (todo : list (list R)) :
  Forall (fun p => p < 0)%Z picks ->
  forall ii,
  proc_jobs dpss_windows _mt_spectra f_ppf np_angle sfreq line_freqs
    notch_widths mt_bandwidth p_value picks ii todo = Ok [].
Proof.
  intros Hneg. induction todo as [|x_ rest IH]; intros ii; cbn [proc_jobs].
  - reflexivity.
  - now rewrite not_picked.
Qed.

Lemma norm_indices_valid (n : Z) (picks : list Z) :
  Forall (fun p => - n <= p < n)%Z picks ->
  exists ks, norm_indices n picks = Ok ks.
Proof.
  induction 1 as [|p ps Hp _ IH]; cbn [norm_indices]; [eauto|].
  destruct (EngineFacts.norm_index_valid n p Hp) as (k & -> & _).
  destruct IH as (ks & ->). cbn [bind]. eauto.
Qed.

(** When every item of [picks] is a valid index in its negative form, the
    serial loop finds no row index in [picks]: it returns the array as it
    was and an empty list of frequencies.  With [n_jobs > 1] no job is made
    either, and the assignment [x[picks, :] = data_new] of the empty result
    raises [ValueError] for channels that have samples. *)
Theorem negative_picks_serial_and_parallel (x : array2d) (sfreq : R)
    (line_freqs : option (list R)) (notch_widths : list R)
    (mt_bandwidth : option R) (p_value : R) (picks : list Z) (n_jobs : Z)
    (copy : bool) :
  valid_picks x picks ->
  Forall (fun p => p < 0)%Z picks ->
  shape1 x <> 0%nat ->
  (1 < n_jobs)%Z ->
  _mt_spectrum_proc dpss_windows _mt_spectra f_ppf np_angle x sfreq
    line_freqs notch_widths mt_bandwidth p_value (Some picks) 1 copy
  = (Run x [] (Ok (x, [])), notch_widths)
  /\ _mt_spectrum_proc dpss_windows _mt_spectra f_ppf np_angle x sfreq
       line_freqs notch_widths mt_bandwidth p_value (Some picks) n_jobs copy
     = (Run x [] (Raise (ValueError "shape mismatch")), notch_widths).
Proof.
  intros Hvalid Hneg Hs1 Hjobs. unfold _mt_spectrum_proc. split.
  - cbn [Z.eqb Pos.eqb]. rewrite proc_serial_skips by assumption.
    now destruct copy.
  - destruct (Z.eqb_spec n_jobs 1) as [|_]; [lia|].
    rewrite proc_jobs_skips by assumption. unfold assign_fancy.
    destruct (norm_indices_valid (len (rows x)) picks) as (ks & ->).
    { exact Hvalid. }
    cbn [bind map broadcast_rows].
    destruct (Nat.eqb_spec (shape1 x) 0) as [|_]; [contradiction|].
    reflexivity.
Qed.

End Removal.

Lemma explicit_frequencies_removed_witness :
  half_nbw_of None (len [10]) 1000 = Ok 4
  /\ snd (flat_spectrum [10] (window_fun_of one_taper (len [10]) 4) 1000)
     <> []
  /\ exists indices,
       _mt_spectrum_remove one_taper flat_spectrum no_ppf zero_angle [10]
         1000 (Some [50]) [8] None (1 / 20)
       = (map (fun w => w / 2) [8],
          Ok (removal zero_angle [10] 1000 xp4
                (H0_of (window_fun_of one_taper (len [10]) 4)) fr4 indices)).
Proof.
  assert (H1 : half_nbw_of None (len [10]) 1000 = Ok 4) by reflexivity.
  assert (H2 : snd (flat_spectrum [10] (window_fun_of one_taper (len [10]) 4)
                      1000) <> []) by (cbn; discriminate).
  split; [exact H1|]. split; [exact H2|].
  destruct (explicit_frequencies_removed one_taper flat_spectrum no_ppf
              zero_angle [10] 1000 [50] [8] None (1 / 20) 4 H1 H2)
    as (indices & Hrun & _).
  exists indices. exact Hrun.
Defined.

Lemma nan_threshold_removes_nothing_witness :
  (1 <= len [10])%Z
  /\ half_nbw_of None (len [10]) 1000 = Ok 4
  /\ _mt_spectrum_remove one_taper flat_spectrum no_ppf zero_angle [10] 1000
       None [8] None (1 / 20)
     = ([8], Ok (map (fun v => v - 0) [10], [])).
Proof.
  assert (H1 : (1 <= len [10])%Z) by (cbn; lia).
  assert (H2 : half_nbw_of None (len [10]) 1000 = Ok 4) by reflexivity.
  split; [exact H1|]. split; [exact H2|].
  exact (nan_threshold_removes_nothing one_taper flat_spectrum no_ppf
           zero_angle [10] 1000 [8] None (1 / 20) 4 H1 H2 eq_refl).
Defined.

Lemma serial_explicit_removal_returns_witness :
  (forall v w s, snd (flat_spectrum v w s) <> [])
  /\ wf_array (Array2d 1 [[10]; [10]])
  /\ exists x' freq_list,
       _mt_spectrum_proc one_taper flat_spectrum no_ppf zero_angle
         (Array2d 1 [[10]; [10]]) 1000 (Some [50]) [8] None (1 / 20)
         (Some [0; 1]%Z) 1 false
       = (Run x' [] (Ok (x', freq_list)),
          Nat.iter (length freq_list) (map (fun w => w / 2)) [8])
       /\ length freq_list = 2%nat.
Proof.
  assert (H1 : forall v w s, snd (flat_spectrum v w s) <> [])
    by (intros; cbn; discriminate).
  assert (H2 : wf_array (Array2d 1 [[10]; [10]]))
    by (repeat constructor).
  split; [exact H1|]. split; [exact H2|].
  destruct (serial_explicit_removal_returns one_taper flat_spectrum no_ppf
              zero_angle H1 (Array2d 1 [[10]; [10]]) 1000 [50] [8] None
              (1 / 20) [0; 1]%Z false (or_introl eq_refl) H2)
    as (x' & fl & Hrun & _ & _ & _ & Hl).
  exists x', fl. split; [exact Hrun|exact Hl].
Defined.

Lemma negative_picks_serial_and_parallel_witness :
  valid_picks (Array2d 1 [[10]; [10]]) [-1]%Z
  /\ _mt_spectrum_proc one_taper flat_spectrum no_ppf zero_angle
       (Array2d 1 [[10]; [10]]) 1000 (Some [50]) [8] None (1 / 20)
       (Some [-1]%Z) 1 false
     = (Run (Array2d 1 [[10]; [10]]) [] (Ok (Array2d 1 [[10]; [10]], [])),
        [8])
  /\ _mt_spectrum_proc one_taper flat_spectrum no_ppf zero_angle
       (Array2d 1 [[10]; [10]]) 1000 (Some [50]) [8] None (1 / 20)
       (Some [-1]%Z) 2 false
     = (Run (Array2d 1 [[10]; [10]]) [] (Raise (ValueError "shape mismatch")),
        [8]).
Proof.
  assert (H1 : valid_picks (Array2d 1 [[10]; [10]]) [-1]%Z).
  { constructor; [cbn; lia|constructor]. }
  split; [exact H1|].
  apply (negative_picks_serial_and_parallel one_taper flat_spectrum no_ppf
           zero_angle (Array2d 1 [[10]; [10]]) 1000 (Some [50]) [8] None
           (1 / 20) [-1]%Z 2 false H1).
  - constructor; [lia|constructor].
  - cbn. discriminate.
  - lia.
Defined.

End RemovalFacts.

(** ** The axis argument of [resample] *)

Module ResampleAxisFacts.

Import Resample.

Lemma getitem_outside {A : Type} (l : list A) (i : Z) :
  len l <= i \/ i < - len l -> getitem l i = Raise IndexError.
Proof.
  intros Hi. unfold getitem, norm_index.
  destruct (Z.leb_spec 0 i); destruct (Z.ltb_spec i (len l)); cbn;
    try destruct (Z.leb_spec (- len l) i); try destruct (Z.ltb_spec i 0);
    cbn; try reflexivity; unfold len in *; lia.
Qed.

Lemma getitem_inside {A : Type} (l : list A) (i : Z) :
  - len l <= i < len l -> exists a, getitem l i = Ok a.
Proof.
  intros Hi. unfold getitem.
  destruct (EngineFacts.norm_index_valid (len l) i Hi) as (k & -> & Hk).
  destruct (nth_error l k) as [a|] eqn:E; [eauto|].
  apply nth_error_None in E. unfold len in Hk. lia.
Qed.

(** What [resample] does with its [down] and [axis] arguments, for an
    array of [ndim] dimensions.  [down == 0] is a [ZeroDivisionError]
    before anything else.  Otherwise [axis > ndim] is the [ValueError] of
    the function; [axis == ndim] passes that test and [x.shape[axis]]
    raises [IndexError], as does [axis < -ndim]; every axis from [-ndim]
    to [ndim - 1] is accepted, negative ones counting from the last, and
    no exception comes from the tests. *)
Theorem resample_axis_check
    (resample_padded : ndarray -> R -> Z -> Z -> string -> result ndarray)
    (x : ndarray) (up down : R) (npad axis : Z) (window : string) :
  (down = 0%R ->
     resample resample_padded x up down npad axis window
     = ([], Raise ZeroDivisionError))
  /\ (down <> 0%R -> len (shape x) < axis ->
        resample resample_padded x up down npad axis window
        = ([], Raise (ValueError "x does not have axes")))
  /\ (down <> 0%R -> axis = len (shape x) \/ axis < - len (shape x) ->
        resample resample_padded x up down npad axis window
        = ([], Raise IndexError))
  /\ (down <> 0%R -> - len (shape x) <= axis < len (shape x) ->
        exists x_len,
          getitem (shape x) axis = Ok x_len
          /\ resample resample_padded x up down npad axis window
             = if 0 <? x_len
               then ([], resample_padded x (up / down)%R npad axis window)
               else ([ZeroLengthAlongAxis axis],
                     Ok (NDArray (shape x) (items x)))).
Proof.
  unfold resample. repeat split.
  - intros ->. now rewrite (proj2 (Req_bool_true 0 0)).
  - intros Hd Ha. rewrite (proj2 (Req_bool_false down 0)) by assumption.
    destruct (Z.ltb_spec (len (shape x)) axis); [reflexivity|lia].
  - intros Hd Ha. rewrite (proj2 (Req_bool_false down 0)) by assumption.
    destruct (Z.ltb_spec (len (shape x)) axis); [unfold len in *; lia|].
    rewrite getitem_outside by lia. reflexivity.
  - intros Hd Ha. rewrite (proj2 (Req_bool_false down 0)) by assumption.
    destruct (Z.ltb_spec (len (shape x)) axis); [lia|].
    destruct (getitem_inside (shape x) axis Ha) as (x_len & ->).
    exists x_len. split; reflexivity.
Qed.

End ResampleAxisFacts.

(** ** The filtering functions of the interface *)

Module InterfaceFacts.

Import KernelLength IIR.

Lemma lower_char_idem (c : ascii) : lower_char (lower_char c) = lower_char c.
Proof.
  destruct c as [[] [] [] [] [] [] [] []]; reflexivity.
Qed.

Lemma lower_idem (s : string) : lower (lower s) = lower s.
Proof.
  induction s as [|c s IH]; cbn; [reflexivity|].
  now rewrite lower_char_idem, IH.
Qed.

Lemma check_method_lower (method method' : string) :
  lower method = lower method' -> check_method method = check_method method'.
Proof.
  unfold check_method. now intros ->.
Qed.

Lemma mod2_is_odd (n : Z) : (n mod 2 =? 1) = Z.odd n.
Proof.
  rewrite Zmod_odd. now destruct (Z.odd n).
Qed.

Lemma needs_extra_sample_1 (n : Z) : needs_extra_sample 1 n = negb (Z.odd n).
Proof.
  unfold needs_extra_sample. rewrite mod2_is_odd.
  rewrite (proj2 (Req_bool_false 1 0)) by lra.
  now rewrite (proj2 (Req_bool_true 1 1)).
Qed.

Lemma needs_extra_sample_0 (n : Z) : needs_extra_sample 0 n = Z.odd n.
Proof.
  unfold needs_extra_sample. rewrite mod2_is_odd.
  rewrite (proj2 (Req_bool_true 0 0)) by reflexivity.
  rewrite (proj2 (Req_bool_false 0 1)) by lra.
  cbn. now rewrite orb_false_r.
Qed.

Lemma kernel_length_1_odd (filter_length : option Z) (n : Z) :
  Z.odd (kernel_length filter_length n 1) = true.
Proof.
  assert (Hs : forall m, Z.odd m = false -> Z.odd (m + 1) = true).
  { intros m Hm. rewrite Z.add_1_r, Z.odd_succ, <- Z.negb_odd, Hm.
    reflexivity. }
  unfold kernel_length, direct_N, direct_extend_x, overlap_N.
  destruct filter_length as [fl|]; [destruct (n <=? fl)|];
    rewrite needs_extra_sample_1;
    match goal with |- context [negb (Z.odd ?m)] =>
      destruct (Z.odd m) eqn:E; cbn [negb]; rewrite ?Z.add_0_r; auto
    end.
Qed.

Lemma kernel_length_0_even (filter_length : option Z) (n : Z) :
  Z.even (kernel_length filter_length n 0) = true.
Proof.
  assert (Hs : forall m, Z.odd m = true -> Z.even (m + 1) = true).
  { intros m Hm. now rewrite Z.add_1_r, Z.even_succ. }
  assert (Hz : forall m, Z.odd m = false -> Z.even m = true).
  { intros m Hm. now rewrite <- Z.negb_odd, Hm. }
  unfold kernel_length, direct_N, direct_extend_x, overlap_N.
  destruct filter_length as [fl|]; [destruct (n <=? fl)|];
    rewrite needs_extra_sample_0;
    match goal with |- context [if Z.odd ?m then _ else _] =>
      destruct (Z.odd m) eqn:E; rewrite ?Z.add_0_r; auto
    end.
Qed.

Section Interface.

Variable fft : list R -> list C.
Variable fft_multiply_repeated : list C -> list R -> list R.
Variable _filter_attenuation : list R -> list R -> list R -> R * R.
Variable filter_dict : string -> bool.
Variable W : Type.
Variable normalize : freqs -> R -> W.
Variable iirfilter
  : value -> W -> option string -> string -> outcome (list R * list R).
Variable iirdesign
  : W -> W -> value -> value -> string -> outcome (list R * list R).
Variable lfilter : value -> value -> list R -> outcome (list R).
Variable filtfilt : value -> value -> list R -> value -> result (list R).
Variable other_min : value -> Z -> outcome value.
Variable argsort : list R -> list nat.

Local Abbreviation low_pass firwin2 :=
  (low_pass_filter fft fft_multiply_repeated firwin2 _filter_attenuation
     filter_dict W normalize iirfilter iirdesign lfilter filtfilt other_min).
Local Abbreviation high_pass firwin2 :=
  (high_pass_filter fft fft_multiply_repeated firwin2 _filter_attenuation
     filter_dict W normalize iirfilter iirdesign lfilter filtfilt other_min).
Local Abbreviation band_pass firwin2 :=
  (band_pass_filter fft fft_multiply_repeated firwin2 _filter_attenuation
     filter_dict W normalize iirfilter iirdesign lfilter filtfilt other_min).
Local Abbreviation band_stop firwin2 :=
  (band_stop_filter fft fft_multiply_repeated firwin2 _filter_attenuation
     filter_dict W normalize iirfilter iirdesign lfilter filtfilt other_min
     argsort).
Local Abbreviation iir_part :=
  (iir_branch filter_dict W normalize iirfilter iirdesign lfilter filtfilt
     other_min).
Local Abbreviation bands_loop :=
  (stop_bands filter_dict W normalize iirfilter iirdesign lfilter filtfilt
     other_min).

(** [_filter] asks [firwin2] for nothing but a kernel of [kernel_length]
    taps. *)
Lemma filter_agrees (firwin2 firwin2' : Z -> list R -> list R -> result (list R))
    (py : OverlapAdd.interpreter) (x : array2d) (Fs : R) (freq gain : list R)
    (filter_length : option Z) (picks : option (list Z)) (n_jobs : Z)
    (copy : bool) (gain_last : R) :
  getitem gain (-1) = Ok gain_last ->
  (forall f g,
     firwin2 (kernel_length filter_length (Z.of_nat (shape1 x)) gain_last) f g
     = firwin2' (kernel_length filter_length (Z.of_nat (shape1 x)) gain_last)
         f g) ->
  Filter._filter fft fft_multiply_repeated firwin2 _filter_attenuation py x
    Fs freq gain filter_length picks n_jobs copy
  = Filter._filter fft fft_multiply_repeated firwin2' _filter_attenuation py
      x Fs freq gain filter_length picks n_jobs copy.
Proof.
  intros Hg Hf. unfold Filter._filter, kernel_length in *.
  destruct (Filter.normalize_freq Fs freq) as [nfreq|]; [|reflexivity].
  rewrite Hg.
  destruct filter_length as [fl|];
    [destruct (Z.of_nat (shape1 x) <=? fl)|];
    unfold Filter.direct_branch, Filter.overlap_branch; now rewrite Hf.
Qed.

(** [high_pass_filter] designs kernels with an odd number of taps only:
    two [firwin2] that agree on every odd length cannot be told apart by
    it, whatever the signal length, [filter_length] and the method. *)
Theorem high_pass_designs_odd_kernels
    (firwin2 firwin2' : Z -> list R -> list R -> result (list R))
    (py : OverlapAdd.interpreter) (x : array2d) (Fs Fp : R)
    (filter_length : option Z) (trans_bandwidth : R) (method : string)
    (iir_params : dict) (picks : option (list Z)) (n_jobs : Z) (copy : bool) :
  (forall N f g, Z.odd N = true -> firwin2 N f g = firwin2' N f g) ->
  high_pass firwin2 py x Fs Fp filter_length trans_bandwidth method
    iir_params picks n_jobs copy
  = high_pass firwin2' py x Fs Fp filter_length trans_bandwidth method
      iir_params picks n_jobs copy.
Proof.
  intros Hodd. unfold high_pass_filter, fft_branch.
  destruct (check_method method) as [m|]; [|reflexivity].
  destruct (negb _); [reflexivity|].
  destruct (String.eqb m "fft"); [|reflexivity].
  f_equal. apply (filter_agrees firwin2 firwin2') with (gain_last := 1%R).
  - reflexivity.
  - intros f g. apply Hodd, kernel_length_1_odd.
Qed.

(** [low_pass_filter] and [band_pass_filter] design kernels with an even
    number of taps only. *)
Theorem low_and_band_pass_design_even_kernels
    (firwin2 firwin2' : Z -> list R -> list R -> result (list R))
    (py : OverlapAdd.interpreter) (x : array2d) (Fs Fp Fp2 : R)
    (filter_length : option Z) (trans_bandwidth h_trans_bandwidth : R)
    (method : string) (iir_params : dict) (picks : option (list Z))
    (n_jobs : Z) (copy : bool) :
  (forall N f g, Z.even N = true -> firwin2 N f g = firwin2' N f g) ->
  low_pass firwin2 py x Fs Fp filter_length trans_bandwidth method
    iir_params picks n_jobs copy
  = low_pass firwin2' py x Fs Fp filter_length trans_bandwidth method
      iir_params picks n_jobs copy
  /\ band_pass firwin2 py x Fs Fp Fp2 filter_length trans_bandwidth
       h_trans_bandwidth method iir_params picks n_jobs copy
     = band_pass firwin2' py x Fs Fp Fp2 filter_length trans_bandwidth
         h_trans_bandwidth method iir_params picks n_jobs copy.
Proof.
  intros Heven. unfold low_pass_filter, band_pass_filter, fft_branch.
  destruct (check_method method) as [m|]; [|split; reflexivity].
  split.
  - destruct (String.eqb m "fft"); [|reflexivity].
    f_equal. apply (filter_agrees firwin2 firwin2') with (gain_last := 0%R).
    + reflexivity.
    + intros f g. apply Heven, kernel_length_0_even.
  - destruct (negb _); [reflexivity|].
    destruct (String.eqb m "fft"); [|reflexivity].
    f_equal. apply (filter_agrees firwin2 firwin2') with (gain_last := 0%R).
    + reflexivity.
    + intros f g. apply Heven, kernel_length_0_even.
Qed.

Variable firwin2 : Z -> list R -> list R -> result (list R).

(** The [method] argument is read without regard to case. *)
Theorem method_is_case_insensitive (method method' : string)
    (py : OverlapAdd.interpreter) (x : array2d) (Fs Fp1 Fp2 : R)
    (Fp1s Fp2s : list R) (filter_length : option Z)
    (l_trans_bandwidth h_trans_bandwidth : R) (iir_params : dict)
    (picks : option (list Z)) (n_jobs : Z) (copy : bool) :
  lower method = lower method' ->
  low_pass firwin2 py x Fs Fp1 filter_length l_trans_bandwidth method
    iir_params picks n_jobs copy
  = low_pass firwin2 py x Fs Fp1 filter_length l_trans_bandwidth method'
      iir_params picks n_jobs copy
  /\ high_pass firwin2 py x Fs Fp1 filter_length l_trans_bandwidth method
       iir_params picks n_jobs copy
     = high_pass firwin2 py x Fs Fp1 filter_length l_trans_bandwidth method'
         iir_params picks n_jobs copy
  /\ band_pass firwin2 py x Fs Fp1 Fp2 filter_length l_trans_bandwidth
       h_trans_bandwidth method iir_params picks n_jobs copy
     = band_pass firwin2 py x Fs Fp1 Fp2 filter_length l_trans_bandwidth
         h_trans_bandwidth method' iir_params picks n_jobs copy
  /\ band_stop firwin2 py x Fs Fp1s Fp2s filter_length l_trans_bandwidth
       h_trans_bandwidth method iir_params picks n_jobs copy
     = band_stop firwin2 py x Fs Fp1s Fp2s filter_length l_trans_bandwidth
         h_trans_bandwidth method' iir_params picks n_jobs copy.
Proof.
  intros Hm. apply check_method_lower in Hm.
  unfold low_pass_filter, high_pass_filter, band_pass_filter,
    band_stop_filter.
  rewrite Hm. repeat split.
Qed.

Lemma filter_copy_true (py : OverlapAdd.interpreter) (x : array2d) (Fs : R)
    (freq gain : list R) (filter_length : option Z)
    (picks : option (list Z)) (n_jobs : Z) :
  mem (Filter._filter fft fft_multiply_repeated firwin2 _filter_attenuation
         py x Fs freq gain filter_length picks n_jobs true) = x.
Proof.
  unfold Filter._filter.
  destruct (Filter.normalize_freq Fs freq) as [nfreq|]; [|reflexivity].
  destruct (getitem gain (-1)) as [gl|]; [|reflexivity].
  assert (Hd : forall f ps,
             mem (Filter.direct_branch fft fft_multiply_repeated firwin2
                    _filter_attenuation x Fs f gain gl ps n_jobs true) = x).
  { intros f ps. unfold Filter.direct_branch.
    destruct (firwin2 _ f gain); [|reflexivity].
    now destruct (assign_rows _ _ ps x) as [x' [u|e]]. }
  destruct filter_length as [fl|]; [|apply Hd].
  destruct (Z.of_nat (shape1 x) <=? fl); [apply Hd|].
  unfold Filter.overlap_branch. now destruct (firwin2 _ _ gain).
Qed.

Lemma iir_branch_copy_true (x : array2d) (iir_params : dict)
    (f_pass f_stop : freqs) (Fs : R) (btype : string)
    (picks : option (list Z)) (n_jobs : Z) :
  array (iir_part x iir_params f_pass f_stop Fs btype picks n_jobs true) = x.
Proof.
  unfold iir_branch.
  match goal with |- array (match ?r with _ => _ end) = _ =>
    destruct r as [[[b a] padlen]|]; [|reflexivity]
  end.
  unfold of_run, _filtfilt. cbn [array].
  now destruct (assign_rows _ _ _ x) as [x' [u|e]].
Qed.

Lemma stop_bands_copy_true (iir_params : dict) (Fs : R)
    (picks : option (list Z)) (n_jobs : Z)
    (bands : list ((R * R) * (R * R))) :
  forall (x : array2d) (xf : option array2d),
  array (bands_loop iir_params Fs picks n_jobs true bands x xf) = x.
Proof.
  induction bands as [|[fp fs] rest IH]; intros x xf; cbn [stop_bands].
  - reflexivity.
  - pose proof (iir_branch_copy_true x iir_params (Band [fst fp; snd fp])
                  (Band [fst fs; snd fs]) Fs "bandstop" picks n_jobs) as Hx.
    destruct (returned _) as [y|e].
    + rewrite IH. exact Hx.
    + exact Hx.
Qed.

(** With [copy=True] none of the four filtering functions writes into the
    array it is given, whatever the method and the other arguments and
    whether the call returns or raises. *)
Theorem copy_true_keeps_input (py : OverlapAdd.interpreter) (x : array2d)
    (Fs Fp1 Fp2 : R) (Fp1s Fp2s : list R) (filter_length : option Z)
    (l_trans_bandwidth h_trans_bandwidth : R) (method : string)
    (iir_params : dict) (picks : option (list Z)) (n_jobs : Z) :
  array (low_pass firwin2 py x Fs Fp1 filter_length l_trans_bandwidth method
           iir_params picks n_jobs true) = x
  /\ array (high_pass firwin2 py x Fs Fp1 filter_length l_trans_bandwidth
              method iir_params picks n_jobs true) = x
  /\ array (band_pass firwin2 py x Fs Fp1 Fp2 filter_length
              l_trans_bandwidth h_trans_bandwidth method iir_params picks
              n_jobs true) = x
  /\ array (band_stop firwin2 py x Fs Fp1s Fp2s filter_length
              l_trans_bandwidth h_trans_bandwidth method iir_params picks
              n_jobs true) = x.
Proof.
  unfold low_pass_filter, high_pass_filter, band_pass_filter,
    band_stop_filter, fft_branch, of_run.
  destruct (check_method method) as [m|]; [|repeat split].
  repeat split.
  - destruct (String.eqb m "fft"); cbn [array];
      [apply filter_copy_true|apply iir_branch_copy_true].
  - destruct (negb _); [reflexivity|].
    destruct (String.eqb m "fft"); cbn [array];
      [apply filter_copy_true|apply iir_branch_copy_true].
  - destruct (negb _); [reflexivity|].
    destruct (String.eqb m "fft"); cbn [array];
      [apply filter_copy_true|apply iir_branch_copy_true].
  - destruct (negb _); [reflexivity|].
    destruct (existsb _ _); [reflexivity|].
    destruct (String.eqb m "fft").
    + destruct (existsb _ _); cbn [array];
        [reflexivity|apply filter_copy_true].
    + apply stop_bands_copy_true.
Qed.

(** *** [_filtfilt] *)

(** [_filtfilt] returns an array of the shape of its input when the rows
    are of equal length, [picks] holds valid indices (or is [None]) and
    [filtfilt] gives back as many samples as it gets; rows that [picks]
    does not address are not written; the caller's array is the array
    returned when [copy=False] and is unchanged when [copy=True]. *)
Theorem filtfilt_keeps_shape (x : array2d) (b a padlen : value)
    (picks : option (list Z)) (n_jobs : Z) (copy : bool) :
  wf_array x -> picks_fit x picks ->
  (forall r, length r = shape1 x ->
     exists y, filtfilt b a r padlen = Ok y /\ length y = shape1 x) ->
  exists x',
    _filtfilt filtfilt x b a padlen picks n_jobs copy
    = Run (if copy then x else x') [] (Ok x')
    /\ shape1 x' = shape1 x /\ shape0 x' = shape0 x /\ wf_array x'
    /\ forall ps, picks = Some ps -> same_off ps x x'.
Proof.
  intros Hwf Hpicks Hf. unfold _filtfilt.
  pose proof (FrameFacts.assign_rows_frame n_jobs
                (fun r => filtfilt b a r padlen)
                (match picks with
                 | None => arange (shape0 x)
                 | Some ps => ps
                 end) x) as Hframe.
  destruct (EngineFacts.assign_rows_ok (fun r => filtfilt b a r padlen)
              (shape1 x) Hf n_jobs
              (match picks with
               | None => arange (shape0 x)
               | Some ps => ps
               end) x eq_refl Hwf
              (EngineFacts.chosen_picks_valid x picks Hpicks))
    as (x' & E & H1 & H0 & Hw).
  rewrite E in Hframe |- *. cbn [fst] in Hframe.
  exists x'. unfold caller. split; [reflexivity|].
  split; [exact H1|]. split; [exact H0|]. split; [exact Hw|].
  intros ps ->. exact Hframe.
Qed.

(** *** [_estimate_ringing_samples] *)

Lemma abs_max_cons (v : R) (h : list R) :
  abs_max (v :: h) = Rmax (Rabs v) (abs_max h).
Proof.
  reflexivity.
Qed.

Lemma abs_max_nonneg (h : list R) : (0 <= abs_max h)%R.
Proof.
  induction h as [|v h IH]; [cbn; lra|]. rewrite abs_max_cons.
  eapply Rle_trans; [exact IH|apply Rmax_r].
Qed.

Lemma abs_max_ge (h : list R) (v : R) : In v h -> (Rabs v <= abs_max h)%R.
Proof.
  induction h as [|u h IH]; [intros []|]. rewrite abs_max_cons.
  intros [->|Hin].
  - apply Rmax_l.
  - eapply Rle_trans; [now apply IH|apply Rmax_r].
Qed.

Lemma abs_max_attained (h : list R) :
  (0 < abs_max h)%R -> exists v, In v h /\ Rabs v = abs_max h.
Proof.
  induction h as [|u h IH]; [cbn; lra|]. rewrite abs_max_cons.
  unfold Rmax. destruct (Rle_dec (Rabs u) (abs_max h)) as [Hle|Hgt].
  - intros Hpos. destruct (IH Hpos) as (v & Hv & Ev). exists v.
    split; [now right|exact Ev].
  - intros _. exists u. split; [now left|reflexivity].
Qed.

Lemma last_index_spec (c : R -> bool) (h : list R) :
  forall (i : nat) (found : option nat),
  match last_index c h i found with
  | Some k =>
      (found = Some k /\ Forall (fun v => c v = false) h)
      \/ exists j, k = (i + j)%nat /\ (j < length h)%nat
           /\ c (nth j h 0%R) = true
           /\ forall j', (j < j' < length h)%nat -> c (nth j' h 0%R) = false
  | None => found = None /\ Forall (fun v => c v = false) h
  end.
Proof.
  induction h as [|v h IH]; intros i found; cbn [last_index].
  - destruct found; [left|]; auto.
  - specialize (IH (S i) (if c v then Some i else found)).
    destruct (last_index c h (S i) _) as [k|].
    + destruct IH as [[Hf Hall]|(j & -> & Hj & Hc & Hlater)].
      * destruct (c v) eqn:Ev.
        -- injection Hf as <-. right. exists O. cbn [length nth].
           repeat split; [lia|lia|exact Ev|].
           intros [|j'] Hj'; [lia|]. cbn [nth].
           rewrite Forall_forall in Hall. apply Hall, nth_In. lia.
        -- left. auto.
      * right. exists (S j). cbn [length nth].
        repeat split; [lia|lia|exact Hc|].
        intros [|j'] Hj'; [lia|]. cbn [nth]. apply Hlater. lia.
    + destruct IH as [Hf Hall].
      destruct (c v) eqn:Ev; [discriminate|]. auto.
Qed.

(** The padding estimated from the impulse response [h] of the filter is
    the index of its last sample above a thousandth of the largest, for
    every response that is not zero throughout; for a response that is
    zero throughout (such as that of [b = 0]) no sample is above the
    threshold and the estimate ends in [IndexError]. *)
Theorem ringing_estimate (b a : value) (h : list R) :
  lfilter b a (1%R :: repeat 0%R 999) = Returns h ->
  ((exists v, In v h /\ v <> 0%R) ->
     exists k,
       _estimate_ringing_samples lfilter b a = Returns (Z.of_nat k)
       /\ (k < length h)%nat
       /\ (abs_max h / 1000 < Rabs (nth k h 0))%R
       /\ forall j, (k < j < length h)%nat ->
            (Rabs (nth j h 0) <= abs_max h / 1000)%R)
  /\ (h <> [] -> Forall (fun v => v = 0%R) h ->
        _estimate_ringing_samples lfilter b a = Raises (Builtin IndexError)).
Proof.
  intros Hh. unfold _estimate_ringing_samples. rewrite Hh. cbn [and_then].
  pose proof (last_index_spec
                (fun v => Rgt_bool (Rabs v) (1 / 1000 * abs_max h)%R) h O None)
    as Hspec.
  split.
  - intros (v & Hv & Hnz).
    assert (Hpos : (0 < abs_max h)%R).
    { pose proof (abs_max_ge h v Hv). pose proof (Rabs_pos_lt v Hnz). lra. }
    destruct (abs_max_attained h Hpos) as (u & Hu & Eu).
    destruct h as [|h0 h']; [destruct Hv|].
    destruct (last_index _ (h0 :: h') O None) as [k|].
    + destruct Hspec as [[Hf _]|(j & -> & Hj & Hc & Hlater)]; [discriminate|].
      exists j. cbn [Nat.add]. repeat split; auto.
      * apply Rgt_bool_true in Hc. lra.
      * intros j' Hj'. specialize (Hlater j' Hj').
        apply Rgt_bool_false in Hlater. lra.
    + destruct Hspec as [_ Hall]. rewrite Forall_forall in Hall.
      specialize (Hall u Hu). cbv beta in Hall.
      apply Rgt_bool_false in Hall. lra.
  - intros Hne Hzero. destruct h as [|h0 h']; [congruence|].
    destruct (last_index _ (h0 :: h') O None) as [k|]; [|reflexivity].
    destruct Hspec as [[Hf _]|(j & _ & Hj & Hc & _)]; [discriminate|].
    apply Rgt_bool_true in Hc. rewrite Forall_forall in Hzero.
    rewrite (Hzero (nth j (h0 :: h') 0%R)) in Hc by (apply nth_In; exact Hj).
    rewrite Rabs_R0 in Hc. pose proof (abs_max_nonneg (h0 :: h')). lra.
Qed.

(** *** [construct_iir_filter] *)

Local Abbreviation construct :=
  (construct_iir_filter filter_dict W normalize iirfilter iirdesign lfilter).
Local Abbreviation coefs :=
  (coefficients filter_dict W normalize iirfilter iirdesign).

Lemma lookup_update (key : string) (d new : dict) :
  lookup key (update d new)
  = match lookup key new with
    | Some v => Some v
    | None => lookup key d
    end.
Proof.
  unfold update. induction new as [|[k v] new IH]; cbn; [reflexivity|].
  now destruct (String.eqb key k).
Qed.

Lemma construct_returns (d : dict) (f_pass f_stop : option freqs)
    (sfreq : option R) (btype : option string) (return_copy : bool)
    (d0 d1 : dict) :
  construct d f_pass f_stop sfreq btype return_copy = (d0, Returns d1) ->
  exists b a padlen,
    d1 = update d [("b", b); ("a", a); ("padlen", padlen)]%string
    /\ is_none a = false /\ is_none b = false
    /\ d0 = (if return_copy then d else d1)
    /\ coefs d f_pass f_stop sfreq btype = Returns (b, a)
    /\ forall v, lookup "padlen" d = Some v -> padlen = v.
Proof.
  unfold construct_iir_filter.
  destruct (coefficients _ _ _ _ _ d f_pass f_stop sfreq btype)
    as [[b a]|e]; cbn [and_then]; [|discriminate].
  destruct (is_none a || is_none b) eqn:En; [discriminate|].
  apply orb_false_iff in En. destruct En as [Ha Hb].
  destruct (lookup "padlen" d) as [p|] eqn:Ep; cbn [and_then].
  - intros [= <- <-]. exists b, a, p. repeat split; auto. now intros v [= ->].
  - destruct (_estimate_ringing_samples lfilter b a) as [n|e];
      cbn [and_then]; [|discriminate].
    intros [= <- <-]. exists b, a, (VInt n). repeat split; auto.
    discriminate.
Qed.

Lemma construct_raises (d : dict) (f_pass f_stop : option freqs)
    (sfreq : option R) (btype : option string) (return_copy : bool)
    (d0 : dict) (e : error) :
  construct d f_pass f_stop sfreq btype return_copy = (d0, Raises e) ->
  d0 = d.
Proof.
  unfold construct_iir_filter.
  match goal with |- (match ?r with _ => _ end) = _ -> _ =>
    destruct r; [discriminate|now intros [= <- _]]
  end.
Qed.

Lemma coefficients_designed (d : dict) (f_pass f_stop : option freqs)
    (sfreq : option R) (btype : option string) (b a : value) :
  lookup "b" d = Some b -> lookup "a" d = Some a ->
  coefs d f_pass f_stop sfreq btype = Returns (b, a).
Proof.
  intros Hb Ha. unfold coefficients, contains, getkey. now rewrite Ha, Hb.
Qed.

(** What [construct_iir_filter] returns holds entries ['b'], ['a'] and
    ['padlen'], the first two not [None]; a ['padlen'] entry given is
    kept, as are the coefficients when both are given, and every other
    entry is as it was.  The caller's dict is the dict returned when
    [return_copy] is false, and is left as it was when [return_copy] is
    true or the call raises. *)
Theorem construct_iir_filter_entries (iir_params : dict)
    (f_pass f_stop : option freqs) (sfreq : option R)
    (btype : option string) (return_copy : bool) :
  match construct iir_params f_pass f_stop sfreq btype return_copy with
  | (after, Returns new) =>
      after = (if return_copy then iir_params else new)
      /\ (exists b a padlen,
            lookup "b" new = Some b /\ lookup "a" new = Some a
            /\ lookup "padlen" new = Some padlen
            /\ is_none b = false /\ is_none a = false)
      /\ (forall v, lookup "padlen" iir_params = Some v ->
            lookup "padlen" new = Some v)
      /\ (forall b a, lookup "b" iir_params = Some b ->
            lookup "a" iir_params = Some a ->
            lookup "b" new = Some b /\ lookup "a" new = Some a)
      /\ forall key, key <> "b"%string -> key <> "a"%string ->
           key <> "padlen"%string ->
           lookup key new = lookup key iir_params
  | (after, Raises _) => after = iir_params
  end.
Proof.
  destruct (construct iir_params f_pass f_stop sfreq btype return_copy)
    as [after [new|e]] eqn:E.
  - apply construct_returns in E.
    destruct E as (b & a & padlen & -> & Ha & Hb & -> & Hc & Hp).
    split; [reflexivity|]. split; [|split; [|split]].
    + exists b, a, padlen. rewrite !lookup_update. cbn. auto.
    + intros v Hv. rewrite lookup_update. cbn. now rewrite (Hp v Hv).
    + intros b' a' Hb' Ha'.
      rewrite (coefficients_designed iir_params f_pass f_stop sfreq btype
                 b' a' Hb' Ha') in Hc.
      injection Hc as <- <-. rewrite !lookup_update. cbn. auto.
    + intros key Kb Ka Kp. rewrite lookup_update. cbn [lookup].
      destruct (String.eqb_spec key "b"); [contradiction|].
      destruct (String.eqb_spec key "a"); [contradiction|].
      destruct (String.eqb_spec key "padlen"); [contradiction|].
      reflexivity.
  - now apply construct_raises in E.
Qed.

(** [construct_iir_filter] is idempotent: given a dict it has returned, it
    returns a dict with the same entries, whatever the other arguments,
    and neither designs a filter nor estimates a padding again. *)
Theorem construct_iir_filter_idempotent (iir_params : dict)
    (f_pass f_stop : option freqs) (sfreq : option R)
    (btype : option string) (return_copy : bool) (after new : dict)
    (f_pass' f_stop' : option freqs) (sfreq' : option R)
    (btype' : option string) (return_copy' : bool) :
  construct iir_params f_pass f_stop sfreq btype return_copy
  = (after, Returns new) ->
  exists new',
    construct new f_pass' f_stop' sfreq' btype' return_copy'
    = (if return_copy' then new else new', Returns new')
    /\ forall key, lookup key new' = lookup key new.
Proof.
  intros E. apply construct_returns in E.
  destruct E as (b & a & padlen & -> & Ha & Hb & _ & _ & _).
  eexists. split.
  - unfold construct_iir_filter.
    rewrite (coefficients_designed _ f_pass' f_stop' sfreq' btype' b a)
      by (rewrite lookup_update; reflexivity).
    cbn [and_then]. rewrite Ha, Hb. cbn [orb].
    rewrite lookup_update. cbn [lookup String.eqb Ascii.eqb Bool.eqb andb].
    cbn [and_then]. reflexivity.
  - intros key. rewrite !lookup_update. cbn [lookup].
    destruct (String.eqb key "b"); [reflexivity|].
    destruct (String.eqb key "a"); [reflexivity|].
    destruct (String.eqb key "padlen"); reflexivity.
Qed.

(** *** The bands of [band_stop_filter] with [method='iir'] *)

Lemma combine_snoc {A B : Type} (l : list A) (m : list B) (a : A) (b : B) :
  length l = length m ->
  combine (l ++ [a]) (m ++ [b]) = combine l m ++ [(a, b)].
Proof.
  revert m. induction l as [|x l IH]; intros [|y m] H; cbn in *;
    try discriminate; [reflexivity|].
  f_equal. apply IH. now injection H.
Qed.

Lemma stop_bands_last (iir_params : dict) (Fs : R)
    (picks : option (list Z)) (n_jobs : Z)
    (band : (R * R) * (R * R)) (bands : list ((R * R) * (R * R))) :
  forall (x : array2d) (xf : option array2d) (y : array2d),
  returned (bands_loop iir_params Fs picks n_jobs true (bands ++ [band]) x xf)
  = Returns y ->
  returned (bands_loop iir_params Fs picks n_jobs true [band] x None)
  = Returns y.
Proof.
  induction bands as [|[fp fs] rest IH]; intros x xf y.
  - destruct band as [fp fs]. cbn [app stop_bands]. cbv zeta.
    now destruct (returned (iir_part x iir_params (Band [fst fp; snd fp])
                              (Band [fst fs; snd fs]) Fs "bandstop" picks
                              n_jobs true)) as [y'|e].
  - intros H. cbn [app stop_bands] in H. cbv zeta in H.
    pose proof (iir_branch_copy_true x iir_params (Band [fst fp; snd fp])
                  (Band [fst fs; snd fs]) Fs "bandstop" picks n_jobs) as Hx.
    destruct (returned (iir_part x iir_params (Band [fst fp; snd fp])
                          (Band [fst fs; snd fs]) Fs "bandstop" picks
                          n_jobs true)) as [y'|e]; [|discriminate].
    rewrite Hx in H. exact (IH _ _ _ H).
Qed.

Lemma band_stop_iir_last (py : OverlapAdd.interpreter) (x : array2d)
    (Fs : R) (Fp1 Fp2 : list R) (p1 p2 : R) (filter_length : option Z)
    (l_trans_bandwidth h_trans_bandwidth : R) (method : string)
    (iir_params : dict) (picks : option (list Z)) (n_jobs : Z)
    (y : array2d) :
  lower method = "iir"%string ->
  length Fp1 = length Fp2 ->
  returned (band_stop firwin2 py x Fs (Fp1 ++ [p1]) (Fp2 ++ [p2])
              filter_length l_trans_bandwidth h_trans_bandwidth method
              iir_params picks n_jobs true) = Returns y ->
  returned (band_stop firwin2 py x Fs [p1] [p2] filter_length
              l_trans_bandwidth h_trans_bandwidth method iir_params picks
              n_jobs true) = Returns y.
Proof.
  intros Hm Hlen. unfold band_stop_filter, check_method. rewrite Hm.
  cbn [String.eqb Ascii.eqb Bool.eqb andb orb].
  rewrite !length_app, Hlen, Nat.eqb_refl. cbn [negb length Nat.eqb].
  rewrite !map_app. cbn [map]. rewrite existsb_app.
  destruct (existsb _ (map _ Fp1)); [intros [=]|]. cbn [orb].
  destruct (existsb _ [_]); [intros [=]|].
  rewrite !combine_snoc by (rewrite ?length_combine, ?length_map; lia).
  cbn [combine]. apply stop_bands_last.
Qed.

(** With [method='iir'] and [copy=True], [band_stop_filter] filters the
    unchanged input anew for every band and keeps the last result only:
    what it returns for several bands is what it returns for the last
    band alone.  With no band at all it has nothing to return and raises
    [UnboundLocalError]. *)
Theorem band_stop_iir_keeps_last_band (py : OverlapAdd.interpreter)
    (x : array2d) (Fs : R) (Fp1 Fp2 : list R) (p1 p2 : R)
    (filter_length : option Z) (l_trans_bandwidth h_trans_bandwidth : R)
    (method : string) (iir_params : dict) (picks : option (list Z))
    (n_jobs : Z) (y : array2d) :
  lower method = "iir"%string ->
  length Fp1 = length Fp2 ->
  (returned (band_stop firwin2 py x Fs (Fp1 ++ [p1]) (Fp2 ++ [p2])
               filter_length l_trans_bandwidth h_trans_bandwidth method
               iir_params picks n_jobs true) = Returns y ->
   returned (band_stop firwin2 py x Fs [p1] [p2] filter_length
               l_trans_bandwidth h_trans_bandwidth method iir_params picks
               n_jobs true) = Returns y)
  /\ returned (band_stop firwin2 py x Fs [] [] filter_length
                 l_trans_bandwidth h_trans_bandwidth method iir_params picks
                 n_jobs true) = Raises (UnboundLocalError "xf").
Proof.
  intros Hm Hlen. split.
  - now apply band_stop_iir_last.
  - unfold band_stop_filter, check_method. rewrite Hm. reflexivity.
Qed.

(** *** [notch_filter] *)

Variable dpss_windows : Z -> R -> Z -> Z -> list (list R).
Variable _mt_spectra : list R -> list (list R) -> R -> list (list C) * list R.
Variable f_ppf : R -> Z -> Z -> option R.
Variable np_angle : C -> R.

Local Abbreviation notch :=
  (notch_filter fft fft_multiply_repeated firwin2 _filter_attenuation
     filter_dict W normalize iirfilter iirdesign lfilter filtfilt other_min
     argsort dpss_windows _mt_spectra f_ppf np_angle).

(** [notch_filter] with [method='iir'], [copy=True] and no array of
    widths notches the last of several line frequencies only: what it
    returns for the frequencies [freqs + [f]] is what it returns for [f]
    alone. *)
Theorem notch_iir_keeps_last_frequency (py : OverlapAdd.interpreter)
    (x : array2d) (Fs : R) (freqs : list R) (f : R)
    (filter_length : option Z) (notch_widths : widths)
    (trans_bandwidth : R) (method : string) (iir_params : dict)
    (mt_bandwidth : option R) (p_value : R) (picks : option (list Z))
    (n_jobs : Z) (y : array2d) :
  lower method = "iir"%string ->
  (forall ws, notch_widths <> Widths ws) ->
  returned (fst (notch py x Fs (Some (freqs ++ [f])) filter_length
                   notch_widths trans_bandwidth method iir_params
                   mt_bandwidth p_value picks n_jobs true)) = Returns y ->
  returned (fst (notch py x Fs (Some [f]) filter_length notch_widths
                   trans_bandwidth method iir_params mt_bandwidth p_value
                   picks n_jobs true)) = Returns y.
Proof.
  intros Hm Hw. unfold notch_filter, check_notch_method. rewrite Hm.
  cbn [String.eqb Ascii.eqb Bool.eqb andb orb].
  destruct notch_widths as [|w|ws]; [| |now destruct (Hw ws)];
    unfold notch_widths_of.
  - cbn [fst]. rewrite map_app. cbn [map].
    rewrite combine_snoc by now rewrite length_map.
    rewrite !map_app. cbn [map combine fst snd].
    apply band_stop_iir_last; [reflexivity|now rewrite !length_map].
  - destruct (Rlt_bool w 0); [intros [=]|].
    cbn [fst]. rewrite map_app. cbn [map].
    rewrite combine_snoc by now rewrite length_map.
    rewrite !map_app. cbn [map combine fst snd].
    apply band_stop_iir_last; [reflexivity|now rewrite !length_map].
Qed.

Lemma widths_default (freqs : list R) :
  Forall (fun f => 0 <= f)%R freqs ->
  notch_widths_of freqs (Widths (map (fun f => f / 200)%R freqs))
  = notch_widths_of freqs NoWidths.
Proof.
  intros Hpos. unfold notch_widths_of.
  replace (existsb (fun w => Rlt_bool w 0) (map (fun f => f / 200)%R freqs))
    with false.
  - rewrite length_map. destruct (Nat.eqb_spec (length freqs) 1) as [E|_].
    + destruct freqs as [|f [|g fs]]; try discriminate. cbn [map nth].
      now rewrite Rmult_1_r.
    + now rewrite Nat.eqb_refl.
  - symmetry. induction Hpos as [|f fs Hf _ IH]; cbn [map existsb];
      [reflexivity|].
    rewrite IH, (proj2 (Rlt_bool_false (f / 200) 0)) by lra. reflexivity.
Qed.

Lemma widths_scalar (freqs : list R) (w : R) :
  freqs <> [] ->
  notch_widths_of freqs (Widths (map (fun _ => w) freqs))
  = notch_widths_of freqs (OneWidth w).
Proof.
  intros Hne. unfold notch_widths_of.
  assert (He : existsb (fun v => Rlt_bool v 0) (map (fun _ => w) freqs)
               = Rlt_bool w 0).
  { destruct (Rlt_bool w 0) eqn:E.
    - destruct freqs as [|f fs]; [congruence|]. cbn [map existsb].
      now rewrite E.
    - clear Hne. induction freqs as [|f fs IH]; cbn [map existsb];
        [reflexivity|]. now rewrite E, IH. }
  rewrite He. destruct (Rlt_bool w 0); [reflexivity|].
  rewrite length_map. destruct (Nat.eqb_spec (length freqs) 1) as [E|_].
  - destruct freqs as [|f [|g fs]]; try discriminate. reflexivity.
  - rewrite Nat.eqb_refl. cbn [negb]. f_equal. apply map_ext.
    intros _. now rewrite Rmult_1_r.
Qed.

Lemma widths_single (freqs : list R) (w : R) :
  notch_widths_of freqs (Widths [w]) = notch_widths_of freqs (OneWidth w).
Proof.
  unfold notch_widths_of. cbn [existsb length Nat.eqb nth].
  rewrite orb_false_r. reflexivity.
Qed.

(** Detection mode never writes the widths. *)
Lemma detection_keeps_widths (x : list R) (sfreq : R) (notch_widths : list R)
    (mt_bandwidth : option R) (p_value : R) :
  fst (MtSpectrum._mt_spectrum_remove dpss_windows _mt_spectra f_ppf np_angle
         x sfreq None notch_widths mt_bandwidth p_value) = notch_widths.
Proof.
  unfold MtSpectrum._mt_spectrum_remove.
  destruct (MtSpectrum.half_nbw_of _ _ _); [|reflexivity].
  now destruct (len x =? 0)%Z.
Qed.

Lemma detection_row_keeps_widths (sfreq : R) (mt_bandwidth : option R)
    (p_value : R) (x : array2d) (notch_widths : list R) (ii : nat) :
  snd (fst (MtSpectrum.remove_row dpss_windows _mt_spectra f_ppf np_angle
              sfreq None mt_bandwidth p_value x notch_widths ii))
  = notch_widths.
Proof.
  unfold MtSpectrum.remove_row.
  destruct (nth_error (rows x) ii) as [x_|]; [|reflexivity].
  pose proof (detection_keeps_widths x_ sfreq notch_widths mt_bandwidth
                p_value) as H.
  destruct (MtSpectrum._mt_spectrum_remove dpss_windows _mt_spectra f_ppf
              np_angle x_ sfreq None notch_widths mt_bandwidth p_value)
    as [nw [[y f]|e]]; cbn [fst] in H; subst nw; [|reflexivity].
  now destruct (setrow x (Z.of_nat ii) y).
Qed.

Lemma detection_loop_keeps_widths (sfreq : R) (mt_bandwidth : option R)
    (p_value : R) (picks : list Z) (iis : list nat) :
  forall (x : array2d) (notch_widths : list R) (freq_list : list (list R)),
  snd (fst (MtSpectrum.proc_serial dpss_windows _mt_spectra f_ppf np_angle
              sfreq None mt_bandwidth p_value picks iis x notch_widths
              freq_list))
  = notch_widths.
Proof.
  induction iis as [|ii rest IH]; intros x nw fl; [reflexivity|].
  cbn [MtSpectrum.proc_serial].
  destruct (existsb (Z.eqb (Z.of_nat ii)) picks); [|apply IH].
  pose proof (detection_row_keeps_widths sfreq mt_bandwidth p_value x nw ii)
    as H.
  destruct (MtSpectrum.remove_row dpss_windows _mt_spectra f_ppf np_angle
              sfreq None mt_bandwidth p_value x nw ii) as [[x' nw'] [f|e]];
    cbn [fst snd] in H; subst nw'; [apply IH|reflexivity].
Qed.

Lemma detection_proc_keeps_widths (x : array2d) (sfreq : R)
    (notch_widths : list R) (mt_bandwidth : option R) (p_value : R)
    (picks : option (list Z)) (n_jobs : Z) (copy : bool) :
  snd (MtSpectrum._mt_spectrum_proc dpss_windows _mt_spectra f_ppf np_angle
         x sfreq None notch_widths mt_bandwidth p_value picks n_jobs copy)
  = notch_widths.
Proof.
  unfold MtSpectrum._mt_spectrum_proc.
  destruct (n_jobs =? 1)%Z.
  - match goal with |- context [MtSpectrum.proc_serial ?a ?b ?c ?d ?e ?f ?g
                                  ?h ?i ?j ?k ?l ?m] =>
      pose proof (detection_loop_keeps_widths e g h i j k l m) as H;
      destruct (MtSpectrum.proc_serial a b c d e f g h i j k l m)
        as [[x' nw] [fl|e']]
    end; cbn [fst snd] in H; subst nw; reflexivity.
  - destruct (MtSpectrum.proc_jobs _ _ _ _ _ _ _ _ _ _ _ _);
      [|reflexivity].
    now destruct (MtSpectrum.assign_fancy _ _ _).
Qed.

(** The forms of [notch_widths].  The array returned, the exception, the
    warnings and the caller's [x] are the same for a single-item array
    and the float it holds; for line frequencies that are not negative,
    for [None] and the array [freqs / 200]; for at least one line
    frequency, for a float and the array that repeats it.  The forms
    differ in what is left in the caller's argument: [None], a float and
    a single-item array are never written, nor is any array when the
    method is not [spectrum_fit]; with [method='spectrum_fit'] an array
    with one width per line frequency (and not a single one) is left as
    [_mt_spectrum_proc] leaves it, that is, with [n_jobs == 1], channels
    of equal length, a frequency axis that is never empty and [Fs] not
    zero or no bandwidth given, halved once for every channel in
    [picks]. *)
Theorem notch_widths_forms (py : OverlapAdd.interpreter) (x : array2d)
    (Fs : R) (freqs : list R) (w : R) (filter_length : option Z)
    (trans_bandwidth : R) (method : string) (iir_params : dict)
    (mt_bandwidth : option R) (p_value : R) (picks : option (list Z))
    (n_jobs : Z) (copy : bool) :
  let run_with := fun (fs : option (list R)) (nw : widths) =>
    notch py x Fs fs filter_length nw trans_bandwidth method iir_params
      mt_bandwidth p_value picks n_jobs copy in
  let picked := length (filter
    (fun ii => existsb (Z.eqb (Z.of_nat ii))
                 (match picks with
                  | None => arange (shape0 x)
                  | Some ps => ps
                  end))
    (seq 0 (shape0 x))) in
  (forall fs, fst (run_with fs (Widths [w])) = fst (run_with fs (OneWidth w)))
  /\ (Forall (fun f => 0 <= f)%R freqs ->
      fst (run_with (Some freqs) NoWidths)
      = fst (run_with (Some freqs) (Widths (map (fun f => f / 200)%R freqs))))
  /\ (freqs <> [] ->
      fst (run_with (Some freqs) (OneWidth w))
      = fst (run_with (Some freqs) (Widths (map (fun _ => w) freqs))))
  /\ (forall fs,
        snd (run_with fs NoWidths) = NoWidths
        /\ snd (run_with fs (OneWidth w)) = OneWidth w
        /\ snd (run_with fs (Widths [w])) = Widths [w])
  /\ (forall fs ws,
        lower method <> "spectrum_fit"%string ->
        snd (run_with fs (Widths ws)) = Widths ws)
  /\ (forall ws,
        lower method = "spectrum_fit"%string ->
        existsb (fun v => Rlt_bool v 0) ws = false ->
        length ws = length freqs ->
        length ws <> 1%nat ->
        snd (run_with (Some freqs) (Widths ws))
        = Widths (snd (MtSpectrum._mt_spectrum_proc dpss_windows _mt_spectra
                         f_ppf np_angle x Fs (Some freqs) ws mt_bandwidth
                         p_value picks n_jobs copy))
        /\ ((forall v t s, snd (_mt_spectra v t s) <> []) ->
            mt_bandwidth = None \/ Fs <> 0%R ->
            wf_array x ->
            n_jobs = 1%Z ->
            snd (run_with (Some freqs) (Widths ws))
            = Widths (Nat.iter picked (map (fun v => v / 2)%R) ws))).
Proof.
  intros run_with picked. subst run_with.
  assert (Hstate : forall fs ws,
            lower method <> "spectrum_fit"%string ->
            snd (notch py x Fs fs filter_length (Widths ws) trans_bandwidth
                   method iir_params mt_bandwidth p_value picks n_jobs copy)
            = Widths ws).
  { intros fs ws Hm. apply String.eqb_neq in Hm.
    unfold notch_filter, check_notch_method. rewrite Hm, orb_false_r.
    destruct (String.eqb (lower method) "fft"
              || String.eqb (lower method) "iir") eqn:E; [|reflexivity].
    rewrite Hm. cbn [negb]. destruct fs as [fs|]; [|reflexivity].
    destruct (notch_widths_of fs (Widths ws)); [|reflexivity].
    rewrite E. reflexivity. }
  split; [|split; [|split; [|split; [|split]]]].
  - intros fs. unfold notch_filter.
    destruct (check_notch_method method) as [m|e]; [|reflexivity].
    destruct fs as [fs|].
    + rewrite widths_single.
      destruct (notch_widths_of fs (OneWidth w)); [|reflexivity].
      now destruct (String.eqb m "fft" || String.eqb m "iir").
    + now destruct (negb (String.eqb m "spectrum_fit")).
  - intros Hpos. unfold notch_filter.
    destruct (check_notch_method method) as [m|e]; [|reflexivity].
    rewrite widths_default by assumption.
    destruct (notch_widths_of freqs NoWidths); [|reflexivity].
    now destruct (String.eqb m "fft" || String.eqb m "iir").
  - intros Hne. unfold notch_filter.
    destruct (check_notch_method method) as [m|e]; [|reflexivity].
    rewrite widths_scalar by assumption.
    destruct (notch_widths_of freqs (OneWidth w)); [|reflexivity].
    now destruct (String.eqb m "fft" || String.eqb m "iir").
  - intros fs. unfold notch_filter.
    destruct (check_notch_method method) as [m|e]; [|now repeat split].
    destruct fs as [fs|].
    + repeat split.
      * now destruct (String.eqb m "fft" || String.eqb m "iir").
      * destruct (notch_widths_of fs (OneWidth w)); [|reflexivity].
        now destruct (String.eqb m "fft" || String.eqb m "iir").
      * destruct (notch_widths_of fs (Widths [w])); [|reflexivity].
        now destruct (String.eqb m "fft" || String.eqb m "iir").
    + destruct (negb (String.eqb m "spectrum_fit")); [now repeat split|].
      repeat split. cbn [snd spectrum_fit_branch].
      now rewrite detection_proc_keeps_widths.
  - exact Hstate.
  - intros ws Hm Hneg Hlen Hone.
    assert (Hrun : snd (notch py x Fs (Some freqs) filter_length (Widths ws)
                          trans_bandwidth method iir_params mt_bandwidth
                          p_value picks n_jobs copy)
                   = Widths (snd (MtSpectrum._mt_spectrum_proc dpss_windows
                                    _mt_spectra f_ppf np_angle x Fs
                                    (Some freqs) ws mt_bandwidth p_value
                                    picks n_jobs copy))).
    { unfold notch_filter, check_notch_method. rewrite Hm.
      cbn [String.eqb Ascii.eqb Bool.eqb andb orb].
      unfold notch_widths_of. rewrite Hneg.
      destruct (Nat.eqb_spec (length ws) 1) as [|_]; [contradiction|].
      rewrite Hlen, Nat.eqb_refl. cbn [negb].
      unfold handed_over.
      destruct (Nat.eqb_spec (length ws) 1) as [|_]; [lia|].
      reflexivity. }
    split; [exact Hrun|].
    intros Haxis Hbw Hwf ->. rewrite Hrun. f_equal.
    unfold MtSpectrum._mt_spectrum_proc. cbn [Z.eqb Pos.eqb].
    destruct (RemovalFacts.proc_serial_returns dpss_windows _mt_spectra f_ppf
                np_angle Haxis Fs freqs mt_bandwidth p_value
                (match picks with
                 | None => arange (shape0 x)
                 | Some ps => ps
                 end)
                (seq 0 (shape0 x)) Hbw x ws [] Hwf)
      as (x' & fl & -> & _ & _ & _ & Hl).
    { apply Forall_forall. intros ii Hin. apply in_seq in Hin. lia. }
    cbn [snd]. subst picked. now rewrite <- Hl.
Qed.

End Interface.

Lemma high_pass_designs_odd_kernels_witness :
  (forall N f g, Z.odd N = true ->
     Fixtures.unit_kernel N f g = odd_kernels N f g)
  /\ high_pass_filter Fixtures.plain_fft Fixtures.pass_through
       Fixtures.unit_kernel Fixtures.good_attenuation butter_only freqs
       plain_normalize unit_iirfilter unit_iirdesign echo_lfilter
       echo_filtfilt no_other_min OverlapAdd.Python3
       (Array2d 4 [[1; 2; 3; 4]]%R) 100 20 None 5 "fft" [] None 1 true
     = high_pass_filter Fixtures.plain_fft Fixtures.pass_through
         odd_kernels Fixtures.good_attenuation butter_only freqs
         plain_normalize unit_iirfilter unit_iirdesign echo_lfilter
         echo_filtfilt no_other_min OverlapAdd.Python3
         (Array2d 4 [[1; 2; 3; 4]]%R) 100 20 None 5 "fft" [] None 1 true.
Proof.
  assert (H : forall N f g, Z.odd N = true ->
                Fixtures.unit_kernel N f g = odd_kernels N f g).
  { intros N f g HN. unfold odd_kernels. now rewrite HN. }
  split; [exact H|].
  exact (high_pass_designs_odd_kernels Fixtures.plain_fft
           Fixtures.pass_through Fixtures.good_attenuation butter_only freqs
           plain_normalize unit_iirfilter unit_iirdesign echo_lfilter
           echo_filtfilt no_other_min Fixtures.unit_kernel odd_kernels
           OverlapAdd.Python3 (Array2d 4 [[1; 2; 3; 4]]%R) 100%R 20%R None
           5%R "fft" [] None 1 true H).
Defined.

Lemma low_and_band_pass_design_even_kernels_witness :
  (forall N f g, Z.even N = true ->
     Fixtures.unit_kernel N f g = even_kernels N f g)
  /\ low_pass_filter Fixtures.plain_fft Fixtures.pass_through
       Fixtures.unit_kernel Fixtures.good_attenuation butter_only freqs
       plain_normalize unit_iirfilter unit_iirdesign echo_lfilter
       echo_filtfilt no_other_min OverlapAdd.Python3
       (Array2d 4 [[1; 2; 3; 4]]%R) 100 20 None 5 "fft" [] None 1 true
     = low_pass_filter Fixtures.plain_fft Fixtures.pass_through
         even_kernels Fixtures.good_attenuation butter_only freqs
         plain_normalize unit_iirfilter unit_iirdesign echo_lfilter
         echo_filtfilt no_other_min OverlapAdd.Python3
         (Array2d 4 [[1; 2; 3; 4]]%R) 100 20 None 5 "fft" [] None 1 true.
Proof.
  assert (H : forall N f g, Z.even N = true ->
                Fixtures.unit_kernel N f g = even_kernels N f g).
  { intros N f g HN. unfold even_kernels. now rewrite HN. }
  split; [exact H|].
  exact (proj1 (low_and_band_pass_design_even_kernels Fixtures.plain_fft
           Fixtures.pass_through Fixtures.good_attenuation butter_only freqs
           plain_normalize unit_iirfilter unit_iirdesign echo_lfilter
           echo_filtfilt no_other_min Fixtures.unit_kernel even_kernels
           OverlapAdd.Python3 (Array2d 4 [[1; 2; 3; 4]]%R) 100%R 20%R 30%R
           None 5%R 5%R "fft" [] None 1 true H)).
Defined.

Lemma method_is_case_insensitive_witness :
  lower "FFT" = lower "fft"
  /\ low_pass_filter Fixtures.plain_fft Fixtures.pass_through
       Fixtures.unit_kernel Fixtures.good_attenuation butter_only freqs
       plain_normalize unit_iirfilter unit_iirdesign echo_lfilter
       echo_filtfilt no_other_min OverlapAdd.Python3
       (Array2d 4 [[1; 2; 3; 4]]%R) 100 20 None 5 "FFT" [] None 1 true
     = low_pass_filter Fixtures.plain_fft Fixtures.pass_through
         Fixtures.unit_kernel Fixtures.good_attenuation butter_only freqs
         plain_normalize unit_iirfilter unit_iirdesign echo_lfilter
         echo_filtfilt no_other_min OverlapAdd.Python3
         (Array2d 4 [[1; 2; 3; 4]]%R) 100 20 None 5 "fft" [] None 1 true.
Proof.
  split; [reflexivity|].
  exact (proj1 (method_is_case_insensitive Fixtures.plain_fft
           Fixtures.pass_through Fixtures.good_attenuation butter_only freqs
           plain_normalize unit_iirfilter unit_iirdesign echo_lfilter
           echo_filtfilt no_other_min no_argsort Fixtures.unit_kernel
           "FFT" "fft" OverlapAdd.Python3 (Array2d 4 [[1; 2; 3; 4]]%R)
           100%R 20%R 30%R [] [] None 5%R 5%R [] None 1 true eq_refl)).
Defined.

Lemma filtfilt_keeps_shape_witness :
  wf_array (Array2d 2 [[1; 2]; [3; 4]]%R)
  /\ picks_fit (Array2d 2 [[1; 2]; [3; 4]]%R) (Some [0])
  /\ exists x',
       _filtfilt negate_filtfilt (Array2d 2 [[1; 2]; [3; 4]]%R)
         (VArray [1%R]) (VArray [1%R]) (VInt 0) (Some [0]) 1 true
       = Run (Array2d 2 [[1; 2]; [3; 4]]%R) [] (Ok x')
       /\ same_off [0] (Array2d 2 [[1; 2]; [3; 4]]%R) x'.
Proof.
  assert (H1 : wf_array (Array2d 2 [[1; 2]; [3; 4]]%R))
    by (repeat constructor).
  assert (H2 : picks_fit (Array2d 2 [[1; 2]; [3; 4]]%R) (Some [0])).
  { constructor; [cbn; lia|constructor]. }
  split; [exact H1|]. split; [exact H2|].
  destruct (filtfilt_keeps_shape negate_filtfilt
              (Array2d 2 [[1; 2]; [3; 4]]%R) (VArray [1%R]) (VArray [1%R])
              (VInt 0) (Some [0]) 1 true H1 H2)
    as (x' & Hrun & _ & _ & _ & Hoff).
  { intros r Hr. exists (map Ropp r). split; [reflexivity|].
    now rewrite length_map. }
  exists x'. split; [exact Hrun|]. now apply Hoff.
Defined.

Lemma ringing_estimate_witness :
  short_lfilter (VArray [1%R]) (VArray [1%R]) (1%R :: repeat 0%R 999)
  = Returns [1; 0]%R
  /\ (exists v, In v [1; 0]%R /\ v <> 0%R)
  /\ exists k,
       _estimate_ringing_samples short_lfilter (VArray [1%R]) (VArray [1%R])
       = Returns (Z.of_nat k).
Proof.
  assert (H1 : short_lfilter (VArray [1%R]) (VArray [1%R])
                 (1%R :: repeat 0%R 999) = Returns [1; 0]%R) by reflexivity.
  assert (H2 : exists v, In v [1; 0]%R /\ v <> 0%R).
  { exists 1%R. split; [now left|lra]. }
  split; [exact H1|]. split; [exact H2|].
  destruct (proj1 (ringing_estimate short_lfilter (VArray [1%R])
                     (VArray [1%R]) [1; 0]%R H1) H2) as (k & Hk & _).
  exists k. exact Hk.
Defined.

Lemma construct_iir_filter_idempotent_witness :
  construct_iir_filter butter_only freqs plain_normalize unit_iirfilter
    unit_iirdesign echo_lfilter
    [("order", VInt 4); ("ftype", VStr "butter"); ("padlen", VInt 0)]%string
    (Some (Scalar 40)) None (Some 1000%R) (Some "low"%string) true
  = ([("order", VInt 4); ("ftype", VStr "butter"); ("padlen", VInt 0)]%string,
     Returns
       [("b", VArray [1%R]); ("a", VArray [1%R]); ("padlen", VInt 0);
        ("order", VInt 4); ("ftype", VStr "butter"); ("padlen", VInt 0)]%string)
  /\ exists new',
       construct_iir_filter butter_only freqs plain_normalize unit_iirfilter
         unit_iirdesign echo_lfilter
         [("b", VArray [1%R]); ("a", VArray [1%R]); ("padlen", VInt 0);
          ("order", VInt 4); ("ftype", VStr "butter");
          ("padlen", VInt 0)]%string
         None None None None false
       = (new', Returns new')
       /\ lookup "order" new' = Some (VInt 4).
Proof.
  assert (H : construct_iir_filter butter_only freqs plain_normalize
                unit_iirfilter unit_iirdesign echo_lfilter
                [("order", VInt 4); ("ftype", VStr "butter");
                 ("padlen", VInt 0)]%string
                (Some (Scalar 40)) None (Some 1000%R) (Some "low"%string) true
              = ([("order", VInt 4); ("ftype", VStr "butter");
                  ("padlen", VInt 0)]%string,
                 Returns
                   [("b", VArray [1%R]); ("a", VArray [1%R]);
                    ("padlen", VInt 0); ("order", VInt 4);
                    ("ftype", VStr "butter"); ("padlen", VInt 0)]%string))
    by reflexivity.
  split; [exact H|].
  destruct (construct_iir_filter_idempotent butter_only freqs plain_normalize
              unit_iirfilter unit_iirdesign echo_lfilter _ _ _ _ _ _ _ _
              None None None None false H) as (new' & Hrun & Hsame).
  exists new'. split; [exact Hrun|]. now rewrite Hsame.
Defined.

Lemma band_stop_iir_keeps_last_band_witness :
  lower "IIR" = "iir"%string
  /\ returned
       (band_stop_filter Fixtures.plain_fft Fixtures.pass_through
          Fixtures.unit_kernel Fixtures.good_attenuation butter_only freqs
          plain_normalize unit_iirfilter unit_iirdesign echo_lfilter
          negate_filtfilt no_other_min no_argsort OverlapAdd.Python3
          (Array2d 1 [[1%R]]) 100 ([10] ++ [20])%R ([12] ++ [22])%R None 1 1
          "IIR"
          [("b", VArray [1%R]); ("a", VArray [1%R]);
           ("padlen", VInt 0)]%string
          None 1 true)
     = Returns (Array2d 1 [[Ropp 1]])
  /\ returned
       (band_stop_filter Fixtures.plain_fft Fixtures.pass_through
          Fixtures.unit_kernel Fixtures.good_attenuation butter_only freqs
          plain_normalize unit_iirfilter unit_iirdesign echo_lfilter
          negate_filtfilt no_other_min no_argsort OverlapAdd.Python3
          (Array2d 1 [[1%R]]) 100 [20%R] [22%R] None 1 1 "IIR"
          [("b", VArray [1%R]); ("a", VArray [1%R]);
           ("padlen", VInt 0)]%string
          None 1 true)
     = Returns (Array2d 1 [[Ropp 1]]).
Proof.
  assert (H1 : lower "IIR" = "iir"%string) by reflexivity.
  assert (H2 : returned
       (band_stop_filter Fixtures.plain_fft Fixtures.pass_through
          Fixtures.unit_kernel Fixtures.good_attenuation butter_only freqs
          plain_normalize unit_iirfilter unit_iirdesign echo_lfilter
          negate_filtfilt no_other_min no_argsort OverlapAdd.Python3
          (Array2d 1 [[1%R]]) 100 ([10] ++ [20])%R ([12] ++ [22])%R None 1 1
          "IIR"
          [("b", VArray [1%R]); ("a", VArray [1%R]);
           ("padlen", VInt 0)]%string
          None 1 true)
     = Returns (Array2d 1 [[Ropp 1]])).
  { unfold band_stop_filter.
    cbn [check_method lower lower_char app map existsb length Nat.eqb negb].
    cbv -[Rgt_bool Rplus Rminus Ropp IZR].
    settle_reals. reflexivity. }
  split; [exact H1|]. split; [exact H2|].
  exact (proj1 (band_stop_iir_keeps_last_band Fixtures.plain_fft
           Fixtures.pass_through Fixtures.good_attenuation butter_only freqs
           plain_normalize unit_iirfilter unit_iirdesign echo_lfilter
           negate_filtfilt no_other_min no_argsort Fixtures.unit_kernel
           OverlapAdd.Python3 (Array2d 1 [[1%R]]) 100%R [10%R] [12%R] 20%R
           22%R None 1%R 1%R "IIR" _ None 1 _ H1 eq_refl) H2).
Defined.

Lemma notch_iir_keeps_last_frequency_witness :
  lower "iir" = "iir"%string
  /\ returned
       (fst (notch_filter Fixtures.plain_fft Fixtures.pass_through
          Fixtures.unit_kernel Fixtures.good_attenuation butter_only freqs
          plain_normalize unit_iirfilter unit_iirdesign echo_lfilter
          negate_filtfilt no_other_min no_argsort Fixtures.one_taper
          Fixtures.flat_spectrum Fixtures.no_ppf Fixtures.zero_angle
          OverlapAdd.Python3 (Array2d 1 [[1%R]]) 1000
          (Some ([50] ++ [100])%R) None NoWidths 1 "iir"
          [("b", VArray [1%R]); ("a", VArray [1%R]);
           ("padlen", VInt 0)]%string
          None (1 / 20) None 1 true))
     = Returns (Array2d 1 [[Ropp 1]])
  /\ returned
       (fst (notch_filter Fixtures.plain_fft Fixtures.pass_through
          Fixtures.unit_kernel Fixtures.good_attenuation butter_only freqs
          plain_normalize unit_iirfilter unit_iirdesign echo_lfilter
          negate_filtfilt no_other_min no_argsort Fixtures.one_taper
          Fixtures.flat_spectrum Fixtures.no_ppf Fixtures.zero_angle
          OverlapAdd.Python3 (Array2d 1 [[1%R]]) 1000 (Some [100%R]) None
          NoWidths 1 "iir"
          [("b", VArray [1%R]); ("a", VArray [1%R]);
           ("padlen", VInt 0)]%string
          None (1 / 20) None 1 true))
     = Returns (Array2d 1 [[Ropp 1]]).
Proof.
  assert (H1 : lower "iir" = "iir"%string) by reflexivity.
  assert (H2 : returned
       (fst (notch_filter Fixtures.plain_fft Fixtures.pass_through
          Fixtures.unit_kernel Fixtures.good_attenuation butter_only freqs
          plain_normalize unit_iirfilter unit_iirdesign echo_lfilter
          negate_filtfilt no_other_min no_argsort Fixtures.one_taper
          Fixtures.flat_spectrum Fixtures.no_ppf Fixtures.zero_angle
          OverlapAdd.Python3 (Array2d 1 [[1%R]]) 1000
          (Some ([50] ++ [100])%R) None NoWidths 1 "iir"
          [("b", VArray [1%R]); ("a", VArray [1%R]);
           ("padlen", VInt 0)]%string
          None (1 / 20) None 1 true))
     = Returns (Array2d 1 [[Ropp 1]])).
  { unfold notch_filter, band_stop_filter.
    cbv -[Rgt_bool Rlt_bool Rplus Rminus Ropp Rmult Rdiv Rinv IZR].
    settle_reals. reflexivity. }
  split; [exact H1|]. split; [exact H2|].
  refine (notch_iir_keeps_last_frequency Fixtures.plain_fft
            Fixtures.pass_through Fixtures.good_attenuation butter_only freqs
            plain_normalize unit_iirfilter unit_iirdesign echo_lfilter
            negate_filtfilt no_other_min no_argsort Fixtures.unit_kernel
            Fixtures.one_taper Fixtures.flat_spectrum Fixtures.no_ppf
            Fixtures.zero_angle OverlapAdd.Python3 (Array2d 1 [[1%R]])
            1000%R [50%R] 100%R None NoWidths 1%R "iir" _ None (1 / 20)%R
            None 1 _ H1 _ H2).
  intros ws. discriminate.
Defined.

Lemma notch_widths_forms_witness :
  (forall v t s, snd (Fixtures.flat_spectrum v t s) <> [])
  /\ wf_array (Array2d 1 [[10]; [10]]%R)
  /\ snd (notch_filter Fixtures.plain_fft Fixtures.pass_through
            Fixtures.unit_kernel Fixtures.good_attenuation butter_only freqs
            plain_normalize unit_iirfilter unit_iirdesign echo_lfilter
            negate_filtfilt no_other_min no_argsort Fixtures.one_taper
            Fixtures.flat_spectrum Fixtures.no_ppf Fixtures.zero_angle
            OverlapAdd.Python3 (Array2d 1 [[10]; [10]]%R) 1000
            (Some [50; 100]%R) None (Widths [8; 4]%R) 1 "spectrum_fit" []
            None (1 / 20) None 1 true)
     = Widths (Nat.iter 2 (map (fun v => v / 2)%R) [8; 4]%R)
  /\ snd (notch_filter Fixtures.plain_fft Fixtures.pass_through
            Fixtures.unit_kernel Fixtures.good_attenuation butter_only freqs
            plain_normalize unit_iirfilter unit_iirdesign echo_lfilter
            negate_filtfilt no_other_min no_argsort Fixtures.one_taper
            Fixtures.flat_spectrum Fixtures.no_ppf Fixtures.zero_angle
            OverlapAdd.Python3 (Array2d 1 [[10]; [10]]%R) 1000
            (Some [50; 100]%R) None (OneWidth 8) 1 "spectrum_fit" []
            None (1 / 20) None 1 true)
     = OneWidth 8.
Proof.
  assert (H1 : forall v t s, snd (Fixtures.flat_spectrum v t s) <> [])
    by (intros; cbn; discriminate).
  assert (H2 : wf_array (Array2d 1 [[10]; [10]]%R))
    by (repeat constructor).
  pose proof (notch_widths_forms Fixtures.plain_fft Fixtures.pass_through
                Fixtures.good_attenuation butter_only freqs plain_normalize
                unit_iirfilter unit_iirdesign echo_lfilter negate_filtfilt
                no_other_min no_argsort Fixtures.unit_kernel
                Fixtures.one_taper Fixtures.flat_spectrum Fixtures.no_ppf
                Fixtures.zero_angle OverlapAdd.Python3
                (Array2d 1 [[10]; [10]]%R) 1000%R [50; 100]%R 8%R None 1%R
                "spectrum_fit" [] None (1 / 20)%R None 1 true) as H.
  cbv zeta in H.
  destruct H as (_ & _ & _ & Hkept & _ & Hleft).
  split; [exact H1|]. split; [exact H2|]. split.
  - refine (proj2 (Hleft [8; 4]%R eq_refl _ eq_refl _) H1 (or_introl eq_refl)
              H2 eq_refl).
    + cbn [existsb]. rewrite !(proj2 (Rlt_bool_false _ 0)) by lra.
      reflexivity.
    + cbn. discriminate.
  - exact (proj1 (proj2 (Hkept (Some [50; 100]%R)))).
Defined.

End InterfaceFacts.
